(** * supapup: the console-statement remover (remove_console_logs_v2.py)

    A shallow embedding of [comment_out_console_statements] and
    [count_active_console_statements], and the properties of the line
    scanner: which lines match, how far a statement span reaches, which
    lines are rewritten, termination, and what the counter reports.

    Python [str] values are sequences of Unicode code points; a code point
    is an [N] here and a string a [list N].  Line indices are Python ints
    ([Z]): the source decrements the index, and a negative index into a
    Python list wraps around, so nothing is truncated at zero. *)

From Stdlib Require Import ZArith NArith Ascii String Lia.
From stdpp Require Import base list strings gmap.

Local Open Scope Z_scope.

(** ** Strings *)

Definition char := N.
Abbreviation str := (list char).

Definition lit (s : string) : str := map N_of_ascii (list_ascii_of_string s).

Definition NL : char := 10%N.
Definition BACKTICK : char := 96%N.
Definition LPAREN : char := 40%N.
Definition RPAREN : char := 41%N.
Definition SEMI : char := 59%N.
Definition SLASH : char := 47%N.

(** [str.isspace] on one code point (CPython's [_PyUnicode_IsWhitespace]):
    the characters [str.lstrip()] and [str.rstrip()] remove, and the ones
    [\s] matches in a [str] pattern. *)
Definition isspace (c : char) : bool :=
  ((9 <=? c) && (c <=? 13) || (28 <=? c) && (c <=? 32)
   || (c =? 133) || (c =? 160) || (c =? 5760)
   || (8192 <=? c) && (c <=? 8202)
   || (c =? 8232) || (c =? 8233) || (c =? 8239) || (c =? 8287)
   || (c =? 12288))%N.

(** [s.lstrip()] *)
Fixpoint lstrip (s : str) : str :=
  match s with
  | [] => []
  | c :: s' => if isspace c then lstrip s' else s
  end.

(** [s.rstrip()] *)
Definition rstrip (s : str) : str := rev (lstrip (rev s)).

(** [s.startswith(p)] *)
Fixpoint startswith (s p : str) {struct p} : bool :=
  match p with
  | [] => true
  | a :: p' =>
      match s with
      | [] => false
      | b :: s' => (b =? a)%N && startswith s' p'
      end
  end.

(** [s.endswith(p)] *)
Definition endswith (s p : str) : bool := startswith (rev s) (rev p).

(** [s.count(c)] for a one-character [c] *)
Fixpoint count (s : str) (c : char) : Z :=
  match s with
  | [] => 0
  | b :: s' => (if (b =? c)%N then 1 else 0) + count s' c
  end.

(** [c in s] for a one-character [c] *)
Fixpoint contains (s : str) (c : char) : bool :=
  match s with
  | [] => false
  | b :: s' => (b =? c)%N || contains s' c
  end.

Definition len {A} (l : list A) : Z := Z.of_nat (length l).

(** [s[:k]] for [0 <= k] *)
Definition slice_to (s : str) (k : Z) : str := take (Z.to_nat k) s.

(** ** Results of running Python code

    A computation returns, raises, or (in the model only) uses up the
    fuel of a [while] loop. *)

Inductive exn := IndexError.

Inductive outcome (A : Type) :=
| Done (a : A)
| Raise (e : exn)
| OutOfFuel.
Arguments Done {A} a.
Arguments Raise {A} e.
Arguments OutOfFuel {A}.

#[global] Instance outcome_ret : MRet outcome := fun A a => Done a.
#[global] Instance outcome_bind : MBind outcome := fun A B f m =>
  match m with
  | Done a => f a
  | Raise e => Raise e
  | OutOfFuel => OutOfFuel
  end.

(** One pass of a loop body either falls through to the next test of the
    loop condition or leaves the loop with [break]. *)
Inductive ctl (S : Type) :=
| Next (s : S)
| Break (s : S).
Arguments Next {S} s.
Arguments Break {S} s.

(** [while cond: body] *)
Fixpoint while_loop {S} (fuel : nat) (cond : S -> bool)
    (body : S -> outcome (ctl S)) (s : S) : outcome S :=
  match fuel with
  | O => OutOfFuel
  | Datatypes.S fuel' =>
      if cond s then
        match body s with
        | Done (Next s') => while_loop fuel' cond body s'
        | Done (Break s') => Done s'
        | Raise e => Raise e
        | OutOfFuel => OutOfFuel
        end
      else Done s
  end.

(** [lines[i]]: a negative index counts from the end, an index out of
    range raises. *)
Definition getitem {A} (lines : list A) (i : Z) : outcome A :=
  let k := if i <? 0 then i + len lines else i in
  if (0 <=? k) && (k <? len lines) then
    match lines !! Z.to_nat k with
    | Some x => Done x
    | None => Raise IndexError
    end
  else Raise IndexError.

(** [lines[i] = x] *)
Definition setitem {A} (lines : list A) (i : Z) (x : A) : outcome (list A) :=
  let k := if i <? 0 then i + len lines else i in
  if (0 <=? k) && (k <? len lines) then Done (<[Z.to_nat k := x]> lines)
  else Raise IndexError.

(** ** The scanner of remove_console_logs_v2.py *)

Definition CONSOLE : str := Eval cbv in lit "console.".
Definition COMMENTED_CONSOLE : str := Eval cbv in lit "// console.".
Definition COMMENT_PREFIX : str := Eval cbv in lit "// ".
Definition COMMENT_MARKER : str := Eval cbv in lit "//".
Definition LOG : str := Eval cbv in lit "log".
Definition ERROR : str := Eval cbv in lit "error".
Definition WARN : str := Eval cbv in lit "warn".
Definition INFO : str := Eval cbv in lit "info".

(** [['log', 'error', 'warn', 'info']] *)
Definition METHODS : list str := [LOG; ERROR; WARN; INFO].

(** The test of source lines 26-28 on the left-stripped line. *)
Definition is_console_statement (stripped : str) : bool :=
  startswith stripped CONSOLE
  && negb (startswith stripped COMMENTED_CONSOLE)
  && existsb (fun method => startswith stripped (CONSOLE ++ method)) METHODS.

(** [line[:len(line) - len(stripped)]] *)
Definition indent_of (line : str) : str :=
  slice_to line (len line - len (lstrip line)).

(** [indent + '// ' + stripped] *)
Definition comment_out (line : str) : str :=
  indent_of line ++ COMMENT_PREFIX ++ lstrip line.

(** The loop of source lines 39-44, entered with the index one past the
    start line. *)
Definition template_scan (fuel : nat) (lines : list str) (i : Z) : outcome Z :=
  while_loop fuel
    (fun i => i <? len lines)
    (fun i =>
       l ← getitem lines i;
       if contains l BACKTICK then Done (Break i) else Done (Next (i + 1)))
    i.

(** The loop of source lines 51-53 on the pair [(open_parens, i)]. *)
Definition paren_scan (fuel : nat) (lines : list str) (st : Z * Z)
    : outcome (Z * Z) :=
  while_loop fuel
    (fun '(open_parens, i) => (i <? len lines) && (0 <? open_parens))
    (fun '(open_parens, i) =>
       l ← getitem lines i;
       Done (Next (open_parens + (count l LPAREN - count l RPAREN), i + 1)))
    st.

(** Source lines 36-54: the value of [i] when the [if]/[elif] that follows
    the rewrite of a matched line is left, that is the index the closing
    [i += 1] of the iteration is applied to.  This is the end of the
    statement span that starts at [i]. *)
Definition span_end (fuel : nat) (lines : list str) (i : Z) (stripped : str)
    : outcome Z :=
  if contains stripped BACKTICK && (count stripped BACKTICK mod 2 =? 1) then
    template_scan fuel lines (i + 1)
  else if negb (endswith (rstrip stripped) [SEMI])
          && negb (endswith (rstrip stripped) [RPAREN]) then
    let open_parens := count stripped LPAREN - count stripped RPAREN in
    if 0 <? open_parens then
      '(_, i') ← paren_scan fuel lines (open_parens, i + 1);
      Done (i' - 1)
    else Done i
  else Done i.

(** The state of the main loop: [lines], [i], [modified]. *)
Definition state := (list str * Z * bool)%type.

(** The body of the main loop, source lines 21-56. *)
Definition iteration (fuel : nat) (st : state) : outcome (ctl state) :=
  let '(lines, i, modified) := st in
  line ← getitem lines i;
  let stripped := lstrip line in
  let indent := slice_to line (len line - len stripped) in
  if is_console_statement stripped then
    lines' ← setitem lines i (indent ++ COMMENT_PREFIX ++ stripped);
    i' ← span_end fuel lines' i stripped;
    Done (Next (lines', i' + 1, true))
  else Done (Next (lines, i + 1, modified)).

(** [i < len(lines)] *)
Definition main_cond (st : state) : bool :=
  let '(lines, i, _) := st in i <? len lines.

(** The main loop, source lines 17-56, on the lines read from the file.
    The result is the final list and the flag [modified]. *)
Definition scan_lines (fuel : nat) (lines : list str) : outcome (list str * bool) :=
  '(lines', _, modified) ←
    while_loop fuel main_cond (iteration fuel) (lines, 0, false);
  Done (lines', modified).

(** Every loop moves its index forward by at least one line, so a fuel
    above the number of lines is never used up ([scan_lines_fuel]). *)
Definition comment_out_lines (lines : list str) : outcome (list str * bool) :=
  scan_lines (S (length lines)) lines.

(** ** Reading and writing a file

    Both scripts open their files in text mode with the default [newline]
    argument.  On reading, a carriage return followed by a newline, and a
    carriage return alone, come out as one newline; [translate] is that
    decoder, its flag telling that the character before was a carriage
    return.  A file is the text it holds, before this translation. *)
Definition CR : char := 13%N.

Fixpoint translate (after_cr : bool) (file : str) : str :=
  match file with
  | [] => []
  | c :: rest =>
      if after_cr && (c =? NL)%N then translate false rest
      else if (c =? CR)%N then NL :: translate true rest
      else c :: translate false rest
  end.

(** [f.read()] *)
Definition read (file : str) : str := translate false file.

(** A text cut after every newline. *)
Fixpoint text_lines (content : str) : list str :=
  match content with
  | [] => []
  | c :: rest =>
      if (c =? NL)%N then [c] :: text_lines rest
      else match text_lines rest with
           | [] => [[c]]
           | l :: ls => (c :: l) :: ls
           end
  end.

(** [f.readlines()]: the lines of the text read, each with its newline. *)
Definition readlines (file : str) : list str := text_lines (read file).

(** [f.writelines(lines)] into an emptied file.  The line separator of the
    platform is taken to be the newline, as on Linux and macOS, so that
    nothing is translated on writing. *)
Definition writelines (lines : list str) : str := concat lines.

(** [comment_out_console_statements(file_path)] on the file: the file
    afterwards and the value returned. *)
Definition comment_out_console_statements (file : str) : outcome (str * bool) :=
  '(lines, modified) ← comment_out_lines (readlines file);
  if (modified : bool) then Done (writelines lines, true) else Done (file, false).


(** ** The counter of remove_console_logs_v2.py

    [count_active_console_statements] counts the matches of a regular
    expression.  The constructs of that expression are embedded with the
    backtracking semantics of Python's [re]: leftmost match, alternatives
    tried in order, greedy repetition. *)

Inductive regex :=
| Bol                        (* ^ under re.MULTILINE *)
| Str (s : str)              (* a run of literal characters *)
| DotStar                    (* .*  greedy; . is any character except a newline *)
| Cat (r1 r2 : regex)
| Alt (r1 r2 : regex)        (* r1|r2 *)
| NegLookahead (r : regex).  (* (?!r) *)

(** A position in the text: the character before it, if any, and the text
    from it on. *)
Definition pos := (option char * str)%type.

(** [^] with [re.MULTILINE]: at the start of the text and after a newline. *)
Definition at_bol (prev : option char) : bool :=
  match prev with
  | None => true
  | Some c => (c =? NL)%N
  end.

(** The literal [l] at [q]: the position after it. *)
Fixpoint eat (l : str) (q : pos) : option pos :=
  match l with
  | [] => Some q
  | a :: l' =>
      match q.2 with
      | [] => None
      | b :: rest => if (b =? a)%N then eat l' (Some b, rest) else None
      end
  end.

(** [.*] and then [k]: the longest run of characters other than a newline
    after which [k] matches. *)
Fixpoint dotstar (prev : option char) (s : str) (k : pos -> option pos)
    : option pos :=
  match s with
  | [] => k (prev, s)
  | c :: rest =>
      if (c =? NL)%N then k (prev, s)
      else match dotstar (Some c) rest k with
           | Some q => Some q
           | None => k (prev, s)
           end
  end.

(** [rmatch r q k]: match [r] at [q] and then the rest of the pattern,
    [k]; the result is the position where the whole match ends. *)
Fixpoint rmatch (r : regex) (q : pos) (k : pos -> option pos) : option pos :=
  match r with
  | Bol => if at_bol q.1 then k q else None
  | Str l => match eat l q with Some q' => k q' | None => None end
  | DotStar => dotstar q.1 q.2 k
  | Cat r1 r2 => rmatch r1 q (fun q' => rmatch r2 q' k)
  | Alt r1 r2 =>
      match rmatch r1 q k with
      | Some q' => Some q'
      | None => rmatch r2 q k
      end
  | NegLookahead r' =>
      match rmatch r' q Some with
      | Some _ => None
      | None => k q
      end
  end.

(** [re.findall(r, text)] from position [q] on, for a pattern without
    groups: the matched texts, scanning resumed where a match ends.  (After
    an empty match the scan moves on by one character; the pattern below
    has no empty match.) *)
Fixpoint findall (fuel : nat) (r : regex) (q : pos) : outcome (list str) :=
  match fuel with
  | O => OutOfFuel
  | S fuel' =>
      match rmatch r q Some with
      | Some q' =>
          let matched := take (length q.2 - length q'.2) q.2 in
          match matched, q.2 with
          | [], [] => Done [matched]
          | [], c :: rest => ms ← findall fuel' r (Some c, rest); Done (matched :: ms)
          | _, _ => ms ← findall fuel' r q'; Done (matched :: ms)
          end
      | None =>
          match q.2 with
          | [] => Done []
          | c :: rest => findall fuel' r (Some c, rest)
          end
      end
  end.

(** [console\.(?:log|error|warn|info)] *)
Definition CALL : regex :=
  Cat (Str CONSOLE) (Alt (Str LOG) (Alt (Str ERROR) (Alt (Str WARN) (Str INFO)))).

(** [^(?!.*//.*console\.(?:log|error|warn|info)).*console\.(?:log|error|warn|info)] *)
Definition PATTERN : regex :=
  Cat Bol
    (Cat (NegLookahead (Cat DotStar (Cat (Str COMMENT_MARKER) (Cat DotStar CALL))))
       (Cat DotStar CALL)).

(** [len(re.findall(pattern, content, re.MULTILINE))] *)
Definition count_matches (content : str) : outcome Z :=
  matches ← findall (S (length content)) PATTERN (None, content);
  Done (len matches).

(** [count_active_console_statements(file_path)] on the file. *)
Definition count_active_console_statements (file : str) : outcome Z :=
  count_matches (read file).

(** ** Spans

    The states at which the condition of a [while] loop held, in order. *)
Fixpoint while_trace {S} (fuel : nat) (cond : S -> bool)
    (body : S -> outcome (ctl S)) (s : S) : list S :=
  match fuel with
  | O => []
  | Datatypes.S fuel' =>
      if cond s then
        s :: match body s with
             | Done (Next s') => while_trace fuel' cond body s'
             | _ => []
             end
      else []
  end.

(** The states in which the main loop starts an iteration. *)
Definition visited (lines : list str) : list state :=
  while_trace (S (length lines)) main_cond (iteration (S (length lines)))
    (lines, 0, false).

(** The span [(start, end)] resolved by the iteration that starts in [st],
    when the line at the index matches. *)
Definition span_of (fuel : nat) (st : state) : option (Z * Z) :=
  let '(lines, i, _) := st in
  match getitem lines i with
  | Done line =>
      if is_console_statement (lstrip line) then
        match lines' ← setitem lines i (comment_out line);
              span_end fuel lines' i (lstrip line) with
        | Done e => Some (i, e)
        | _ => None
        end
      else None
  | _ => None
  end.

(** The spans of one pass over [lines], in order. *)
Definition spans (lines : list str) : list (Z * Z) :=
  omap (span_of (S (length lines))) (visited lines).

(** [(] minus [)] on one line, and over a run of lines. *)
Definition delta (l : str) : Z := count l LPAREN - count l RPAREN.

Fixpoint sum_delta (ls : list str) : Z :=
  match ls with
  | [] => 0
  | l :: ls' => delta l + sum_delta ls'
  end.

(** The parenthesis count after the lines [i .. k-1], when [op] is the
    count carried into line [i]. *)
Definition balance (lines : list str) (op i k : Z) : Z :=
  op + sum_delta (take (Z.to_nat (k - i)) (drop (Z.to_nat i) lines)).

(** The parenthesis count of the statement that starts on line [s], from
    the stripped start line through line [k]. *)
Definition cumulative (lines : list str) (s : Z) (start : str) (k : Z) : Z :=
  balance lines (delta start) (s + 1) (k + 1).

(** What holds whenever the main loop tests its condition, for a pass over
    [input]: lines from the index on are as in the input; a line before it
    is as in the input or is the rewritten start line of a span; a matching
    line before it starts a span or lies on the continuation lines of one;
    while [modified] is unset nothing has been rewritten, and once it is
    set there is a span. *)
Definition main_inv (input : list str) (st : state) : Prop :=
  let '(lines, i, modified) := st in
  0 <= i /\ length lines = length input /\
  (forall k : nat, i <= Z.of_nat k -> lines !! k = input !! k) /\
  (forall k : nat, Z.of_nat k < i ->
     lines !! k = input !! k \/
     exists e line, (Z.of_nat k, e) ∈ spans input /\ input !! k = Some line /\
       is_console_statement (lstrip line) = true /\
       lines !! k = Some (comment_out line)) /\
  (forall (k : nat) line, Z.of_nat k < i -> input !! k = Some line ->
     is_console_statement (lstrip line) = true ->
     exists s e, (s, e) ∈ spans input /\ s <= Z.of_nat k <= e) /\
  (modified = false -> lines = input) /\
  (modified = true -> exists s e, (s, e) ∈ spans input).

Definition main_measure (input : list str) (st : state) : nat :=
  Z.to_nat (len input - st.1.2).

(** An iteration moves the index forward and leaves the lines before it
    alone. *)
Definition advances (st st' : state) : Prop :=
  st.1.2 < st'.1.2 /\
  forall k : nat, Z.of_nat k <> st.1.2 -> st'.1.1 !! k = st.1.1 !! k.

(** ** What the counter counts *)

(** [s] starts with [console.] and one of the four method names. *)
Definition call_at (s : str) : bool :=
  existsb (fun method => startswith s (CONSOLE ++ method)) METHODS.

(** Some suffix of [l], [l] itself included, satisfies [f]. *)
Fixpoint any_suffix (f : str -> bool) (l : str) : bool :=
  f l || match l with
         | [] => false
         | _ :: l' => any_suffix f l'
         end.

(** The line holds a call somewhere. *)
Definition has_call (l : str) : bool := any_suffix call_at l.

(** The line holds [//] somewhere and a call somewhere after it. *)
Definition commented_call (l : str) : bool :=
  any_suffix (fun t => startswith t COMMENT_MARKER && has_call (drop 2 t)) l.

(** The lines the counter counts: a call, and no [//] before a call. *)
Definition active_line (l : str) : bool :=
  has_call l && negb (commented_call l).

(** Lines as [readlines] gives them: each ends with its newline and holds
    no other, except that the last may be a non-empty run without one. *)
Inductive lines_shaped : list str -> Prop :=
| shaped_nil : lines_shaped []
| shaped_last u : NL ∉ u -> u <> [] -> lines_shaped [u]
| shaped_cons u ls :
    NL ∉ u -> lines_shaped ls -> lines_shaped ((u ++ [NL]) :: ls).

(** The character before the position reached after the literal [l]. *)
Definition last_prev (p : option char) (l : str) : option char :=
  match last l with
  | Some c => Some c
  | None => p
  end.

(** Whether a match was found. *)
Definition ok (o : option pos) : bool :=
  match o with
  | Some _ => true
  | None => false
  end.

(** What follows a line in the text: the end of the text or a newline. *)
Definition line_end (tail : str) : Prop :=
  tail = [] \/ exists rest, tail = NL :: rest.

(** A match that started at the head of [u ++ tail] ends at [q]: inside
    the line [u], after at least one character. *)
Definition within (tail u : str) (q : pos) : Prop :=
  exists pre t c, u = pre ++ t /\ pre <> [] /\ c <> NL /\ q = (Some c, t ++ tail).

(** A pass replaces a line by itself or, when it matches, by the rewritten
    line. *)
Definition rewritten (l l' : str) : Prop :=
  l' = l \/ is_console_statement (lstrip l) = true /\ l' = comment_out l.

(** ** The match test in the words of the specification *)

(** [s] without the prefix [p], when [s] starts with [p]. *)
Fixpoint strip_prefix (p s : str) {struct p} : option str :=
  match p with
  | [] => Some s
  | a :: p' =>
      match s with
      | [] => None
      | b :: s' => if (b =? a)%N then strip_prefix p' s' else None
      end
  end.

(** The stripped line begins with [console.], then one of the four method
    names, then optional whitespace, then [(], and does not begin with
    [//]. *)
Definition spec_is_match (stripped : str) : bool :=
  existsb (fun method =>
             match strip_prefix (CONSOLE ++ method) stripped with
             | Some rest => startswith (lstrip rest) [LPAREN]
             | None => false
             end) METHODS
  && negb (startswith stripped COMMENT_MARKER).

(** ** Scenarios *)

Definition QUOTE : char := 34%N.

(** Scenario A: one call on one line. *)
Definition scenario_A : list str :=
  [lit "console.log(" ++ [QUOTE] ++ lit "hello" ++ [QUOTE] ++ lit ");" ++ [NL]].

(** Scenario B: a call whose arguments are on the next line. *)
Definition scenario_B : list str :=
  [lit "console.error(" ++ [NL];
   lit "  " ++ [QUOTE] ++ lit "failure" ++ [QUOTE] ++ lit ", err);" ++ [NL]].

(** Scenario C: a template literal closed on the next line. *)
Definition scenario_C : list str :=
  [lit "console.log(`value: ${x}" ++ [NL]; lit "more text`);" ++ [NL]].

(** A template literal that is never closed. *)
Definition unclosed_template : list str := [lit "console.log(`a" ++ [NL]].

(** A call whose parenthesis is never closed. *)
Definition unclosed_call : list str :=
  [lit "console.log(" ++ [NL]; lit "  x" ++ [NL]].

(** A call inside the template literal of another call. *)
Definition nested_call : list str :=
  [lit "console.log(`a" ++ [NL]; lit "console.log(1);" ++ [NL];
   lit "`);" ++ [NL]].

(** ** Repeated passes *)

(** The number of lines the scanner takes for a match. *)
Definition match_count (lines : list str) : nat :=
  length (List.filter (fun l => is_console_statement (lstrip l)) lines).

(** The pass run [n] times, each time over the lines the last one left. *)
Fixpoint passes (n : nat) (lines : list str) : outcome (list str) :=
  match n with
  | O => Done lines
  | S n' => '(out, _) ← comment_out_lines lines; passes n' out
  end.

(** ** The driver: [main] of remove_console_logs_v2.py

    The directory [src] is a finite map from file names to the files, each
    the text it holds; every entry stands for a regular file that can be
    read and written.  A line printed by [main] is a [message]; the
    numbers a line shows are its arguments. *)

Inductive message :=
| SrcDirNotFound                      (* Error: src directory not found at ... *)
| Banner                              (* Commenting out console statements ... *)
| Commented (name : string) (n : Z)   (* name: Commented n console statements *)
| NoChanges (name : string)           (* name: No changes made *)
| NoActive (name : string)            (* name: No active console statements found *)
| FileNotFound (name : string)        (* name: File not found *)
| ModifiedFiles (n : Z)               (* Modified n files *)
| NoteCli.                            (* Note: cli.ts was skipped ... *)

(** How [main] ends: by returning, or by [sys.exit(code)]. *)
Inductive ending :=
| Returned
| Exited (code : Z).

(** [files_to_process] *)
Definition files_to_process : list string :=
  ["index.ts"; "content-extractor.ts"; "agent-page-generator.ts";
   "browser-agent-generator.ts"; "devtools-elements.ts";
   "wait-state-manager.ts"; "agent-page-script.ts"; "html-parser.ts";
   "debugging-tools.ts"; "network-tools.ts"; "dom-monitor.ts"; "devtools.ts";
   "page-analysis.ts"; "form-tools.ts"; "form-detector.ts";
   "human-interaction.ts"; "storage-tools.ts"]%string.

(** [for x in items: body] *)
Fixpoint for_each {S A} (body : S -> A -> outcome S) (items : list A) (s : S)
    : outcome S :=
  match items with
  | [] => Done s
  | x :: rest => s' ← body s x; for_each body rest s'
  end.

(** The state of the loop of [main]: the directory, [total_files_modified]
    and the lines printed so far. *)
Definition main_state := (gmap string str * Z * list message)%type.

(** The body of the loop of [main], source lines 108-121. *)
Definition process_file (st : main_state) (file_name : string)
    : outcome main_state :=
  let '(dir, total_files_modified, printed) := st in
  match dir !! file_name with
  | Some content =>
      before_count ← count_active_console_statements content;
      if 0 <? before_count then
        '(content', modified) ← comment_out_console_statements content;
        if (modified : bool) then
          let dir' := <[file_name := content']> dir in
          after_count ← count_active_console_statements content';
          Done (dir', total_files_modified + 1,
                printed ++ [Commented file_name (before_count - after_count)])
        else Done (dir, total_files_modified, printed ++ [NoChanges file_name])
      else Done (dir, total_files_modified, printed ++ [NoActive file_name])
  | None => Done (dir, total_files_modified, printed ++ [FileNotFound file_name])
  end.

(** [main()], source lines 74-126, on the directory [src] when it exists:
    how it ends, the directory afterwards and the lines printed. *)
Definition main (src : option (gmap string str))
    : outcome (ending * option (gmap string str) * list message) :=
  match src with
  | None => Done (Exited 1, None, [SrcDirNotFound])
  | Some dir =>
      '(dir', total_files_modified, printed) ←
        for_each process_file files_to_process (dir, 0, [Banner]);
      Done (Returned, Some dir',
            printed ++ [ModifiedFiles total_files_modified; NoteCli])
  end.

(** The file a per-file line is about. *)
Definition message_name (msg : message) : option string :=
  match msg with
  | Commented name _ | NoChanges name | NoActive name | FileNotFound name =>
      Some name
  | _ => None
  end.

Definition is_commented (msg : message) : bool :=
  match msg with
  | Commented _ _ => true
  | _ => false
  end.

(** What one iteration of the loop of [main] does with the file [name]:
    the file before and after, and the line printed. *)
Definition file_report (name : string) (before after : option str)
    (msg : message) : Prop :=
  match before with
  | None => after = None /\ msg = FileNotFound name
  | Some content =>
      exists n content' modified,
        count_active_console_statements content = Done n /\
        comment_out_console_statements content = Done (content', modified) /\
        if 0 <? n then
          if modified then
            after = Some content' /\
            exists n', count_active_console_statements content' = Done n' /\
              msg = Commented name (n - n')
          else after = Some content /\ msg = NoChanges name
        else after = Some content /\ msg = NoActive name
  end.

(** ** The first version of the script, remove_console_logs.py

    Its [comment_out_console_statements] rewrites the whole text with two
    regular-expression substitutions.  The expressions use a group for
    [\1] and [\2], [\s*] and a lookbehind, so they have a matcher of their
    own. *)

Module V1.

(** A position in the text: the text before it, last character first, and
    the text from it on. *)
Definition pos := (str * str)%type.

Inductive regex :=
| Bol                             (* ^ under re.MULTILINE *)
| Str (s : str)                   (* a run of literal characters *)
| Spaces                          (* \s*  greedy *)
| Cat (r1 r2 : regex)
| Alt (r1 r2 : regex)             (* r1|r2 *)
| Group (i : nat) (r : regex)     (* ( r ), the i-th group *)
| NotBehind (s : str).            (* (?<!s) *)

(** The text of the groups matched so far, the latest first. *)
Definition captures := list (nat * str).

Fixpoint group (caps : captures) (i : nat) : str :=
  match caps with
  | [] => []
  | (j, s) :: caps' => if (j =? i)%nat then s else group caps' i
  end.

(** [^] with [re.MULTILINE]: at the start of the text and after a newline. *)
Definition at_bol (before : str) : bool :=
  match before with
  | [] => true
  | c :: _ => (c =? NL)%N
  end.

(** The literal [l] at [q]: the position after it. *)
Fixpoint eat (l : str) (q : pos) : option pos :=
  match l with
  | [] => Some q
  | a :: l' =>
      match q.2 with
      | [] => None
      | b :: rest => if (b =? a)%N then eat l' (b :: q.1, rest) else None
      end
  end.

(** [\s*] and then [k]: the longest run of whitespace after which [k]
    matches. *)
Fixpoint spaces {R} (before rest : str) (k : pos -> option R) : option R :=
  match rest with
  | [] => k (before, rest)
  | c :: rest' =>
      if isspace c then
        match spaces (c :: before) rest' k with
        | Some x => Some x
        | None => k (before, rest)
        end
      else k (before, rest)
  end.

(** [rmatch r q caps k]: match [r] at [q] and then the rest of the
    pattern, [k]; the result is the end of the whole match and the
    groups. *)
Fixpoint rmatch (r : regex) (q : pos) (caps : captures)
    (k : pos -> captures -> option (pos * captures)) : option (pos * captures) :=
  match r with
  | Bol => if at_bol q.1 then k q caps else None
  | Str l => match eat l q with Some q' => k q' caps | None => None end
  | Spaces => spaces q.1 q.2 (fun q' => k q' caps)
  | Cat r1 r2 => rmatch r1 q caps (fun q' caps' => rmatch r2 q' caps' k)
  | Alt r1 r2 =>
      match rmatch r1 q caps k with
      | Some x => Some x
      | None => rmatch r2 q caps k
      end
  | Group i r' =>
      rmatch r' q caps
        (fun q' caps' =>
           k q' ((i, take (length q.2 - length q'.2) q.2) :: caps'))
  | NotBehind l => if startswith q.1 (rev l) then None else k q caps
  end.

(** A replacement template: literal text and references [\i]. *)
Inductive piece :=
| Text (s : str)
| Ref (i : nat).

Fixpoint expand (template : list piece) (caps : captures) : str :=
  match template with
  | [] => []
  | Text s :: rest => s ++ expand rest caps
  | Ref i :: rest => group caps i ++ expand rest caps
  end.

(** [re.sub(r, template, text, flags=re.MULTILINE)] from the position [q]
    on: every match, found from left to right and not overlapping the one
    before, is replaced.  (After an empty match the next character is
    copied; the patterns below have no empty match.) *)
Fixpoint sub (fuel : nat) (r : regex) (template : list piece) (q : pos)
    : outcome str :=
  match fuel with
  | O => OutOfFuel
  | S fuel' =>
      match rmatch r q [] (fun q' caps => Some (q', caps)) with
      | Some (q', caps) =>
          if (length q'.2 <? length q.2)%nat then
            rest ← sub fuel' r template q';
            Done (expand template caps ++ rest)
          else
            match q.2 with
            | [] => Done (expand template caps)
            | c :: text =>
                rest ← sub fuel' r template (c :: q.1, text);
                Done (expand template caps ++ c :: rest)
            end
      | None =>
          match q.2 with
          | [] => Done []
          | c :: text =>
              rest ← sub fuel' r template (c :: q.1, text);
              Done (c :: rest)
          end
      end
  end.

(** [(log|error|warn|info)] *)
Definition METHOD : regex :=
  Group 2 (Alt (Str LOG) (Alt (Str ERROR) (Alt (Str WARN) (Str INFO)))).

(** The first pattern of [patterns]: [^], group 1 around [\s*],
    [(?<!\/\/)], [console\.], group 2 around [log|error|warn|info], [\s*]
    and [\(]. *)
Definition PATTERN_1 : regex :=
  Cat Bol (Cat (Group 1 Spaces) (Cat (NotBehind COMMENT_MARKER)
    (Cat (Str CONSOLE) (Cat METHOD (Cat Spaces (Str [LPAREN])))))).

(** The second pattern: the first one followed by [\s*] and [\n]. *)
Definition PATTERN_2 : regex :=
  Cat Bol (Cat (Group 1 Spaces) (Cat (NotBehind COMMENT_MARKER)
    (Cat (Str CONSOLE) (Cat METHOD
      (Cat Spaces (Cat (Str [LPAREN]) (Cat Spaces (Str [NL])))))))).

(** [\1// console.\2(] and [\1// console.\2(\n] *)
Definition TEMPLATE_1 : list piece :=
  [Ref 1; Text COMMENTED_CONSOLE; Ref 2; Text [LPAREN]].
Definition TEMPLATE_2 : list piece :=
  [Ref 1; Text COMMENTED_CONSOLE; Ref 2; Text [LPAREN; NL]].

(** [re.sub(pattern, replacement, content, flags=re.MULTILINE)] *)
Definition re_sub (r : regex) (template : list piece) (content : str)
    : outcome str :=
  sub (S (length content)) r template ([], content).

(** The characters at which [str.splitlines()] ends a line. *)
Definition is_linebreak (c : char) : bool :=
  ((10 <=? c) && (c <=? 13) || (28 <=? c) && (c <=? 30)
   || (c =? 133) || (c =? 8232) || (c =? 8233))%N.

(** [s.splitlines()]: the lines without their ends; a carriage return and
    the newline after it end one line; no empty line after the last
    end. *)
Fixpoint splitlines_from (after_cr : bool) (line : str) (s : str) : list str :=
  match s with
  | [] => match line with [] => [] | _ => [rev line] end
  | c :: rest =>
      if after_cr && (c =? NL)%N then splitlines_from false line rest
      else if is_linebreak c then
        rev line :: splitlines_from (c =? 13)%N [] rest
      else splitlines_from false (c :: line) rest
  end.

Definition splitlines (s : str) : list str := splitlines_from false [] s.

(** [len([1 for a, b in zip(xs, ys) if a != b])] *)
Fixpoint differing (xs ys : list str) : Z :=
  match xs, ys with
  | a :: xs', b :: ys' =>
      (if decide (a = b) then 0 else 1) + differing xs' ys'
  | _, _ => 0
  end.

(** The two substitutions of source lines 29-30, in order. *)
Definition substitute (content : str) : outcome str :=
  content1 ← re_sub PATTERN_1 TEMPLATE_1 content;
  re_sub PATTERN_2 TEMPLATE_2 content1.

(** [comment_out_console_statements(file_path)] of remove_console_logs.py
    on the file: the file afterwards and the value returned, the number of
    lines that differ.  The file is written only when that number is
    positive. *)
Definition comment_out_console_statements (file : str) : outcome (str * Z) :=
  let content := read file in
  content' ← substitute content;
  let changes := differing (splitlines content) (splitlines content') in
  if 0 <? changes then Done (content', changes) else Done (file, changes).

(** The patterns without the lookbehind. *)
Definition PATTERN_1_PLAIN : regex :=
  Cat Bol (Cat (Group 1 Spaces)
    (Cat (Str CONSOLE) (Cat METHOD (Cat Spaces (Str [LPAREN]))))).

Definition PATTERN_2_PLAIN : regex :=
  Cat Bol (Cat (Group 1 Spaces)
    (Cat (Str CONSOLE) (Cat METHOD
      (Cat Spaces (Cat (Str [LPAREN]) (Cat Spaces (Str [NL]))))))).

(** The continuation that ends a match. *)
Definition finish (q : pos) (caps : captures) : option (pos * captures) :=
  Some (q, caps).

(** [t] begins with a call as the patterns see it: whitespace, [console.],
    a method name, whitespace, [(]; [r] is what follows. *)
Definition call_shape (t ws method ws2 r : str) : Prop :=
  t = ws ++ CONSOLE ++ method ++ ws2 ++ LPAREN :: r /\
  Forall (fun c => isspace c = true) ws /\
  Forall (fun c => isspace c = true) ws2 /\
  In method METHODS.

Definition starts_call (t : str) : Prop :=
  exists ws method ws2 r, call_shape t ws method ws2 r.

(** No position of [t] is the start of a line at which a call begins;
    [bol] says whether [t] itself starts a line. *)
Fixpoint quiet (bol : bool) (t : str) : Prop :=
  (bol = true -> ~ starts_call t) /\
  match t with
  | [] => True
  | c :: t' => quiet (c =? NL)%N t'
  end.

(** [out] is [t], or the two agree up to a point where [t] goes on with
    [console.] and [out] with [// console.]. *)
Definition agree (t out : str) : Prop :=
  out = t \/
  exists common x y,
    t = common ++ CONSOLE ++ x /\ out = common ++ COMMENTED_CONSOLE ++ y.

(** ** [main] of the first version

    [main()] for a command line without [--all], source lines 44-77: the
    walk over the whole tree of [src] that [--all] adds is left out.  The
    directory and the endings are those of the second version's [main]. *)

Inductive message :=
| SrcDirNotFound                            (* Error: src directory not found at ... *)
| Banner                                    (* Commenting out console statements ... *)
| Commented (name : string) (changes : Z)   (* name: Commented out n lines *)
| NoChangesNeeded (name : string)           (* name: No changes needed *)
| FileNotFound (name : string)              (* name: File not found *)
| TotalLines (n : Z).                       (* Total lines modified: n *)

(** [files_to_process] *)
Definition files_to_process : list string :=
  ["index.ts"; "content-extractor.ts"; "agent-page-generator.ts";
   "browser-agent-generator.ts"; "devtools-elements.ts";
   "wait-state-manager.ts"; "agent-page-script.ts"; "html-parser.ts";
   "cli.ts"]%string.

(** The state of the loop of [main]: the directory, [total_changes] and
    the lines printed so far. *)
Definition main_state := (gmap string str * Z * list message)%type.

(** The body of the loop of [main], source lines 70-75, with the line that
    [comment_out_console_statements] prints (source lines 35-40). *)
Definition process_file (st : main_state) (file_name : string)
    : outcome main_state :=
  let '(dir, total_changes, printed) := st in
  match dir !! file_name with
  | Some content =>
      '(content', changes) ← comment_out_console_statements content;
      Done (<[file_name := content']> dir, total_changes + changes,
            printed ++ [if 0 <? changes then Commented file_name changes
                        else NoChangesNeeded file_name])
  | None => Done (dir, total_changes, printed ++ [FileNotFound file_name])
  end.

Definition main (src : option (gmap string str))
    : outcome (ending * option (gmap string str) * list message) :=
  match src with
  | None => Done (Exited 1, None, [SrcDirNotFound])
  | Some dir =>
      '(dir', total_changes, printed) ←
        for_each process_file files_to_process (dir, 0, [Banner]);
      Done (Returned, Some dir', printed ++ [TotalLines total_changes])
  end.

(** The file a per-file line is about, and the number it shows. *)
Definition message_name (msg : message) : option string :=
  match msg with
  | Commented name _ | NoChangesNeeded name | FileNotFound name => Some name
  | _ => None
  end.

Definition message_changes (msg : message) : Z :=
  match msg with
  | Commented _ changes => changes
  | _ => 0
  end.

Definition reported (msgs : list message) : Z :=
  foldr (fun msg acc => message_changes msg + acc) 0 msgs.

(** What one iteration of the loop of [main] does with the file [name]:
    the file before and after, and the line printed. *)
Definition file_report (name : string) (before after : option str)
    (msg : message) : Prop :=
  match before with
  | None => after = None /\ msg = FileNotFound name
  | Some content =>
      exists out,
        substitute (read content) = Done out /\
        if decide (out = read content)
        then after = Some content /\ msg = NoChangesNeeded name
        else after = Some out /\
             exists changes, 0 < changes /\ msg = Commented name changes
  end.

End V1.

(** A call of the first version's kind: the parenthesis on the next
    line. *)
Definition split_call : str :=
  lit "console.warn" ++ [NL] ++ lit "(z)" ++ [NL].

(** A text without any [console.]. *)
Definition plain_text : str := lit "let x = 1;" ++ [NL].

(** * Properties *)

(** ** Loops *)

Section while_rules.
Context {S : Type} (cond : S -> bool) (body : S -> outcome (ctl S)).
Variables (Inv Post Seen : S -> Prop) (measure : S -> nat).
Hypothesis Hexit : forall s, Inv s -> cond s = false -> Post s.
Hypothesis Hbody : forall s, Seen s -> Inv s -> cond s = true ->
  (exists s', body s = Done (Next s') /\ Inv s' /\ (measure s' < measure s)%nat)
  \/ (exists s', body s = Done (Break s') /\ Post s').

(** Total correctness of a loop; the body is only looked at in states
    the loop goes through ([Seen]). *)
Lemma while_loop_total_seen fuel s :
  (forall x, x ∈ while_trace fuel cond body s -> Seen x) ->
  Inv s -> (measure s < fuel)%nat ->
  exists s', while_loop fuel cond body s = Done s' /\ Post s'.
Proof.
  revert s. induction fuel as [|fuel IH]; intros s HT HI Hm; [lia|].
  simpl in *. destruct (cond s) eqn:Hc; [|by eauto].
  destruct (Hbody s) as [(s' & Hb & HI' & Hlt)|(s' & -> & HP)];
    [apply HT; left|done|done| |by eauto].
  rewrite Hb in *. apply IH; [|done|lia].
  intros x Hx. apply HT. by right.
Qed.

(** A state of the trace satisfies the invariant, and the loop run from
    it ends as the whole loop does. *)
Lemma while_trace_resume fuel s0 s :
  (forall x, x ∈ while_trace fuel cond body s0 -> Seen x) ->
  Inv s0 -> (measure s0 < fuel)%nat -> s ∈ while_trace fuel cond body s0 ->
  Inv s /\ cond s = true /\
  exists fuel', (measure s < fuel')%nat /\
    while_loop fuel cond body s0 = while_loop fuel' cond body s /\
    forall x, x ∈ while_trace fuel' cond body s ->
      x ∈ while_trace fuel cond body s0.
Proof.
  revert s0. induction fuel as [|fuel IH]; intros s0 HT HI Hm Hin; simpl in *.
  { by apply elem_of_nil in Hin. }
  destruct (cond s0) eqn:Hc; [|by apply elem_of_nil in Hin].
  apply elem_of_cons in Hin as [->|Hin].
  { split; [done|]. split; [done|]. exists (Datatypes.S fuel).
    split; [lia|]. simpl. by rewrite Hc. }
  destruct (Hbody s0) as [(s' & Hb & HI' & Hlt)|(s' & Hb & HP)];
    [apply HT; left|done|done| |]; rewrite Hb in *;
    [|by apply elem_of_nil in Hin].
  destruct (IH s') as (HIs & Hcs & fuel' & Hf & Heq & Hsub);
    [intros x Hx; apply HT; by right|done|lia|done|].
  split; [done|]. split; [done|]. exists fuel'. split; [done|].
  split; [exact Heq|]. intros x Hx. right. by apply Hsub.
Qed.
End while_rules.

Lemma while_loop_next {S} (cond : S -> bool) body fuel s s' :
  cond s = true -> body s = Done (Next s') ->
  while_loop (Datatypes.S fuel) cond body s = while_loop fuel cond body s'.
Proof. intros Hc Hb. simpl. by rewrite Hc, Hb. Qed.

Lemma while_trace_next {S} (cond : S -> bool) body fuel s s' :
  cond s = true -> body s = Done (Next s') ->
  while_trace (Datatypes.S fuel) cond body s = s :: while_trace fuel cond body s'.
Proof. intros Hc Hb. simpl. by rewrite Hc, Hb. Qed.

Lemma while_loop_total {S} (cond : S -> bool) body (Inv Post : S -> Prop)
    (measure : S -> nat) :
  (forall s, Inv s -> cond s = false -> Post s) ->
  (forall s, Inv s -> cond s = true ->
    (exists s', body s = Done (Next s') /\ Inv s' /\ (measure s' < measure s)%nat)
    \/ (exists s', body s = Done (Break s') /\ Post s')) ->
  forall fuel s, Inv s -> (measure s < fuel)%nat ->
  exists s', while_loop fuel cond body s = Done s' /\ Post s'.
Proof.
  intros Hexit Hbody fuel s. 
  apply (while_loop_total_seen cond body Inv Post (fun _ => True) measure);
    auto.
Qed.

(** ** Indexing *)

Lemma len_nonneg {A} (l : list A) : 0 <= len l.
Proof. unfold len. lia. Qed.

Lemma getitem_Done {A} (lines : list A) i x :
  0 <= i -> lines !! Z.to_nat i = Some x -> getitem lines i = Done x.
Proof.
  intros Hi Hl. pose proof (lookup_lt_Some _ _ _ Hl) as Hlt.
  unfold getitem, len.
  destruct (Z.ltb_spec i 0); [lia|].
  destruct (Z.leb_spec 0 i); [|lia].
  destruct (Z.ltb_spec i (Z.of_nat (length lines))); [|lia].
  simpl. by rewrite Hl.
Qed.

Lemma getitem_in_range {A} (lines : list A) i :
  0 <= i < len lines ->
  exists x, lines !! Z.to_nat i = Some x /\ getitem lines i = Done x.
Proof.
  intros Hi. unfold len in Hi.
  destruct (lookup_lt_is_Some_2 lines (Z.to_nat i)) as [x Hx]; [lia|].
  exists x. split; [done|]. apply getitem_Done; [lia|done].
Qed.

Lemma setitem_Done {A} (lines : list A) i x :
  0 <= i < len lines -> setitem lines i x = Done (<[Z.to_nat i := x]> lines).
Proof.
  intros Hi. unfold setitem.
  destruct (Z.ltb_spec i 0); [lia|].
  destruct (Z.leb_spec 0 i); [|lia].
  destruct (Z.ltb_spec i (len lines)); [|lia].
  done.
Qed.

Lemma len_insert {A} (lines : list A) k x : len (<[k := x]> lines) = len lines.
Proof. unfold len. by rewrite length_insert. Qed.

(** ** The two forward scans *)

Lemma sum_delta_app ls1 ls2 : sum_delta (ls1 ++ ls2) = sum_delta ls1 + sum_delta ls2.
Proof. induction ls1 as [|l ls1 IH]; simpl; lia. Qed.

Lemma balance_start lines op i : balance lines op i i = op.
Proof. unfold balance. rewrite Z.sub_diag. simpl. lia. Qed.

Lemma balance_next lines op i k l :
  0 <= i <= k -> lines !! Z.to_nat k = Some l ->
  balance lines op i (k + 1) = balance lines op i k + delta l.
Proof.
  intros Hik Hl. unfold balance.
  replace (Z.to_nat (k + 1 - i)) with (Datatypes.S (Z.to_nat (k - i))) by lia.
  rewrite (take_S_r _ _ l).
  - rewrite sum_delta_app. simpl. lia.
  - rewrite lookup_drop. rewrite <- Hl. f_equal. lia.
Qed.

(** The template-literal scan stops at the first line from [i] on that
    holds a backtick, or at [len lines] when there is none. *)
Lemma template_scan_spec fuel lines i :
  0 <= i <= len lines -> (length lines < fuel)%nat ->
  exists e, template_scan fuel lines i = Done e /\ i <= e <= len lines /\
    (forall k l, i <= k < e -> lines !! Z.to_nat k = Some l ->
       contains l BACKTICK = false) /\
    (e < len lines ->
       exists l, lines !! Z.to_nat e = Some l /\ contains l BACKTICK = true).
Proof.
  intros Hi Hf. unfold template_scan.
  apply (while_loop_total _ _
    (fun k => i <= k <= len lines /\
       forall k' l, i <= k' < k -> lines !! Z.to_nat k' = Some l ->
         contains l BACKTICK = false)
    (fun e => i <= e <= len lines /\
       (forall k l, i <= k < e -> lines !! Z.to_nat k = Some l ->
          contains l BACKTICK = false) /\
       (e < len lines ->
          exists l, lines !! Z.to_nat e = Some l /\ contains l BACKTICK = true))
    (fun k => Z.to_nat (len lines - k))).
  - intros k [Hk Hno] Hc. apply Z.ltb_ge in Hc.
    split; [lia|]. split; [done|]. intros; lia.
  - intros k [Hk Hno] Hc. apply Z.ltb_lt in Hc.
    destruct (getitem_in_range lines k) as (l & Hl & Hg); [lia|].
    rewrite Hg. simpl. destruct (contains l BACKTICK) eqn:Hb.
    + right. exists k. split; [done|]. split; [lia|]. split; [done|]. eauto.
    + left. exists (k + 1). split; [done|]. split; [|lia]. split; [lia|].
      intros k' l' Hk' Hl'. destruct (decide (k' = k)) as [->|].
      * congruence.
      * apply (Hno k'); [lia|done].
  - split; [lia|]. intros; lia.
  - unfold len. lia.
Qed.

(** The parenthesis scan stops at the first index at which the count
    carried in is zero or below, or at [len lines]. *)
Lemma paren_scan_spec fuel lines op i :
  0 <= i <= len lines -> (length lines < fuel)%nat ->
  exists e, paren_scan fuel lines (op, i) = Done (balance lines op i e, e) /\
    i <= e <= len lines /\
    (forall k, i <= k < e -> 0 < balance lines op i k) /\
    (e < len lines -> balance lines op i e <= 0).
Proof.
  intros Hi Hf. unfold paren_scan.
  destruct (while_loop_total
    (fun '(open_parens, i) => (i <? len lines) && (0 <? open_parens))
    (fun '(open_parens, i) =>
       l ← getitem lines i;
       Done (Next (open_parens + (count l LPAREN - count l RPAREN), i + 1)))
    (fun '(o, k) => i <= k <= len lines /\ o = balance lines op i k /\
       forall k', i <= k' < k -> 0 < balance lines op i k')
    (fun '(o, e) => i <= e <= len lines /\ o = balance lines op i e /\
       (forall k, i <= k < e -> 0 < balance lines op i k) /\
       (e < len lines -> balance lines op i e <= 0))
    (fun '(_, k) => Z.to_nat (len lines - k))) with fuel (op, i)
    as ([o e] & Hrun & He & -> & Hpos & Hend).
  - intros [o k] (Hk & -> & Hpos) Hc.
    split; [lia|]. split; [done|]. split; [done|].
    intros Hlt. apply andb_false_iff in Hc as [Hc|Hc].
    + apply Z.ltb_ge in Hc. lia.
    + apply Z.ltb_ge in Hc. done.
  - intros [o k] (Hk & -> & Hpos) Hc. apply andb_true_iff in Hc as [Hc1 Hc2].
    apply Z.ltb_lt in Hc1. apply Z.ltb_lt in Hc2.
    destruct (getitem_in_range lines k) as (l & Hl & Hg); [lia|].
    left. rewrite Hg. simpl. eexists (_, k + 1). split; [done|].
    split; [|lia]. split; [lia|]. split.
    + rewrite (balance_next _ _ _ _ l); [done|lia|done].
    + intros k' Hk'. destruct (decide (k' = k)) as [->|]; [done|].
      apply Hpos. lia.
  - split; [lia|]. split; [by rewrite balance_start|]. intros; lia.
  - unfold len. lia.
  - exists e. done.
Qed.

(** ** Stripping and the rewritten line *)

Lemma lstrip_split s :
  exists pre, s = pre ++ lstrip s /\ Forall (fun c => isspace c = true) pre.
Proof.
  induction s as [|c s (pre & Hs & Hpre)]; simpl.
  - by exists [].
  - destruct (isspace c) eqn:Hc.
    + exists (c :: pre). split; [simpl; congruence|by constructor].
    + by exists [].
Qed.

Lemma lstrip_spaces pre s :
  Forall (fun c => isspace c = true) pre -> lstrip (pre ++ s) = lstrip s.
Proof. induction 1 as [|c pre Hc _ IH]; simpl; [done|by rewrite Hc]. Qed.

Lemma indent_of_split line :
  line = indent_of line ++ lstrip line /\
  Forall (fun c => isspace c = true) (indent_of line).
Proof.
  destruct (lstrip_split line) as (pre & Hs & Hpre).
  assert (indent_of line = pre) as ->; [|done].
  unfold indent_of, slice_to, len.
  rewrite Hs at 1 3. rewrite length_app.
  replace (Z.to_nat _) with (length pre) by lia.
  by rewrite take_app_length.
Qed.

Lemma lstrip_comment_out line :
  lstrip (comment_out line) = COMMENT_PREFIX ++ lstrip line.
Proof.
  unfold comment_out. rewrite lstrip_spaces by apply indent_of_split.
  reflexivity.
Qed.

Lemma startswith_app s p : startswith (p ++ s) p = true.
Proof. induction p as [|a p IH]; simpl; [done|]. by rewrite N.eqb_refl. Qed.

Lemma startswith_inv s p : startswith s p = true -> exists rest, s = p ++ rest.
Proof.
  revert s. induction p as [|a p IH]; intros s H; simpl in *; [by exists s|].
  destruct s as [|b s]; [done|]. apply andb_true_iff in H as [Hab H].
  apply N.eqb_eq in Hab as ->. destruct (IH _ H) as [rest ->]. by exists rest.
Qed.

Lemma startswith_prefix s p1 p2 :
  startswith s (p1 ++ p2) = true -> startswith s p1 = true.
Proof.
  intros H. apply startswith_inv in H as [rest ->].
  rewrite <- app_assoc. apply startswith_app.
Qed.

(** A rewritten line is not a match any more. *)
Lemma commented_not_statement line :
  is_console_statement (lstrip (comment_out line)) = false.
Proof. rewrite lstrip_comment_out. reflexivity. Qed.

(** ** One iteration of the main loop *)

Lemma span_end_bounds fuel lines i stripped :
  0 <= i < len lines -> (length lines < fuel)%nat ->
  exists e, span_end fuel lines i stripped = Done e /\ i <= e <= len lines.
Proof.
  intros Hi Hf. unfold span_end.
  destruct (contains stripped BACKTICK && _).
  { destruct (template_scan_spec fuel lines (i + 1)) as (e & -> & He & _);
      [lia|done|]. exists e. split; [done|lia]. }
  destruct (negb _ && negb _); [|exists i; split; [done|lia]].
  destruct (0 <? _); [|exists i; split; [done|lia]].
  destruct (paren_scan_spec fuel lines
    (count stripped LPAREN - count stripped RPAREN) (i + 1))
    as (e & -> & He & _); [lia|done|].
  simpl. exists (e - 1). split; [done|lia].
Qed.

Lemma iteration_spec fuel lines i m :
  0 <= i < len lines -> (length lines < fuel)%nat ->
  exists line, lines !! Z.to_nat i = Some line /\
    ((is_console_statement (lstrip line) = false /\
      span_of fuel (lines, i, m) = None /\
      iteration fuel (lines, i, m) = Done (Next (lines, i + 1, m)))
     \/
     (is_console_statement (lstrip line) = true /\
      exists e, i <= e <= len lines /\
        span_end fuel (<[Z.to_nat i := comment_out line]> lines) i (lstrip line)
          = Done e /\
        span_of fuel (lines, i, m) = Some (i, e) /\
        iteration fuel (lines, i, m)
          = Done (Next (<[Z.to_nat i := comment_out line]> lines, e + 1, true)))).
Proof.
  intros Hi Hf.
  destruct (getitem_in_range lines i Hi) as (line & Hl & Hg).
  exists line. split; [done|].
  unfold iteration, span_of. rewrite Hg. simpl.
  destruct (is_console_statement (lstrip line)) eqn:Hm; [right|left; repeat split].
  split; [done|]. rewrite !setitem_Done by done. simpl.
  destruct (span_end_bounds fuel (<[Z.to_nat i := comment_out line]> lines) i
    (lstrip line)) as (e & He & Hb).
  { by rewrite len_insert. }
  { by rewrite length_insert. }
  exists e. rewrite len_insert in Hb. split; [done|]. split; [done|].
  fold (indent_of line).
  change (indent_of line ++ _ :: _ :: _ :: lstrip line) with (comment_out line).
  by rewrite He.
Qed.

(** ** The main loop *)

Lemma main_inv_start input : main_inv input (input, 0, false).
Proof.
  split; [lia|]. split; [done|]. split; [done|].
  split; [intros; lia|]. split; [intros; lia|]. done.
Qed.

Lemma main_step input st :
  st ∈ visited input -> main_inv input st -> main_cond st = true ->
  exists st', iteration (S (length input)) st = Done (Next st') /\
     main_inv input st' /\ advances st st' /\
     (main_measure input st' < main_measure input st)%nat.
Proof.
  destruct st as [[lines i] m].
  intros Hseen (Hi & Hlen & Hge & Hlt & Hcov & Hmod & Hmod') Hc.
  apply Z.ltb_lt in Hc.
  assert (len lines = len input) as Hlen' by (unfold len; by rewrite Hlen).
  destruct (iteration_spec (S (length input)) lines i m) as (line & Hl & Hcase);
    [lia|lia|].
  assert (input !! Z.to_nat i = Some line) as Hin.
  { rewrite <- Hge; [done|lia]. }
  destruct Hcase as [(Hm & _ & Hit)|(Hm & e & He & _ & Hsp & Hit)];
    rewrite Hit; eexists; (split; [done|]).
  - split; [|split; [split; simpl; [lia|done]|unfold main_measure; simpl; lia]].
    split; [lia|]. split; [done|]. split; [intros; apply Hge; lia|].
    split; [|split; [|done]].
    + intros k Hk. destruct (decide (Z.of_nat k = i)) as [<-|].
      * left. apply Hge. lia.
      * apply Hlt. lia.
    + intros k line' Hk Hk' Hm'. destruct (decide (Z.of_nat k = i)) as [<-|].
      * rewrite Nat2Z.id in Hin. congruence.
      * apply (Hcov k line'); [lia|done|done].
  - assert ((i, e) ∈ spans input) as Hspan.
    { unfold spans. apply list_elem_of_omap. eauto. }
    split; [|split; [split; simpl; [lia|]|unfold main_measure; simpl; lia]].
    2:{ intros k Hk. apply list_lookup_insert_ne. lia. }
    split; [lia|]. split; [by rewrite length_insert|].
    split; [|split; [|split; [|split; [done|eauto]]]].
    + intros k Hk. rewrite list_lookup_insert_ne by lia. apply Hge. lia.
    + intros k Hk. destruct (decide (Z.of_nat k = i)) as [<-|].
      * right. exists e, line. rewrite Nat2Z.id in *.
        split; [done|]. split; [done|]. split; [done|].
        apply list_lookup_insert_eq. by eapply lookup_lt_Some.
      * rewrite list_lookup_insert_ne by lia.
        destruct (Z.lt_ge_cases (Z.of_nat k) i); [by apply Hlt|].
        left. apply Hge. lia.
    + intros k line' Hk Hk' Hm'.
      destruct (Z.lt_ge_cases (Z.of_nat k) i); [by eapply Hcov|].
      exists i, e. split; [done|]. lia.
Qed.

(** The loop run from a state the pass goes through ends, in a state that
    satisfies the invariant and keeps the lines before that state's index. *)
Lemma main_loop_from input fuel st :
  (forall x, x ∈ while_trace fuel main_cond (iteration (S (length input))) st ->
     x ∈ visited input) ->
  main_inv input st -> (main_measure input st < fuel)%nat ->
  exists out i m,
    while_loop fuel main_cond (iteration (S (length input))) st = Done (out, i, m)
    /\ main_inv input (out, i, m) /\ len input <= i /\
    forall k : nat, Z.of_nat k < st.1.2 -> out !! k = st.1.1 !! k.
Proof.
  intros Hsub Hinv Hm.
  destruct (while_loop_total_seen main_cond (iteration (S (length input)))
    (fun x => main_inv input x /\ st.1.2 <= x.1.2 /\
       forall k : nat, Z.of_nat k < st.1.2 -> x.1.1 !! k = st.1.1 !! k)
    (fun x => main_inv input x /\ len input <= x.1.2 /\
       forall k : nat, Z.of_nat k < st.1.2 -> x.1.1 !! k = st.1.1 !! k)
    (fun x => x ∈ visited input) (main_measure input)) with fuel st
    as ([[out i] m] & Hrun & Hinv' & Hi & Hfr).
  - intros [[lines i] m] (Hinv' & Hle & Hfr) Hc. split; [done|]. split; [|done].
    apply Z.ltb_ge in Hc. destruct Hinv' as (_ & Hlen & _).
    unfold len in *. simpl. lia.
  - intros x Hseen (Hinv' & Hle & Hfr) Hc. left.
    destruct (main_step input x Hseen Hinv' Hc) as (x' & Hit & Hinv'' & [Hadv1 Hadv2] & Hlt).
    exists x'. split; [done|]. split; [|done]. split; [done|]. split; [lia|].
    intros k Hk. rewrite Hadv2 by lia. by apply Hfr.
  - done.
  - split; [done|]. split; [lia|done].
  - done.
  - by exists out, i, m.
Qed.

Lemma visited_start_sub input x :
  x ∈ while_trace (S (length input)) main_cond (iteration (S (length input)))
        (input, 0, false) -> x ∈ visited input.
Proof. done. Qed.

(** The pass always returns; its result satisfies the invariant. *)
Lemma comment_out_lines_inv input :
  exists out i m, comment_out_lines input = Done (out, m) /\
    main_inv input (out, i, m) /\ len input <= i.
Proof.
  destruct (main_loop_from input (S (length input)) (input, 0, false))
    as (out & i & m & Hrun & Hinv & Hi & _).
  - apply visited_start_sub.
  - apply main_inv_start.
  - unfold main_measure, len. simpl. lia.
  - exists out, i, m. split; [|done].
    unfold comment_out_lines, scan_lines. by rewrite Hrun.
Qed.

(** ** The span of a start line depends on the lines after it only *)

Lemma while_loop_ext {S} (cond1 cond2 : S -> bool) body1 body2 (Inv : S -> Prop) :
  (forall s, Inv s -> cond1 s = cond2 s) ->
  (forall s, Inv s -> cond1 s = true -> body1 s = body2 s) ->
  (forall s s', Inv s -> cond1 s = true -> body1 s = Done (Next s') -> Inv s') ->
  forall fuel s, Inv s ->
    while_loop fuel cond1 body1 s = while_loop fuel cond2 body2 s.
Proof.
  intros Hc Hb Hn fuel. induction fuel as [|fuel IH]; intros s HI; [done|].
  simpl. rewrite <- (Hc s HI). destruct (cond1 s) eqn:Hc1; [|done].
  rewrite <- (Hb s HI Hc1). destruct (body1 s) as [[s'|s']| |] eqn:Hb1; try done.
  apply IH. by eapply Hn.
Qed.

Lemma getitem_ext {A} (l1 l2 : list A) k :
  0 <= k -> length l1 = length l2 -> l1 !! Z.to_nat k = l2 !! Z.to_nat k ->
  getitem l1 k = getitem l2 k.
Proof.
  intros Hk Hlen Hl. unfold getitem, len.
  destruct (Z.ltb_spec k 0); [lia|]. rewrite Hlen, Hl. done.
Qed.

Lemma span_end_ext fuel lines1 lines2 i stripped :
  0 <= i -> length lines1 = length lines2 ->
  (forall k : nat, i < Z.of_nat k -> lines1 !! k = lines2 !! k) ->
  span_end fuel lines1 i stripped = span_end fuel lines2 i stripped.
Proof.
  intros Hi Hlen Hl. unfold span_end.
  assert (len lines1 = len lines2) as Hlen' by (unfold len; by rewrite Hlen).
  destruct (contains stripped BACKTICK && _).
  { unfold template_scan.
    apply (while_loop_ext _ _ _ _ (fun k => i < k)); [| | |lia].
    - intros k Hk. by rewrite Hlen'.
    - intros k Hk _. rewrite (getitem_ext lines1 lines2); [done|lia|done|].
      apply Hl. lia.
    - intros k k' Hk _ Hb. destruct (getitem lines1 k); simpl in Hb; try done.
      destruct (contains a BACKTICK); simplify_eq. lia. }
  destruct (negb _ && negb _); [|done].
  destruct (0 <? _); [|done].
  unfold paren_scan.
  rewrite (while_loop_ext _
    (fun '(open_parens, i) => (i <? len lines2) && (0 <? open_parens))
    _ (fun '(open_parens, i) =>
         l ← getitem lines2 i;
         Done (Next (open_parens + (count l LPAREN - count l RPAREN), i + 1)))
    (fun st => i < st.2)); [done| | | |simpl; lia].
  - intros [o k] Hk. by rewrite Hlen'.
  - intros [o k] Hk _. simpl in Hk.
    rewrite (getitem_ext lines1 lines2); [done|lia|done|].
    apply Hl. lia.
  - intros [o k] [o' k'] Hk _ Hb. simpl in *.
    destruct (getitem lines1 k); simpl in Hb; simplify_eq. lia.
Qed.

(** ** What a pass does to a span *)

Lemma span_facts input s e :
  (s, e) ∈ spans input ->
  exists line out m,
    0 <= s < len input /\ input !! Z.to_nat s = Some line /\
    is_console_statement (lstrip line) = true /\
    span_end (S (length input)) input s (lstrip line) = Done e /\
    s <= e <= len input /\
    comment_out_lines input = Done (out, m) /\
    out !! Z.to_nat s = Some (comment_out line) /\
    forall k : nat, s < Z.of_nat k <= e -> out !! k = input !! k.
Proof.
  intros Hin. unfold spans in Hin.
  apply list_elem_of_omap in Hin as (st & Hst & Hsp).
  destruct (while_trace_resume main_cond (iteration (S (length input)))
    (main_inv input) (fun _ => True) (fun x => x ∈ visited input)
    (main_measure input)) with (S (length input))
    (input, 0, false) st as (Hinv & Hc & fuel' & Hf & Hrun & Hsub).
  { intros x Hx Hi Hcx. left.
    destruct (main_step input x Hx Hi Hcx) as (x' & ? & ? & ? & ?). eauto. }
  { apply visited_start_sub. }
  { apply main_inv_start. }
  { unfold main_measure, len. simpl. lia. }
  { done. }
  destruct (main_step input st Hst Hinv Hc) as (st' & Hit & Hinv' & [Hadv1 Hadv2] & Hlt).
  destruct st as [[lines i] m].
  pose proof Hinv as (Hi & Hlen & Hge & _).
  pose proof Hc as Hc'. apply Z.ltb_lt in Hc'.
  assert (len lines = len input) as Hlen' by (unfold len; by rewrite Hlen).
  destruct (iteration_spec (S (length input)) lines i m) as (line & Hl & Hcase);
    [lia|lia|].
  destruct Hcase as [(_ & Hno & _)|(Hm & e' & He' & Hend & Hsp' & Hit')];
    [congruence|].
  rewrite Hsp in Hsp'. injection Hsp' as -> ->.
  rewrite Hit in Hit'. injection Hit' as ->.
  destruct fuel' as [|fuel']; [lia|].
  rewrite (while_loop_next _ _ _ _ _ Hc Hit) in Hrun.
  destruct (main_loop_from input fuel'
    (<[Z.to_nat i := comment_out line]> lines, e' + 1, true))
    as (out & j & m' & Hrun' & _ & _ & Hfr).
  { intros x Hx. apply Hsub. rewrite (while_trace_next _ _ _ _ _ Hc Hit).
    by right. }
  { done. }
  { lia. }
  exists line, out, m'. split; [lia|]. split; [rewrite <- Hge; [done|lia]|].
  split; [done|]. split.
  { rewrite <- Hend. symmetry. apply span_end_ext; [done|by rewrite length_insert|].
    intros k Hk. rewrite list_lookup_insert_ne by lia. apply Hge. lia. }
  split; [lia|]. split.
  { unfold comment_out_lines, scan_lines, state in *. by rewrite Hrun, Hrun'. }
  simpl in Hfr. split.
  - rewrite Hfr by lia. apply list_lookup_insert_eq. by eapply lookup_lt_Some.
  - intros k Hk. rewrite Hfr by lia.
    rewrite list_lookup_insert_ne by lia. apply Hge. lia.
Qed.

(** ** The three rules *)

Lemma count_contains s c : contains s c = false -> count s c = 0.
Proof.
  induction s as [|b s IH]; simpl; [done|].
  destruct (b =? c)%N; simpl; [done|]. intros H. rewrite IH by done. lia.
Qed.

Lemma count_nonneg s c : 0 <= count s c.
Proof. induction s as [|b s IH]; simpl; [lia|]. destruct (b =? c)%N; lia. Qed.

Lemma template_test s :
  contains s BACKTICK && (count s BACKTICK mod 2 =? 1)
  = (count s BACKTICK mod 2 =? 1).
Proof.
  destruct (contains s BACKTICK) eqn:Hc; [done|].
  by rewrite (count_contains _ _ Hc).
Qed.

(** The rule that resolved a span, with what the rule's scan found. *)
Lemma span_end_cases fuel lines i stripped e :
  0 <= i < len lines -> (length lines < fuel)%nat ->
  span_end fuel lines i stripped = Done e ->
  (count stripped BACKTICK mod 2 = 1 /\ i + 1 <= e <= len lines /\
   (forall k l, i < k < e -> lines !! Z.to_nat k = Some l ->
      contains l BACKTICK = false) /\
   (e < len lines ->
      exists l, lines !! Z.to_nat e = Some l /\ contains l BACKTICK = true))
  \/
  (count stripped BACKTICK mod 2 <> 1 /\
   endswith (rstrip stripped) [SEMI] = false /\
   endswith (rstrip stripped) [RPAREN] = false /\
   0 < delta stripped /\ i <= e <= len lines - 1 /\
   (forall k, i < k <= e -> 0 < balance lines (delta stripped) (i + 1) k) /\
   (e + 1 < len lines -> balance lines (delta stripped) (i + 1) (e + 1) <= 0))
  \/
  (count stripped BACKTICK mod 2 <> 1 /\
   (endswith (rstrip stripped) [SEMI] = true \/
    endswith (rstrip stripped) [RPAREN] = true \/ delta stripped <= 0) /\
   e = i).
Proof.
  intros Hi Hf. unfold span_end. rewrite template_test. fold (delta stripped).
  destruct (Z.eqb_spec (count stripped BACKTICK mod 2) 1) as [Hodd|Hodd].
  { intros Hrun. left. split; [done|].
    destruct (template_scan_spec fuel lines (i + 1)) as (e' & Hrun' & He & Hno & Hat);
      [lia|done|].
    rewrite Hrun in Hrun'. injection Hrun' as <-.
    split; [lia|]. split; [|done]. intros k l Hk. apply Hno. lia. }
  intros Hrun. right.
  destruct (endswith (rstrip stripped) [SEMI]) eqn:Hsemi; simpl in Hrun.
  { injection Hrun as <-. right. split; [done|]. split; [by left|done]. }
  destruct (endswith (rstrip stripped) [RPAREN]) eqn:Hrp; simpl in Hrun.
  { injection Hrun as <-. right. split; [done|]. split; [right; by left|done]. }
  destruct (Z.ltb_spec 0 (delta stripped)) as [Hop|Hop].
  2:{ injection Hrun as <-. right. split; [done|].
      split; [right; by right|done]. }
  destruct (paren_scan_spec fuel lines (delta stripped) (i + 1))
    as (e' & Hrun' & He & Hpos & Hend); [lia|done|].
  rewrite Hrun' in Hrun. simpl in Hrun. injection Hrun as <-.
  left. split; [done|]. split; [done|]. split; [done|].
  split; [done|]. split; [lia|]. split.
  - intros k Hk. apply Hpos. lia.
  - intros Hlt. replace (e' - 1 + 1) with e' by lia. apply Hend. lia.
Qed.

(** ** Spans of a pass *)

Lemma span_cases input s e :
  (s, e) ∈ spans input ->
  exists line,
    0 <= s < len input /\ input !! Z.to_nat s = Some line /\
    is_console_statement (lstrip line) = true /\
    ((count (lstrip line) BACKTICK mod 2 = 1 /\ s + 1 <= e <= len input /\
      (forall k l, s < k < e -> input !! Z.to_nat k = Some l ->
         contains l BACKTICK = false) /\
      (e < len input ->
         exists l, input !! Z.to_nat e = Some l /\ contains l BACKTICK = true))
     \/
     (count (lstrip line) BACKTICK mod 2 <> 1 /\
      endswith (rstrip (lstrip line)) [SEMI] = false /\
      endswith (rstrip (lstrip line)) [RPAREN] = false /\
      0 < delta (lstrip line) /\ s <= e <= len input - 1 /\
      (forall k, s < k < e -> 0 < cumulative input s (lstrip line) k) /\
      (e + 1 < len input -> cumulative input s (lstrip line) e <= 0))
     \/
     (count (lstrip line) BACKTICK mod 2 <> 1 /\
      (endswith (rstrip (lstrip line)) [SEMI] = true \/
       endswith (rstrip (lstrip line)) [RPAREN] = true \/
       delta (lstrip line) <= 0) /\
      e = s)).
Proof.
  intros Hin.
  destruct (span_facts input s e Hin)
    as (line & out & m & Hs & Hl & Hm & Hend & _).
  exists line. split; [done|]. split; [done|]. split; [done|].
  destruct (span_end_cases (S (length input)) input s (lstrip line) e Hs
    ltac:(lia) Hend)
    as [H|[(Hodd & Hsemi & Hrp & Hop & He & Hpos & Hle)|H]];
    [by left| |by right; right].
  right; left. split; [done|]. split; [done|]. split; [done|]. split; [done|].
  split; [done|]. unfold cumulative. split.
  - intros k Hk. apply Hpos. lia.
  - done.
Qed.

Lemma cumulative_start lines s start : cumulative lines s start s = delta start.
Proof. apply balance_start. Qed.

Lemma comment_out_lines_length input out m :
  comment_out_lines input = Done (out, m) -> length out = length input.
Proof.
  intros Hrun.
  destruct (comment_out_lines_inv input) as (out' & i & m' & Hrun' & Hinv & _).
  rewrite Hrun in Hrun'. injection Hrun' as <- <-.
  by destruct Hinv as (_ & Hlen & _).
Qed.

(** The lines after the start line of a span that runs to the end of the
    file are all left as they were. *)
Lemma span_to_eof_frame input s e out m :
  (s, e) ∈ spans input -> len input - 1 <= e ->
  comment_out_lines input = Done (out, m) ->
  forall k, s < k -> out !! Z.to_nat k = input !! Z.to_nat k.
Proof.
  intros Hin He Hrun k Hk.
  destruct (span_facts input s e Hin)
    as (line & out' & m' & Hs & _ & _ & _ & _ & Hrun' & _ & Hfr).
  rewrite Hrun in Hrun'. injection Hrun' as <- <-.
  destruct (Z.lt_ge_cases k (len input)) as [Hlt|Hge].
  - apply Hfr. lia.
  - pose proof (comment_out_lines_length _ _ _ Hrun) as Hlen.
    unfold len in *. rewrite !lookup_ge_None_2; [done|lia|lia].
Qed.

(** ** Fuel *)

Lemma while_loop_mono {S} (cond : S -> bool) body fuel fuel' s r :
  while_loop fuel cond body s = Done r -> (fuel <= fuel')%nat ->
  while_loop fuel' cond body s = Done r.
Proof.
  revert fuel' s. induction fuel as [|fuel IH]; intros fuel' s Hrun Hle; [done|].
  destruct fuel' as [|fuel']; [lia|]. simpl in *.
  destruct (cond s); [|done].
  destruct (body s) as [[s'|s']| |]; try done. apply IH; [done|lia].
Qed.

Lemma span_end_fuel fuel lines i stripped :
  0 <= i < len lines -> (length lines < fuel)%nat ->
  span_end fuel lines i stripped = span_end (S (length lines)) lines i stripped.
Proof.
  intros Hi Hf. unfold span_end.
  destruct (contains stripped BACKTICK && _).
  { destruct (template_scan_spec (S (length lines)) lines (i + 1))
      as (e & Hrun & _); [lia|lia|].
    rewrite Hrun. unfold template_scan in *.
    apply (while_loop_mono _ _ _ _ _ _ Hrun). lia. }
  destruct (negb _ && negb _); [|done].
  destruct (0 <? _); [|done].
  destruct (paren_scan_spec (S (length lines)) lines
    (count stripped LPAREN - count stripped RPAREN) (i + 1))
    as (e & Hrun & _); [lia|lia|].
  rewrite Hrun. unfold paren_scan in *.
  by rewrite (while_loop_mono _ _ _ fuel _ _ Hrun) by lia.
Qed.

Lemma iteration_fuel fuel lines i m :
  0 <= i < len lines -> (length lines < fuel)%nat ->
  iteration fuel (lines, i, m) = iteration (S (length lines)) (lines, i, m).
Proof.
  intros Hi Hf. unfold iteration.
  destruct (getitem lines i) as [line| |]; simpl; try done.
  destruct (is_console_statement (lstrip line)); [|done].
  rewrite !setitem_Done by done. simpl.
  rewrite span_end_fuel; [|by rewrite len_insert|by rewrite length_insert].
  by rewrite length_insert.
Qed.

(** A pass gives the same result with any fuel above the number of lines. *)
Lemma scan_lines_fuel fuel lines :
  (length lines < fuel)%nat -> scan_lines fuel lines = comment_out_lines lines.
Proof.
  intros Hf. unfold comment_out_lines, scan_lines.
  destruct (main_loop_from lines (S (length lines)) (lines, 0, false))
    as (out & i & m & Hrun & _);
    [apply visited_start_sub|apply main_inv_start|
     unfold main_measure, len; simpl; lia|].
  rewrite (while_loop_ext main_cond main_cond (iteration fuel)
    (iteration (S (length lines)))
    (fun st => 0 <= st.1.2 /\ length st.1.1 = length lines)).
  - unfold state in *. rewrite Hrun.
    by rewrite (while_loop_mono _ _ _ fuel _ _ Hrun) by lia.
  - done.
  - intros [[ls i'] m'] [Hi Hlen] Hc. simpl in Hi, Hlen, Hc.
    apply Z.ltb_lt in Hc. unfold len in Hc.
    rewrite iteration_fuel; [by rewrite Hlen|unfold len; lia|lia].
  - intros [[ls i'] m'] st' [Hi Hlen] Hc Hit. simpl in Hi, Hlen, Hc.
    apply Z.ltb_lt in Hc. unfold len in Hc.
    destruct (iteration_spec fuel ls i' m') as (line & Hl & Hcase);
      [unfold len; lia|lia|].
    destruct Hcase as [(_ & _ & Hit')|(_ & e & He & _ & _ & Hit')];
      rewrite Hit in Hit'; injection Hit' as ->; simpl.
    + split; [lia|done].
    + split; [lia|]. by rewrite length_insert.
  - simpl. split; [lia|done].
Qed.

Lemma visited_inv input st :
  st ∈ visited input -> main_inv input st /\ main_cond st = true.
Proof.
  intros Hst.
  destruct (while_trace_resume main_cond (iteration (S (length input)))
    (main_inv input) (fun _ => True) (fun x => x ∈ visited input)
    (main_measure input)) with (S (length input))
    (input, 0, false) st as (Hinv & Hc & _).
  { intros x Hx Hi Hcx. left.
    destruct (main_step input x Hx Hi Hcx) as (x' & ? & ? & ? & ?). eauto. }
  { apply visited_start_sub. }
  { apply main_inv_start. }
  { unfold main_measure, len. simpl. lia. }
  { done. }
  done.
Qed.

(** C10: a pass over any list of lines returns, and with any larger fuel
    it returns the same; every iteration of the main loop ends with a
    larger index; the parenthesis scan entered one past line [i] leaves the
    index, after the decrement, at [i] or beyond; the function on the text
    of a file returns. *)
Theorem comment_out_terminates (lines : list str) :
  (exists out m, comment_out_lines lines = Done (out, m) /\
     forall fuel, (length lines < fuel)%nat ->
       scan_lines fuel lines = Done (out, m)) /\
  (forall st, st ∈ visited lines ->
     exists st', iteration (S (length lines)) st = Done (Next st') /\
       st.1.2 < st'.1.2) /\
  (forall fuel open_parens i,
     0 <= i < len lines -> (length lines < fuel)%nat ->
     exists open_parens' i',
       paren_scan fuel lines (open_parens, i + 1) = Done (open_parens', i') /\
       i <= i' - 1) /\
  (forall content, readlines content = lines ->
     exists content' modified,
       comment_out_console_statements content = Done (content', modified)).
Proof.
  split; [|split; [|split]].
  - destruct (comment_out_lines_inv lines) as (out & i & m & Hrun & _).
    exists out, m. split; [done|]. intros fuel Hf. by rewrite scan_lines_fuel.
  - intros st Hst. destruct (visited_inv lines st Hst) as [Hinv Hc].
    destruct (main_step lines st Hst Hinv Hc) as (st' & Hit & _ & [Hadv _] & _).
    eauto.
  - intros fuel op i Hi Hf.
    destruct (paren_scan_spec fuel lines op (i + 1)) as (e & Hrun & He & _);
      [lia|done|].
    eexists _, e. split; [done|lia].
  - intros content <-.
    destruct (comment_out_lines_inv (readlines content))
      as (out & i & m & Hrun & _).
    unfold comment_out_console_statements. rewrite Hrun. simpl.
    destruct m; eauto.
Qed.

Lemma comment_out_terminates_witness :
  (exists st', iteration 3 (scenario_B, 0, false) = Done (Next st') /\
     0 < st'.1.2) /\
  (exists open_parens' i',
     paren_scan 3 scenario_B (1, 0 + 1) = Done (open_parens', i') /\
     0 <= i' - 1) /\
  (exists content' modified,
     comment_out_console_statements (concat scenario_B)
     = Done (content', modified)).
Proof.
  split; [|split].
  - apply (proj1 (proj2 (comment_out_terminates scenario_B))
             (scenario_B, 0, false)).
    vm_compute. left.
  - apply (proj1 (proj2 (proj2 (comment_out_terminates scenario_B))) 3%nat 1 0).
    + vm_compute. split; [discriminate|reflexivity].
    + vm_compute. lia.
  - apply (proj2 (proj2 (proj2 (comment_out_terminates scenario_B)))).
    reflexivity.
Defined.

(** ** The end of a span *)

(** C9 as stated fails: the template literal opened on the only line of
    [unclosed_template] is never closed, and the span of that line ends at
    index 1, one past the last line. *)
Lemma span_end_past_last_line :
  ~ (forall input s e, (s, e) ∈ spans input -> s <= e <= len input - 1).
Proof.
  intros H. specialize (H unclosed_template 0 1).
  assert (0 <= 1 <= len unclosed_template - 1) as [_ Hle];
    [apply H; vm_compute; left|].
  vm_compute in Hle. by apply Hle.
Qed.

(** C9, amended: a span starts on a matching line of the file and ends at
    or after it, at the last line at most, except that it ends one past the
    last line when the start line holds an odd number of backticks and no
    later line holds a backtick. *)
Theorem span_bounds (input : list str) (s e : Z) :
  (s, e) ∈ spans input ->
  exists line,
    input !! Z.to_nat s = Some line /\
    is_console_statement (lstrip line) = true /\
    0 <= s /\ s <= e /\
    (e <= len input - 1 \/
     e = len input /\ count (lstrip line) BACKTICK mod 2 = 1 /\
     forall k l, s < k < len input -> input !! Z.to_nat k = Some l ->
       contains l BACKTICK = false).
Proof.
  intros Hin. destruct (span_cases input s e Hin) as (line & Hs & Hl & Hm & Hcase).
  exists line. split; [done|]. split; [done|]. split; [lia|].
  destruct Hcase as [(Hodd & He & Hno & _)|[(_ & _ & _ & _ & He & _)|(_ & _ & ->)]];
    [|split; [lia|left; lia]|split; [lia|left; lia]].
  split; [lia|].
  destruct (Z.lt_ge_cases e (len input)); [left; lia|right].
  assert (e = len input) as -> by lia. done.
Qed.

Lemma span_bounds_witness :
  exists line,
    unclosed_template !! Z.to_nat 0 = Some line /\
    is_console_statement (lstrip line) = true /\
    0 <= 0 /\ 0 <= 1 /\
    (1 <= len unclosed_template - 1 \/
     1 = len unclosed_template /\ count (lstrip line) BACKTICK mod 2 = 1 /\
     forall k l, 0 < k < len unclosed_template ->
       unclosed_template !! Z.to_nat k = Some l -> contains l BACKTICK = false).
Proof. apply (span_bounds unclosed_template 0 1). vm_compute. left. Defined.

(** C8 as stated fails: on [unclosed_template] no closing backtick exists,
    and the span does not end at the last line (index 0) but at index 1. *)
Lemma unclosed_span_not_at_last_line :
  ~ (forall input s e line,
       (s, e) ∈ spans input -> input !! Z.to_nat s = Some line ->
       (count (lstrip line) BACKTICK mod 2 = 1 /\
        forall k l, s < k < len input -> input !! Z.to_nat k = Some l ->
          contains l BACKTICK = false)
       \/
       (count (lstrip line) BACKTICK mod 2 <> 1 /\
        endswith (rstrip (lstrip line)) [SEMI] = false /\
        endswith (rstrip (lstrip line)) [RPAREN] = false /\
        0 < delta (lstrip line) /\
        forall k, s < k < len input -> 0 < cumulative input s (lstrip line) k) ->
       e = len input - 1 /\
       exists out m, comment_out_lines input = Done (out, m)).
Proof.
  intros H.
  destruct (H unclosed_template 0 1 (lit "console.log(`a" ++ [NL])) as [He _].
  - vm_compute. left.
  - reflexivity.
  - left. split; [reflexivity|]. intros k l Hk.
    change (len unclosed_template) with 1 in Hk. lia.
  - vm_compute in He. discriminate.
Qed.

(** C8, amended: a pass returns on every input, without an error.  When no
    later line holds a backtick, the span of a start line with an odd
    number of backticks ends one past the last line; when no later line
    brings the parenthesis count to zero or below, the span of a start line
    under the parenthesis rule ends at the last line.  In both cases the
    start line is rewritten and every line after it is left as it was. *)
Theorem scan_to_end_of_file (input : list str) :
  exists out m, comment_out_lines input = Done (out, m) /\
  forall s e line,
    (s, e) ∈ spans input -> input !! Z.to_nat s = Some line ->
    ((count (lstrip line) BACKTICK mod 2 = 1 /\
      forall k l, s < k < len input -> input !! Z.to_nat k = Some l ->
        contains l BACKTICK = false) ->
     e = len input) /\
    ((count (lstrip line) BACKTICK mod 2 <> 1 /\
      endswith (rstrip (lstrip line)) [SEMI] = false /\
      endswith (rstrip (lstrip line)) [RPAREN] = false /\
      0 < delta (lstrip line) /\
      forall k, s < k < len input -> 0 < cumulative input s (lstrip line) k) ->
     e = len input - 1) /\
    (len input - 1 <= e ->
     out !! Z.to_nat s = Some (comment_out line) /\
     forall k, s < k -> out !! Z.to_nat k = input !! Z.to_nat k).
Proof.
  destruct (comment_out_lines_inv input) as (out & i & m & Hrun & _).
  exists out, m. split; [done|]. intros s e line Hin Hl.
  destruct (span_cases input s e Hin) as (line' & Hs & Hl' & Hm & Hcase).
  assert (line' = line) as -> by congruence.
  split; [|split].
  - intros [Hodd Hno].
    destruct Hcase as [(_ & He & _ & Hat)|[(Hodd' & _)|(Hodd' & _)]]; try done.
    destruct (Z.lt_ge_cases e (len input)) as [Hlt|]; [|lia].
    destruct (Hat Hlt) as (l & Hl'' & Hb). rewrite (Hno e l) in Hb; [done|lia|done].
  - intros (Hodd & Hsemi & Hrp & Hop & Hpos).
    destruct Hcase as [(Hodd' & _)|[(_ & _ & _ & _ & He & _ & Hle)|(_ & Hor & _)]];
      [done| |].
    + destruct (Z.lt_ge_cases (e + 1) (len input)) as [Hlt|]; [|lia].
      specialize (Hle Hlt). destruct (decide (s = e)) as [<-|Hne].
      * rewrite cumulative_start in Hle. lia.
      * specialize (Hpos e ltac:(lia)). lia.
    + destruct Hor as [?|[?|?]]; [congruence|congruence|lia].
  - intros He.
    destruct (span_facts input s e Hin)
      as (l2 & out' & m' & _ & Hl2 & _ & _ & _ & Hrun' & Hout & _).
    assert (l2 = line) as -> by congruence.
    rewrite Hrun in Hrun'. injection Hrun' as <- <-.
    split; [done|]. by eapply span_to_eof_frame.
Qed.

Lemma scan_to_end_of_file_witness :
  ((0, 1) ∈ spans unclosed_template /\ 1 = len unclosed_template) /\
  ((0, 1) ∈ spans unclosed_call /\ 1 = len unclosed_call - 1) /\
  exists out m, comment_out_lines unclosed_call = Done (out, m) /\
    out !! Z.to_nat 0 = Some (comment_out (lit "console.log(" ++ [NL])) /\
    forall k, 0 < k -> out !! Z.to_nat k = unclosed_call !! Z.to_nat k.
Proof.
  split; [|split]; try (split; [vm_compute; left|]).
  - destruct (scan_to_end_of_file unclosed_template) as (out & m & _ & H).
    apply (proj1 (H 0 1 (lit "console.log(`a" ++ [NL])
                    ltac:(vm_compute; left) eq_refl)).
    split; [reflexivity|]. intros k l Hk.
    change (len unclosed_template) with 1 in Hk. lia.
  - destruct (scan_to_end_of_file unclosed_call) as (out & m & _ & H).
    apply (proj1 (proj2 (H 0 1 (lit "console.log(" ++ [NL])
                    ltac:(vm_compute; left) eq_refl))).
    split; [vm_compute; discriminate|]. split; [reflexivity|].
    split; [reflexivity|]. split; [reflexivity|]. intros k Hk.
    change (len unclosed_call) with 2 in Hk.
    assert (k = 1) as -> by lia. reflexivity.
  - destruct (scan_to_end_of_file unclosed_call) as (out & m & Hrun & H).
    exists out, m. split; [exact Hrun|].
    apply (proj2 (proj2 (H 0 1 (lit "console.log(" ++ [NL])
                    ltac:(vm_compute; left) eq_refl))).
    change (len unclosed_call) with 2. lia.
Defined.

(** ** The template-literal rule *)

(** C3: when the start line of a span holds an odd number of backticks,
    the span ends at the first later line that holds a backtick; the pass
    rewrites the start line and leaves the lines after it, up to and
    including that closing line, as they were. *)
Theorem template_span (input : list str) (s e j : Z) (line : str) :
  (s, e) ∈ spans input -> input !! Z.to_nat s = Some line ->
  count (lstrip line) BACKTICK mod 2 = 1 ->
  s < j < len input ->
  (exists l, input !! Z.to_nat j = Some l /\ contains l BACKTICK = true) ->
  (forall k l, s < k < j -> input !! Z.to_nat k = Some l ->
     contains l BACKTICK = false) ->
  e = j /\
  exists out m, comment_out_lines input = Done (out, m) /\
    out !! Z.to_nat s = Some (comment_out line) /\
    forall k, s < k <= j -> out !! Z.to_nat k = input !! Z.to_nat k.
Proof.
  intros Hin Hl Hodd Hj (lj & Hlj & Hbj) Hno.
  destruct (span_cases input s e Hin) as (line' & Hs & Hl' & Hm & Hcase).
  assert (line' = line) as -> by congruence.
  destruct Hcase as [(_ & He & Hno' & Hat)|[(Hodd' & _)|(Hodd' & _)]]; try done.
  assert (e = j) as ->.
  { destruct (Z.lt_trichotomy e j) as [Hlt|[->|Hgt]]; [|done|].
    - destruct Hat as (l & Hl'' & Hb); [lia|].
      rewrite (Hno e l) in Hb; [done|lia|done].
    - rewrite (Hno' j lj) in Hbj; [done|lia|done]. }
  split; [done|].
  destruct (span_facts input s j Hin)
    as (l2 & out & m & _ & Hl2 & _ & _ & _ & Hrun & Hout & Hfr).
  assert (l2 = line) as -> by congruence.
  exists out, m. split; [done|]. split; [done|].
  intros k Hk. rewrite <- (Hfr (Z.to_nat k)) by lia. done.
Qed.

Lemma template_span_witness :
  1 = 1 /\
  exists out m, comment_out_lines scenario_C = Done (out, m) /\
    out !! Z.to_nat 0 = Some (comment_out (lit "console.log(`value: ${x}" ++ [NL])) /\
    forall k, 0 < k <= 1 -> out !! Z.to_nat k = scenario_C !! Z.to_nat k.
Proof.
  apply (template_span scenario_C 0 1 1 (lit "console.log(`value: ${x}" ++ [NL])).
  - vm_compute. left.
  - reflexivity.
  - reflexivity.
  - change (len scenario_C) with 2. lia.
  - eexists. split; reflexivity.
  - intros k l Hk. lia.
Defined.

(** ** The parenthesis rule *)

(** C4: when the start line of a span holds an even number of backticks,
    ends, once stripped on both sides, with neither [;] nor [)], and opens
    more parentheses than it closes, the span ends at the first later line
    at which the count carried from the start line is zero or below; the
    start line is rewritten and the lines after it, up to that line, are
    left as they were.  The two lines of Scenario B form one span, and only
    the first is rewritten. *)
Theorem paren_span :
  (forall (input : list str) (s e j : Z) (line : str),
     (s, e) ∈ spans input -> input !! Z.to_nat s = Some line ->
     count (lstrip line) BACKTICK mod 2 = 0 ->
     endswith (rstrip (lstrip line)) [SEMI] = false ->
     endswith (rstrip (lstrip line)) [RPAREN] = false ->
     0 < delta (lstrip line) ->
     s < j < len input ->
     cumulative input s (lstrip line) j <= 0 ->
     (forall k, s < k < j -> 0 < cumulative input s (lstrip line) k) ->
     e = j /\
     exists out m, comment_out_lines input = Done (out, m) /\
       out !! Z.to_nat s = Some (comment_out line) /\
       forall k, s < k <= j -> out !! Z.to_nat k = input !! Z.to_nat k) /\
  spans scenario_B = [(0, 1)] /\
  comment_out_lines scenario_B
  = Done ([lit "// console.error(" ++ [NL];
           lit "  " ++ [QUOTE] ++ lit "failure" ++ [QUOTE] ++ lit ", err);"
             ++ [NL]], true).
Proof.
  split; [|split; reflexivity].
  intros input s e j line Hin Hl Heven Hsemi Hrp Hop Hj Hcj Hpos.
  destruct (span_cases input s e Hin) as (line' & Hs & Hl' & Hm & Hcase).
  assert (line' = line) as -> by congruence.
  destruct Hcase as [(Hodd & _)|[(_ & _ & _ & _ & He & Hpos' & Hle)|(_ & Hor & _)]].
  { rewrite Heven in Hodd. done. }
  2:{ destruct Hor as [?|[?|?]]; [congruence|congruence|lia]. }
  assert (e = j) as ->.
  { destruct (Z.lt_trichotomy e j) as [Hlt|[->|Hgt]]; [|done|].
    - specialize (Hle ltac:(lia)). destruct (decide (s = e)) as [<-|Hne].
      + rewrite cumulative_start in Hle. lia.
      + specialize (Hpos e ltac:(lia)). lia.
    - specialize (Hpos' j ltac:(lia)). lia. }
  split; [done|].
  destruct (span_facts input s j Hin)
    as (l2 & out & m & _ & Hl2 & _ & _ & _ & Hrun & Hout & Hfr).
  assert (l2 = line) as -> by congruence.
  exists out, m. split; [done|]. split; [done|].
  intros k Hk. rewrite <- (Hfr (Z.to_nat k)) by lia. done.
Qed.

Lemma paren_span_witness :
  1 = 1 /\
  exists out m, comment_out_lines scenario_B = Done (out, m) /\
    out !! Z.to_nat 0 = Some (comment_out (lit "console.error(" ++ [NL])) /\
    forall k, 0 < k <= 1 -> out !! Z.to_nat k = scenario_B !! Z.to_nat k.
Proof.
  apply (proj1 paren_span scenario_B 0 1 1 (lit "console.error(" ++ [NL])).
  - vm_compute. left.
  - reflexivity.
  - reflexivity.
  - reflexivity.
  - reflexivity.
  - reflexivity.
  - change (len scenario_B) with 2. lia.
  - vm_compute. discriminate.
  - intros k Hk. lia.
Defined.

(** ** What is rewritten *)

Lemma statement_not_empty stripped :
  is_console_statement stripped = true -> stripped <> [].
Proof. by destruct stripped. Qed.

Lemma statement_not_comment stripped :
  is_console_statement stripped = true ->
  startswith stripped COMMENT_MARKER = false.
Proof.
  unfold is_console_statement. intros H.
  apply andb_true_iff in H as [H _]. apply andb_true_iff in H as [H _].
  apply startswith_inv in H as [rest ->]. reflexivity.
Qed.

Lemma comment_out_last line :
  lstrip line <> [] -> last (comment_out line) = last line.
Proof.
  intros Hne. destruct (indent_of_split line) as [Hsplit _].
  rewrite Hsplit at 2. unfold comment_out.
  rewrite !last_app. destruct (last (lstrip line)) eqn:Hlast; [done|].
  by apply last_None in Hlast.
Qed.

(** C5: of the lines of a span the pass rewrites the start line only.  The
    new start line is the leading whitespace of the old one, [//], one
    space and the stripped old line, so it ends as the old line ends; the
    lines after it up to the end of the span are left as they were.
    Scenario A. *)
Theorem start_line_rewritten :
  (forall (input : list str) (s e : Z),
     (s, e) ∈ spans input ->
     exists line out m,
       input !! Z.to_nat s = Some line /\
       comment_out_lines input = Done (out, m) /\
       out !! Z.to_nat s
       = Some (indent_of line ++ lit "// " ++ lstrip line) /\
       line = indent_of line ++ lstrip line /\
       Forall (fun c => isspace c = true) (indent_of line) /\
       last (indent_of line ++ lit "// " ++ lstrip line) = last line /\
       forall k, s < k <= e -> out !! Z.to_nat k = input !! Z.to_nat k) /\
  comment_out_lines scenario_A
  = Done ([lit "// console.log(" ++ [QUOTE] ++ lit "hello" ++ [QUOTE]
             ++ lit ");" ++ [NL]], true) /\
  comment_out_lines
    [lit "    console.log(" ++ [QUOTE] ++ lit "hello" ++ [QUOTE] ++ lit ");"]
  = Done ([lit "    // console.log(" ++ [QUOTE] ++ lit "hello" ++ [QUOTE]
             ++ lit ");"], true).
Proof.
  split; [|split; reflexivity].
  intros input s e Hin.
  destruct (span_facts input s e Hin)
    as (line & out & m & Hs & Hl & Hm & _ & _ & Hrun & Hout & Hfr).
  exists line, out, m. split; [done|]. split; [done|]. split; [done|].
  destruct (indent_of_split line) as [Hsplit Hsp].
  split; [done|]. split; [done|]. split.
  - apply comment_out_last. by apply statement_not_empty.
  - intros k Hk. rewrite <- (Hfr (Z.to_nat k)) by lia. done.
Qed.

Lemma start_line_rewritten_witness :
  exists line out m,
    scenario_B !! Z.to_nat 0 = Some line /\
    comment_out_lines scenario_B = Done (out, m) /\
    out !! Z.to_nat 0 = Some (indent_of line ++ lit "// " ++ lstrip line) /\
    line = indent_of line ++ lstrip line /\
    Forall (fun c => isspace c = true) (indent_of line) /\
    last (indent_of line ++ lit "// " ++ lstrip line) = last line /\
    forall k, 0 < k <= 1 -> out !! Z.to_nat k = scenario_B !! Z.to_nat k.
Proof.
  apply (proj1 start_line_rewritten scenario_B 0 1). vm_compute. left.
Defined.

(** C7: after a pass, a line that is not the start line of a span is as it
    was before; so is, in particular, every line whose stripped content
    begins with [//].  The number of lines does not change. *)
Theorem other_lines_untouched (input out : list str) (m : bool) :
  comment_out_lines input = Done (out, m) ->
  length out = length input /\
  (forall k : nat,
     (forall e, (Z.of_nat k, e) ∉ spans input) -> out !! k = input !! k) /\
  (forall (k : nat) line,
     input !! k = Some line -> startswith (lstrip line) COMMENT_MARKER = true ->
     out !! k = Some line).
Proof.
  intros Hrun.
  destruct (comment_out_lines_inv input)
    as (out' & i & m' & Hrun' & (_ & Hlen & _ & Hlt & _) & Hi).
  rewrite Hrun in Hrun'. injection Hrun' as <- <-.
  split; [done|].
  assert (forall k : nat,
    out !! k = input !! k \/
    exists e line, (Z.of_nat k, e) ∈ spans input /\ input !! k = Some line /\
      is_console_statement (lstrip line) = true) as Hall.
  { intros k. destruct (Z.lt_ge_cases (Z.of_nat k) (len input)) as [Hk|Hk].
    - destruct (Hlt k) as [?|(e & line & ? & ? & ? & _)]; [lia|by left|].
      right. by exists e, line.
    - left. unfold len in Hk. rewrite !lookup_ge_None_2; [done|lia|lia]. }
  split.
  - intros k Hk. destruct (Hall k) as [?|(e & _ & He & _)]; [done|].
    by apply Hk in He.
  - intros k line Hl Hc. destruct (Hall k) as [->|(e & line' & _ & Hl' & Hm)];
      [done|].
    assert (line' = line) as -> by congruence.
    apply statement_not_comment in Hm. congruence.
Qed.

Lemma other_lines_untouched_witness :
  length [lit "// console.log(`a"; lit "// console.warn(1);"]
  = length [lit "// console.log(`a"; lit "console.warn(1);"] /\
  [lit "// console.log(`a"; lit "// console.warn(1);"] !! 0%nat
  = [lit "// console.log(`a"; lit "console.warn(1);"] !! 0%nat /\
  [lit "// console.log(`a"; lit "// console.warn(1);"] !! 0%nat
  = Some (lit "// console.log(`a").
Proof.
  pose proof (other_lines_untouched
                [lit "// console.log(`a"; lit "console.warn(1);"]
                [lit "// console.log(`a"; lit "// console.warn(1);"] true
                eq_refl) as (Hlen & Hother & Hcommented).
  split; [exact Hlen|]. split.
  - apply Hother. intros e Hin.
    change (spans [lit "// console.log(`a"; lit "console.warn(1);"])
      with [(1, 1)] in Hin.
    apply list_elem_of_singleton in Hin. discriminate.
  - apply Hcommented; reflexivity.
Defined.

(** ** Which lines match *)

Lemma strip_prefix_startswith p s rest :
  strip_prefix p s = Some rest -> startswith s p = true.
Proof.
  revert s. induction p as [|a p IH]; intros s H; simpl in *; [done|].
  destruct s as [|b s]; [done|]. destruct (b =? a)%N; [|done]. simpl. eauto.
Qed.

Lemma statement_iff stripped :
  is_console_statement stripped = true <->
  exists method rest, method ∈ METHODS /\ stripped = CONSOLE ++ method ++ rest.
Proof.
  unfold is_console_statement. split.
  - intros H. apply andb_true_iff in H as [_ H].
    apply existsb_exists in H as (method & Hin & H).
    apply startswith_inv in H as [rest ->].
    exists method, rest. split; [by apply list_elem_of_In|by rewrite <- app_assoc].
  - intros (method & rest & Hin & ->).
    assert (startswith (CONSOLE ++ method ++ rest) CONSOLE = true) as ->
      by apply startswith_app.
    assert (startswith (CONSOLE ++ method ++ rest) COMMENTED_CONSOLE = false)
      as -> by reflexivity.
    cbn [andb negb]. apply existsb_exists. exists method.
    split; [by apply list_elem_of_In|]. rewrite app_assoc. apply startswith_app.
Qed.

(** C2 as stated fails: [console.logger.debug(x);] has no parenthesis after
    the method name, and the scanner takes it for a match. *)
Lemma match_without_parenthesis :
  ~ (forall line,
       is_console_statement (lstrip line) = spec_is_match (lstrip line)).
Proof.
  intros H. specialize (H (lit "  console.logger.debug(x);" ++ [NL])).
  vm_compute in H. discriminate.
Qed.

(** C2, amended: the scanner takes a line for a match exactly when its
    content after the leading whitespace begins with [console.] followed at
    once by one of [log], [error], [warn], [info]; whatever follows the
    method name, a parenthesis or not, is not looked at.  Such a line never
    begins with [//], and every line that matches in the words of the
    specification is a match.  The main loop rewrites the line at its index
    when it is a match and leaves it alone when it is not. *)
Theorem statement_test (line : str) :
  (is_console_statement (lstrip line) = true <->
   exists method rest,
     method ∈ [lit "log"; lit "error"; lit "warn"; lit "info"] /\
     lstrip line = lit "console." ++ method ++ rest) /\
  (is_console_statement (lstrip line) = true ->
   startswith (lstrip line) (lit "//") = false) /\
  (spec_is_match (lstrip line) = true ->
   is_console_statement (lstrip line) = true) /\
  (forall fuel lines i m,
     0 <= i < len lines -> (length lines < fuel)%nat ->
     lines !! Z.to_nat i = Some line ->
     exists lines' i' m',
       iteration fuel (lines, i, m) = Done (Next (lines', i', m')) /\
       lines' !! Z.to_nat i
       = Some (if is_console_statement (lstrip line) then comment_out line
               else line)).
Proof.
  split; [apply statement_iff|]. split; [apply statement_not_comment|]. split.
  - unfold spec_is_match. intros H. apply andb_true_iff in H as [H _].
    apply existsb_exists in H as (method & Hin & H).
    destruct (strip_prefix (CONSOLE ++ method) (lstrip line)) as [rest|] eqn:Hp;
      [|done].
    apply strip_prefix_startswith in Hp. apply startswith_inv in Hp as [r Hr].
    apply statement_iff. exists method, r.
    split; [by apply list_elem_of_In|by rewrite Hr, <- app_assoc].
  - intros fuel lines i m Hi Hf Hl.
    destruct (iteration_spec fuel lines i m Hi Hf) as (line' & Hl' & Hcase).
    assert (line' = line) as -> by congruence.
    destruct Hcase as [(-> & _ & ->)|(-> & e & _ & _ & _ & ->)].
    + by exists lines, (i + 1), m.
    + eexists _, _, _. split; [done|].
      apply list_lookup_insert_eq. by eapply lookup_lt_Some.
Qed.

Lemma statement_test_witness :
  (exists method rest,
     method ∈ [lit "log"; lit "error"; lit "warn"; lit "info"] /\
     lstrip (lit "  console.warn(1);") = lit "console." ++ method ++ rest) /\
  startswith (lstrip (lit "  console.warn(1);")) (lit "//") = false /\
  is_console_statement (lstrip (lit "  console.warn (1);")) = true /\
  exists lines' i' m',
    iteration 2 ([lit "  console.warn(1);"], 0, false)
    = Done (Next (lines', i', m')) /\
    lines' !! Z.to_nat 0
    = Some (if is_console_statement (lstrip (lit "  console.warn(1);"))
            then comment_out (lit "  console.warn(1);")
            else lit "  console.warn(1);").
Proof.
  split; [|split; [|split]].
  - apply (proj1 (proj1 (statement_test (lit "  console.warn(1);")))).
    reflexivity.
  - apply (proj1 (proj2 (statement_test (lit "  console.warn(1);")))).
    reflexivity.
  - apply (proj1 (proj2 (proj2 (statement_test (lit "  console.warn (1);"))))).
    reflexivity.
  - apply (proj2 (proj2 (proj2 (statement_test (lit "  console.warn(1);"))))
             2%nat [lit "  console.warn(1);"] 0 false).
    + change (len [lit "  console.warn(1);"]) with 1. lia.
    + simpl. lia.
    + reflexivity.
Defined.

(** ** A second pass *)

(** A pass over lines none of which matches changes nothing. *)
Lemma no_match_identity (ls : list str) :
  (forall (k : nat) l, ls !! k = Some l ->
     is_console_statement (lstrip l) = false) ->
  comment_out_lines ls = Done (ls, false) /\ spans ls = [].
Proof.
  intros Hno.
  assert (spans ls = []) as Hsp.
  { destruct (spans ls) as [|[s e] sp] eqn:Hsp; [done|].
    assert ((s, e) ∈ spans ls) as Hin by (rewrite Hsp; left).
    destruct (span_cases ls s e Hin) as (line & _ & Hl & Hm & _).
    rewrite (Hno _ _ Hl) in Hm. done. }
  split; [|done].
  destruct (comment_out_lines_inv ls)
    as (out & i & m & Hrun & (_ & _ & _ & _ & _ & Hmod & Hmod') & _).
  destruct m.
  - destruct Hmod' as (s & e & Hin); [done|]. rewrite Hsp in Hin.
    by apply elem_of_nil in Hin.
  - by rewrite Hmod in Hrun.
Qed.

(** C1 as stated fails: the first pass over [nested_call] skips the call on
    the second line, which lies inside the template literal of the first;
    the second pass finds it and rewrites it. *)
Lemma rerun_finds_skipped_call :
  ~ (forall input out m,
       comment_out_lines input = Done (out, m) ->
       comment_out_lines out = Done (out, false) /\ spans out = []).
Proof.
  intros H.
  destruct (H nested_call
    [lit "// console.log(`a" ++ [NL]; lit "console.log(1);" ++ [NL];
     lit "`);" ++ [NL]] true eq_refl) as [_ Hsp].
  vm_compute in Hsp. discriminate.
Qed.

(** C1, amended: a line rewritten by a pass is not a match for the next
    pass.  When no matching line lies on the continuation lines of a span,
    a second pass finds no match and changes nothing. *)
Theorem second_pass (input out : list str) (m : bool) :
  comment_out_lines input = Done (out, m) ->
  (forall s e, (s, e) ∈ spans input ->
     exists l, out !! Z.to_nat s = Some l /\
       is_console_statement (lstrip l) = false) /\
  ((forall s e k line,
      (s, e) ∈ spans input -> s < Z.of_nat k <= e -> input !! k = Some line ->
      is_console_statement (lstrip line) = false) ->
   comment_out_lines out = Done (out, false) /\ spans out = []).
Proof.
  intros Hrun. split.
  - intros s e Hin.
    destruct (span_facts input s e Hin)
      as (line & out' & m' & _ & _ & _ & _ & _ & Hrun' & Hout & _).
    rewrite Hrun in Hrun'. injection Hrun' as <- <-.
    exists (comment_out line). split; [done|apply commented_not_statement].
  - intros Hcont. apply no_match_identity. intros k l Hl.
    destruct (comment_out_lines_inv input)
      as (out' & i & m' & Hrun' & (_ & Hlen & _ & Hlt & Hcov & _) & Hi).
    rewrite Hrun in Hrun'. injection Hrun' as <- <-.
    assert (Z.of_nat k < i) as Hk.
    { apply lookup_lt_Some in Hl. unfold len in Hi. lia. }
    destruct (Hlt k Hk) as [Heq|(e & line & _ & _ & _ & Hout)].
    2:{ rewrite Hl in Hout. injection Hout as ->. apply commented_not_statement. }
    destruct (is_console_statement (lstrip l)) eqn:Hm; [|done].
    rewrite Hl in Heq. symmetry in Heq.
    destruct (Hcov k l Hk Heq Hm) as (s & e & Hin & Hse).
    destruct (decide (s = Z.of_nat k)) as [->|Hne].
    + destruct (span_facts input _ e Hin)
        as (line & out' & m'' & _ & Hline & _ & _ & _ & Hrun' & Hout & _).
      rewrite Hrun in Hrun'. injection Hrun' as <- <-.
      rewrite Nat2Z.id in *. rewrite Hl in Hout. injection Hout as Hout.
      rewrite Hout in Hm. by rewrite commented_not_statement in Hm.
    + rewrite (Hcont s e k l) in Hm; [done|done|lia|done].
Qed.

Lemma second_pass_witness :
  (exists l,
     [lit "// console.error(" ++ [NL];
      lit "  " ++ [QUOTE] ++ lit "failure" ++ [QUOTE] ++ lit ", err);" ++ [NL]]
       !! Z.to_nat 0 = Some l /\
     is_console_statement (lstrip l) = false) /\
  comment_out_lines
    [lit "// console.error(" ++ [NL];
     lit "  " ++ [QUOTE] ++ lit "failure" ++ [QUOTE] ++ lit ", err);" ++ [NL]]
  = Done
      ([lit "// console.error(" ++ [NL];
        lit "  " ++ [QUOTE] ++ lit "failure" ++ [QUOTE] ++ lit ", err);"
          ++ [NL]], false) /\
  spans
    [lit "// console.error(" ++ [NL];
     lit "  " ++ [QUOTE] ++ lit "failure" ++ [QUOTE] ++ lit ", err);" ++ [NL]]
  = [].
Proof.
  split.
  - apply (proj1 (second_pass scenario_B _ true eq_refl) 0 1).
    vm_compute. left.
  - apply (proj2 (second_pass scenario_B _ true eq_refl)).
    intros s e k line Hin Hk Hl.
    change (spans scenario_B) with [(0, 1)] in Hin.
    apply list_elem_of_singleton in Hin. injection Hin as -> ->.
    assert (k = 1%nat) as -> by lia. injection Hl as <-. reflexivity.
Defined.

(** ** The counter *)

Lemma startswith_app_split s p1 p2 :
  startswith s (p1 ++ p2)
  = startswith s p1 && startswith (drop (length p1) s) p2.
Proof.
  revert s. induction p1 as [|a p1 IH]; intros s; simpl; [done|].
  destruct s as [|b s]; [done|]. simpl. rewrite IH. by rewrite andb_assoc.
Qed.

Lemma startswith_drop s p : startswith s p = true -> s = p ++ drop (length p) s.
Proof.
  revert s. induction p as [|a p IH]; intros s H; simpl in *; [done|].
  destruct s as [|b s]; [done|]. apply andb_true_iff in H as [Hab H].
  apply N.eqb_eq in Hab as ->. simpl. f_equal. by apply IH.
Qed.

(** A literal holds no newline. *)
Ltac no_newline :=
  let H := fresh "H" in
  vm_compute; intros H;
  repeat (apply elem_of_cons in H as [H|H]; [discriminate|]);
  by apply elem_of_nil in H.

Lemma startswith_line_end (u tail p : str) :
  (NL ∉ p) -> line_end tail -> startswith (u ++ tail) p = startswith u p.
Proof.
  intros Hp Ht. revert u. induction p as [|a p IH]; intros u; simpl; [done|].
  apply not_elem_of_cons in Hp as [Ha Hp].
  destruct u as [|b u]; simpl.
  - destruct Ht as [->|[rest ->]]; [done|].
    destruct (N.eqb_spec NL a); [congruence|done].
  - by rewrite IH.
Qed.

Lemma call_at_line_end (u tail : str) :
  line_end tail -> call_at (u ++ tail) = call_at u.
Proof.
  intros Ht. unfold call_at, METHODS. cbn [existsb].
  rewrite !(startswith_line_end u tail); [done|..]; try done; no_newline.
Qed.

Lemma eat_spec (l : str) (p : option char) (s : str) :
  eat l (p, s)
  = if startswith s l then Some (last_prev p l, drop (length l) s) else None.
Proof.
  revert p s. induction l as [|a l IH]; intros p s; [done|].
  destruct s as [|b s]; [done|]. simpl.
  destruct (N.eqb_spec b a) as [->|]; [|done]. rewrite IH. simpl.
  destruct (startswith s l); [|done]. do 2 f_equal.
  unfold last_prev. destruct l as [|c l]; [done|].
  rewrite last_cons_cons. destruct (last (c :: l)) eqn:Hlast; [done|].
  by apply last_None in Hlast.
Qed.

Lemma call_at_split s :
  call_at s
  = startswith s CONSOLE
    && existsb (fun method => startswith (drop (length CONSOLE) s) method)
         METHODS.
Proof.
  unfold call_at, METHODS. cbn [existsb]. rewrite !startswith_app_split.
  destruct (startswith s CONSOLE); [done|]. by rewrite !andb_false_l.
Qed.

(** The call pattern at a position: it matches exactly when the text
    starts with a call, and the match ends after the method name. *)
Lemma rmatch_CALL (p : option char) (s : str) :
  (call_at s = false /\ rmatch CALL (p, s) Some = None)
  \/ (call_at s = true /\
      exists pre c,
        startswith s pre = true /\ pre <> [] /\ (NL ∉ pre) /\ c <> NL /\
        rmatch CALL (p, s) Some = Some (Some c, drop (length pre) s)).
Proof.
  rewrite call_at_split. unfold CALL. cbn [rmatch]. rewrite eat_spec.
  destruct (startswith s CONSOLE) eqn:Hc; [|by left].
  rewrite !eat_spec. unfold METHODS. cbn [existsb andb].
  assert (forall m, (NL ∉ m) -> m <> [] -> startswith (drop (length CONSOLE) s) m = true ->
    exists (pre : str) (c : char), startswith s pre = true /\ pre <> [] /\ (NL ∉ pre) /\ c <> NL /\
      Some (last_prev (last_prev p CONSOLE) m,
            drop (length m) (drop (length CONSOLE) s))
      = Some (Some c, drop (length pre) s)) as Hm.
  { intros m Hnl Hne Hs. exists (CONSOLE ++ m).
    destruct (last m) as [c|] eqn:Hlast; [|by apply last_None in Hlast].
    exists c. split; [by rewrite startswith_app_split, Hc|].
    split; [by destruct m|]. split.
    { intros [H|H]%elem_of_app; [|done]. vm_compute in H.
      repeat (apply elem_of_cons in H as [H|H]; [discriminate|]).
      by apply elem_of_nil in H. }
    split.
    { intros ->. apply Hnl. apply last_Some in Hlast as [m' ->].
      apply elem_of_app. right. left. }
    unfold last_prev at 1. rewrite Hlast, drop_drop, length_app.
    do 3 f_equal. }
  assert (forall m, In m METHODS -> (NL ∉ m) /\ m <> []) as Hmeth.
  { intros m Hin. unfold METHODS in Hin. simpl in Hin.
    destruct Hin as [<-|[<-|[<-|[<-|[]]]]]; (split; [|done]); no_newline. }
  destruct (startswith (drop (length CONSOLE) s) LOG) eqn:H1.
  { right. split; [done|]. apply Hm; [apply Hmeth; simpl; tauto..|done]. }
  destruct (startswith (drop (length CONSOLE) s) ERROR) eqn:H2.
  { right. split; [done|]. apply Hm; [apply Hmeth; simpl; tauto..|done]. }
  destruct (startswith (drop (length CONSOLE) s) WARN) eqn:H3.
  { right. split; [done|]. apply Hm; [apply Hmeth; simpl; tauto..|done]. }
  destruct (startswith (drop (length CONSOLE) s) INFO) eqn:H4.
  { right. split; [done|]. apply Hm; [apply Hmeth; simpl; tauto..|done]. }
  by left.
Qed.


Lemma kcall_ok (p : option char) (u tail : str) :
  line_end tail -> ok (rmatch CALL (p, u ++ tail) Some) = call_at u.
Proof.
  intros Ht. rewrite <- (call_at_line_end u tail Ht).
  destruct (rmatch_CALL p (u ++ tail)) as [[H1 H2]|(H1 & pre & c & _ & _ & _ & _ & H2)];
    by rewrite H1, H2.
Qed.

Lemma kcall_within (p : option char) (u tail : str) (q : pos) :
  line_end tail -> rmatch CALL (p, u ++ tail) Some = Some q -> within tail u q.
Proof.
  intros Ht Hq.
  destruct (rmatch_CALL p (u ++ tail))
    as [[_ H]|(_ & pre & c & Hs & Hne & Hnl & Hc & H)]; [congruence|].
  rewrite Hq in H. injection H as ->.
  rewrite startswith_line_end in Hs by done.
  exists pre, (drop (length pre) u), c.
  split; [by apply startswith_drop|]. split; [done|]. split; [done|].
  f_equal. apply drop_app_le. apply startswith_drop in Hs.
  rewrite Hs, length_app. lia.
Qed.

(** [.*] followed by [k]: a match exists exactly when [k] matches at some
    position of the line. *)
Lemma dotstar_ok (f : str -> bool) k (p : option char) (u tail : str) :
  (NL ∉ u) -> line_end tail ->
  (forall p' (u2 : str), (NL ∉ u2) -> ok (k (p', u2 ++ tail)) = f u2) ->
  ok (dotstar p (u ++ tail) k) = any_suffix f u.
Proof.
  intros Hu Ht Hk. revert p. induction u as [|c u IH]; intros p; simpl.
  - rewrite orb_false_r, <- (Hk p []) by done. simpl.
    by destruct Ht as [->|[rest ->]].
  - apply not_elem_of_cons in Hu as [Hc Hu].
    destruct (N.eqb_spec c NL) as [->|_]; [done|].
    rewrite <- (IH Hu (Some c)), <- (Hk p (c :: u)) by (by apply not_elem_of_cons).
    simpl. destruct (dotstar (Some c) (u ++ tail) k); simpl; [by rewrite orb_true_r|].
    by rewrite orb_false_r.
Qed.

Lemma within_cons (tail : str) (c : char) (u : str) (q : pos) : within tail u q -> within tail (c :: u) q.
Proof.
  intros (pre & t & c' & -> & Hne & Hc & ->).
  by exists (c :: pre), t, c'.
Qed.

Lemma dotstar_within k (p : option char) (u tail : str) (q : pos) :
  (NL ∉ u) -> line_end tail ->
  (forall p' (u2 : str) q', k (p', u2 ++ tail) = Some q' -> within tail u2 q') ->
  dotstar p (u ++ tail) k = Some q -> within tail u q.
Proof.
  intros Hu Ht Hk. revert p. induction u as [|c u IH]; intros p; simpl.
  - destruct Ht as [->|[rest ->]]; simpl; apply (Hk p []).
  - apply not_elem_of_cons in Hu as [Hc Hu].
    destruct (N.eqb_spec c NL) as [->|_]; [done|].
    destruct (dotstar (Some c) (u ++ tail) k) as [q'|] eqn:Hd.
    + intros [= <-]. apply within_cons. by eapply IH.
    + apply (Hk p (c :: u)).
Qed.

Lemma has_call_ok (p : option char) (u tail : str) :
  (NL ∉ u) -> line_end tail ->
  ok (dotstar p (u ++ tail) (fun q => rmatch CALL q Some)) = has_call u.
Proof.
  intros Hu Ht. apply dotstar_ok; [done|done|].
  intros p' u2 _. by apply kcall_ok.
Qed.

Lemma not_elem_of_drop {A} (x : A) n l : x ∉ l -> x ∉ drop n l.
Proof.
  intros Hl Hd. apply Hl. rewrite <- (take_drop n l). apply elem_of_app. by right.
Qed.

Lemma commented_call_ok (p : option char) (u tail : str) :
  (NL ∉ u) -> line_end tail ->
  ok (rmatch (Cat DotStar (Cat (Str COMMENT_MARKER) (Cat DotStar CALL)))
        (p, u ++ tail) Some)
  = commented_call u.
Proof.
  intros Hu Ht. cbn [rmatch fst snd]. apply dotstar_ok; [done|done|].
  intros p' u2 Hu2.
  rewrite eat_spec, startswith_line_end; [|no_newline|done].
  destruct (startswith u2 COMMENT_MARKER) eqn:Hs; [|done].
  cbn [fst snd andb]. rewrite drop_app_le.
  - apply has_call_ok; [by apply not_elem_of_drop|done].
  - apply startswith_drop in Hs. rewrite Hs, length_app. lia.
Qed.

(** The whole pattern away from the start of a line, and at it. *)
Lemma rmatch_PATTERN_mid (p : option char) (s : str) :
  at_bol p = false -> rmatch PATTERN (p, s) Some = None.
Proof. intros Hp. unfold PATTERN. cbn [rmatch fst]. by rewrite Hp. Qed.

Lemma rmatch_PATTERN_bol (p : option char) (u tail : str) :
  at_bol p = true -> (NL ∉ u) -> line_end tail ->
  (active_line u = false /\ rmatch PATTERN (p, u ++ tail) Some = None)
  \/ (active_line u = true /\
      exists q, rmatch PATTERN (p, u ++ tail) Some = Some q /\ within tail u q).
Proof.
  intros Hp Hu Ht. unfold active_line.
  rewrite <- (has_call_ok p u tail), <- (commented_call_ok p u tail) by done.
  unfold PATTERN. cbn [rmatch fst snd]. rewrite Hp.
  destruct (dotstar p (u ++ tail)
    (fun q' => match eat COMMENT_MARKER q' with
               | Some q'0 => dotstar q'0.1 q'0.2 (fun q'1 => rmatch CALL q'1 Some)
               | None => None
               end));
    simpl; [left; by rewrite andb_false_r|].
  destruct (dotstar p (u ++ tail) _) as [q|] eqn:Hd; simpl; [right|by left].
  split; [done|]. exists q. split; [done|].
  eapply dotstar_within; [done|done| |done].
  intros p' u2 q'. by apply kcall_within.
Qed.

(** ** Scanning the text for matches *)

Lemma findall_skip fuel r (p : option char) (c : char) (s : str) :
  rmatch r (p, c :: s) Some = None ->
  findall (S fuel) r (p, c :: s) = findall fuel r (Some c, s).
Proof. intros H. simpl. by rewrite H. Qed.

Lemma findall_end fuel r (p : option char) :
  rmatch r (p, []) Some = None -> findall (S fuel) r (p, []) = Done [].
Proof. intros H. simpl. by rewrite H. Qed.

Lemma findall_hit fuel r (p p' : option char) (pre t : str) :
  rmatch r (p, pre ++ t) Some = Some (p', t) -> pre <> [] ->
  findall (S fuel) r (p, pre ++ t)
  = ms ← findall fuel r (p', t); Done (pre :: ms).
Proof.
  intros H Hne. simpl. rewrite H. simpl.
  replace (length (pre ++ t) - length t)%nat with (length pre)
    by (rewrite length_app; lia).
  rewrite take_app_length. by destruct pre.
Qed.

(** Away from the start of a line nothing matches up to the next newline. *)
Lemma findall_walk fuel (p : option char) (u rest : str) :
  at_bol p = false -> (NL ∉ u) ->
  findall (length u + 1 + fuel) PATTERN (p, u ++ NL :: rest)
  = findall fuel PATTERN (Some NL, rest).
Proof.
  revert p. induction u as [|c u IH]; intros p Hp Hu.
  - apply findall_skip. by apply rmatch_PATTERN_mid.
  - apply not_elem_of_cons in Hu as [Hc Hu].
    change (length (c :: u) + 1 + fuel)%nat with (S (length u + 1 + fuel)).
    rewrite <- app_comm_cons, findall_skip by (by apply rmatch_PATTERN_mid).
    apply IH; [|done]. simpl. by apply N.eqb_neq.
Qed.

Lemma findall_walk_end fuel (p : option char) (u : str) :
  at_bol p = false -> (NL ∉ u) ->
  findall (S (length u + fuel)) PATTERN (p, u) = Done [].
Proof.
  revert p. induction u as [|c u IH]; intros p Hp Hu.
  - apply findall_end. by apply rmatch_PATTERN_mid.
  - apply not_elem_of_cons in Hu as [Hc Hu].
    rewrite findall_skip by (by apply rmatch_PATTERN_mid).
    apply IH; [|done]. simpl. by apply N.eqb_neq.
Qed.

Lemma any_suffix_nl f (u : str) :
  (forall t : str, f (t ++ [NL]) = f t) -> f [NL] = false ->
  any_suffix f (u ++ [NL]) = any_suffix f u.
Proof.
  intros Hf Hnl. induction u as [|c u IH]; simpl.
  - by rewrite Hnl.
  - by rewrite IH, <- (Hf (c :: u)).
Qed.

Lemma has_call_nl (u : str) : has_call (u ++ [NL]) = has_call u.
Proof.
  apply any_suffix_nl; [|done].
  intros t. apply call_at_line_end. right. by exists [].
Qed.

Lemma commented_call_nl (u : str) : commented_call (u ++ [NL]) = commented_call u.
Proof.
  apply any_suffix_nl; [|done].
  intros t. rewrite startswith_line_end; [|no_newline|right; by exists []].
  destruct (startswith t COMMENT_MARKER) eqn:Hs; [|done]. simpl.
  rewrite drop_app_le; [apply has_call_nl|].
  apply startswith_drop in Hs. rewrite Hs, length_app. simpl. lia.
Qed.

Lemma active_line_nl (u : str) : active_line (u ++ [NL]) = active_line u.
Proof. unfold active_line. by rewrite has_call_nl, commented_call_nl. Qed.

(** The matches in a text cut into lines: one for each active line. *)
Lemma findall_lines (ls : list str) :
  lines_shaped ls ->
  forall p fuel, at_bol p = true -> (length (concat ls) < fuel)%nat ->
  exists ms, findall fuel PATTERN (p, concat ls) = Done ms /\
    length ms = length (List.filter active_line ls).
Proof.
  induction 1 as [|u Hu Hne|u ls Hu Hls IH]; intros p fuel Hp Hf.
  - destruct fuel as [|fuel]; [simpl in Hf; lia|].
    exists []. split; [|done]. apply findall_end.
    by destruct (rmatch_PATTERN_bol p [] [] Hp) as [[_ H]|[H _]];
      [apply not_elem_of_nil|by left|..].
  - simpl in *. rewrite app_nil_r in *.
    destruct fuel as [|fuel]; [lia|].
    destruct (rmatch_PATTERN_bol p u [] Hp Hu) as [[Ha H]|(Ha & q & H & Hq)];
      [by left| |]; rewrite app_nil_r in H; rewrite Ha.
    + exists []. split; [|done]. destruct u as [|c u]; [done|].
      apply not_elem_of_cons in Hu as [Hc Hu].
      rewrite findall_skip by done.
      replace fuel with (S (length u + (fuel - S (length u))))
        by (simpl in Hf; lia).
      apply findall_walk_end; [simpl; by apply N.eqb_neq|done].
    + destruct Hq as (pre & t & c & -> & Hpre & Hc & ->).
      rewrite app_nil_r in H. exists [pre]. split; [|done].
      rewrite (findall_hit _ _ _ _ _ _ H Hpre).
      replace fuel with (S (length t + (fuel - S (length t))))
        by (rewrite length_app in Hf; destruct pre; simpl in *; [done|lia]).
      rewrite findall_walk_end; [done|simpl; by apply N.eqb_neq|].
      intros Hin. apply Hu. apply elem_of_app. by right.
  - simpl in *. rewrite <- app_assoc in *. simpl in *.
    rewrite active_line_nl. rewrite !length_app in Hf. simpl in Hf.
    destruct fuel as [|fuel]; [lia|].
    destruct (rmatch_PATTERN_bol p u (NL :: concat ls) Hp Hu)
      as [[Ha H]|(Ha & q & H & Hq)]; [right; by eexists| |]; rewrite Ha.
    + destruct u as [|c u].
      * rewrite app_nil_l in *. rewrite findall_skip by done.
        apply IH; [done|simpl in Hf; lia].
      * apply not_elem_of_cons in Hu as [Hc Hu]. simpl in Hf.
        rewrite <- app_comm_cons, findall_skip by done.
        replace fuel with (length u + 1 + (fuel - length u - 1))%nat by lia.
        rewrite findall_walk; [|simpl; by apply N.eqb_neq|done].
        apply IH; [done|lia].
    + destruct Hq as (pre & t & c & -> & Hpre & Hc & ->).
      rewrite <- app_assoc in *. rewrite length_app in Hf.
      rewrite (findall_hit _ _ _ _ _ _ H Hpre).
      replace fuel with (length t + 1 + (fuel - length t - 1))%nat
        by (destruct pre; simpl in *; [done|lia]).
      rewrite findall_walk; [|simpl; by apply N.eqb_neq|].
      2:{ intros Hin. apply Hu. apply elem_of_app. by right. }
      destruct (IH (Some NL) (fuel - length t - 1)%nat) as (ms & -> & Hms);
        [done|destruct pre; simpl in *; [done|lia]|].
      exists (pre :: ms). split; [done|]. simpl. by rewrite Hms.
Qed.

(** ** The text and its lines *)

Lemma concat_text_lines (content : str) : concat (text_lines content) = content.
Proof.
  induction content as [|c rest IH]; [done|]. simpl.
  destruct (c =? NL)%N; [simpl; by rewrite IH|].
  destruct (text_lines rest) as [|l ls]; simpl in *; by rewrite <- IH.
Qed.

Lemma text_lines_shaped (content : str) : lines_shaped (text_lines content).
Proof.
  induction content as [|c rest IH]; [constructor|]. simpl.
  destruct (N.eqb_spec c NL) as [->|Hc].
  { apply (shaped_cons []); [apply not_elem_of_nil|done]. }
  destruct (text_lines rest) as [|l ls].
  { apply shaped_last; [|done]. by apply not_elem_of_cons, conj, not_elem_of_nil. }
  inversion IH as [|u Hu Hne|u ls' Hu Hls]; subst.
  - apply shaped_last; [|done]. by apply not_elem_of_cons.
  - apply (shaped_cons (c :: u)); [by apply not_elem_of_cons|done].
Qed.

Lemma text_lines_line (u rest : str) :
  (NL ∉ u) -> text_lines (u ++ NL :: rest) = (u ++ [NL]) :: text_lines rest.
Proof.
  induction u as [|c u IH]; intros Hu; [done|].
  apply not_elem_of_cons in Hu as [Hc Hu]. simpl.
  destruct (N.eqb_spec c NL); [done|]. by rewrite IH.
Qed.

Lemma text_lines_last (u : str) : (NL ∉ u) -> u <> [] -> text_lines u = [u].
Proof.
  induction u as [|c u IH]; intros Hu Hne; [done|].
  apply not_elem_of_cons in Hu as [Hc Hu]. simpl.
  destruct (N.eqb_spec c NL); [done|].
  destruct u as [|c' u]; [done|]. by rewrite IH.
Qed.

Lemma text_lines_concat (ls : list str) :
  lines_shaped ls -> text_lines (concat ls) = ls.
Proof.
  induction 1 as [|u Hu Hne|u ls Hu Hls IH]; [done| |]; simpl.
  - rewrite app_nil_r. by apply text_lines_last.
  - rewrite <- app_assoc. simpl. by rewrite text_lines_line, IH.
Qed.

(** The matches in a text: its active lines. *)
Lemma count_matches_lines (content : str) :
  count_matches content
  = Done (Z.of_nat (length (List.filter active_line (text_lines content)))).
Proof.
  unfold count_matches.
  destruct (findall_lines (text_lines content) (text_lines_shaped content) None
    (S (length content))) as (ms & Hrun & Hlen);
    [done|rewrite concat_text_lines; lia|].
  rewrite concat_text_lines in Hrun. rewrite Hrun. simpl.
  unfold len. by rewrite Hlen.
Qed.


(** ** The text read from a file *)

Lemma translate_no_cr (after_cr : bool) (file : str) :
  CR ∉ translate after_cr file.
Proof.
  revert after_cr. induction file as [|c rest IH]; intros after_cr; simpl.
  - apply not_elem_of_nil.
  - destruct (after_cr && (c =? NL)%N); [apply IH|].
    destruct (N.eqb_spec c CR) as [->|Hc].
    + apply not_elem_of_cons. split; [done|apply IH].
    + apply not_elem_of_cons. split; [congruence|apply IH].
Qed.

Lemma read_no_cr (file : str) : CR ∉ read file.
Proof. apply translate_no_cr. Qed.

(** A text without carriage returns is read as it is. *)
Lemma read_id (content : str) : (CR ∉ content) -> read content = content.
Proof.
  unfold read. induction content as [|c rest IH]; intros H; [done|].
  apply not_elem_of_cons in H as [Hc H]. cbn [translate andb].
  destruct (N.eqb_spec c CR) as [->|_]; [done|]. by rewrite IH.
Qed.

Lemma readlines_shaped (file : str) : lines_shaped (readlines file).
Proof. apply text_lines_shaped. Qed.

Lemma concat_readlines (file : str) : concat (readlines file) = read file.
Proof. apply concat_text_lines. Qed.

Lemma readlines_concat (ls : list str) :
  lines_shaped ls -> (CR ∉ concat ls) -> readlines (concat ls) = ls.
Proof.
  intros Hsh Hcr. unfold readlines. rewrite read_id by done.
  by apply text_lines_concat.
Qed.

(** The lines of a pass hold no carriage return when the lines read hold
    none. *)
Lemma rewritten_no_cr (input out : list str) :
  Forall2 rewritten input out -> (CR ∉ concat input) -> CR ∉ concat out.
Proof.
  induction 1 as [|l l' input out Hr _ IH]; [done|]. simpl.
  rewrite !not_elem_of_app. intros [Hl Hin]. split; [|by apply IH].
  destruct Hr as [->|[_ ->]]; [done|].
  destruct (indent_of_split l) as [Hsplit _]. rewrite Hsplit in Hl.
  apply not_elem_of_app in Hl as [Hi Hs].
  unfold comment_out. rewrite !not_elem_of_app. split; [done|].
  split; [|done]. by apply (bool_decide_unpack (CR ∉ _)).
Qed.

(** The counter on a file: the number of active lines among its lines. *)
Lemma count_active_lines (file : str) :
  count_active_console_statements file
  = Done (Z.of_nat (length (List.filter active_line (readlines file)))).
Proof. apply count_matches_lines. Qed.

(** ** The counter after a pass *)

Lemma any_suffix_app f (pre t : str) :
  any_suffix f t = true -> any_suffix f (pre ++ t) = true.
Proof.
  intros Ht. induction pre as [|c pre IH]; [done|]. simpl.
  rewrite IH. apply orb_true_r.
Qed.

Lemma any_suffix_head f (t : str) : f t = true -> any_suffix f t = true.
Proof. intros H. destruct t; simpl; by rewrite H. Qed.

Lemma statement_call_at (stripped : str) :
  is_console_statement stripped = true -> call_at stripped = true.
Proof. unfold is_console_statement. by intros [_ H]%andb_true_iff. Qed.

(** A rewritten line is not counted. *)
Lemma comment_out_inactive (line : str) :
  is_console_statement (lstrip line) = true ->
  active_line (comment_out line) = false.
Proof.
  intros Hm. unfold active_line.
  assert (commented_call (comment_out line) = true) as ->;
    [|apply andb_false_r].
  unfold commented_call, comment_out. apply any_suffix_app, any_suffix_head.
  change (has_call (32%N :: lstrip line) = true).
  apply (any_suffix_app _ [32%N]), any_suffix_head.
  by apply statement_call_at.
Qed.

Lemma comment_out_shaped_last (u : str) :
  (NL ∉ u) -> NL ∉ comment_out u.
Proof.
  intros Hu. destruct (indent_of_split u) as [Hsplit _]. rewrite Hsplit in Hu.
  unfold comment_out. intros [H|[H|H]%elem_of_app]%elem_of_app.
  - apply Hu, elem_of_app. by left.
  - vm_compute in H.
    repeat (apply elem_of_cons in H as [H|H]; [discriminate|]).
    by apply elem_of_nil in H.
  - apply Hu, elem_of_app. by right.
Qed.

Lemma lstrip_app_nonempty (u v : str) :
  lstrip u <> [] -> lstrip (u ++ v) = lstrip u ++ v.
Proof.
  induction u as [|a u IH]; intros Hne; [done|]. simpl in *.
  destruct (isspace a); [by apply IH|done].
Qed.

Lemma lstrip_length (u : str) : (length (lstrip u) <= length u)%nat.
Proof.
  destruct (lstrip_split u) as (pre & Hu & _).
  rewrite Hu at 2. rewrite length_app. lia.
Qed.

Lemma comment_out_terminated (u : str) :
  lstrip (u ++ [NL]) <> [] ->
  comment_out (u ++ [NL]) = comment_out u ++ [NL].
Proof.
  intros Hne.
  assert (lstrip u <> []) as Hne'.
  { intros Hs. destruct (lstrip_split u) as (pre & Hu & Hpre).
    rewrite Hs, app_nil_r in Hu. subst pre. apply Hne.
    rewrite lstrip_spaces by done. reflexivity. }
  unfold comment_out, indent_of, slice_to, len.
  rewrite lstrip_app_nonempty by done. rewrite !length_app. simpl.
  replace (Z.to_nat (Z.of_nat (length u + 1)
                     - Z.of_nat (length (lstrip u) + 1)))
    with (Z.to_nat (Z.of_nat (length u) - Z.of_nat (length (lstrip u))))
    by lia.
  rewrite take_app_le by (pose proof (lstrip_length u); lia).
  by rewrite <- !app_assoc.
Qed.

(** A pass keeps the shape of the lines. *)
Lemma rewritten_shaped (input out : list str) :
  lines_shaped input -> Forall2 rewritten input out -> lines_shaped out.
Proof.
  intros Hin. revert out.
  induction Hin as [|u Hu Hne|u ls Hu Hls IH]; intros out Hout.
  - apply Forall2_nil_inv_l in Hout as ->. constructor.
  - apply Forall2_cons_inv_l in Hout as (l' & out' & Hr & Hout & ->).
    apply Forall2_nil_inv_l in Hout as ->.
    destruct Hr as [->|[Hm ->]]; [by constructor|].
    constructor; [by apply comment_out_shaped_last|].
    unfold comment_out. intros H. apply app_eq_nil in H as [_ H]. done.
  - apply Forall2_cons_inv_l in Hout as (l' & out' & Hr & Hout & ->).
    destruct Hr as [->|[Hm ->]]; [constructor; auto|].
    rewrite comment_out_terminated by (by apply statement_not_empty).
    constructor; [by apply comment_out_shaped_last|auto].
Qed.

Lemma rewritten_count (input out : list str) :
  Forall2 rewritten input out ->
  (length (List.filter active_line out)
   <= length (List.filter active_line input))%nat.
Proof.
  induction 1 as [|l l' input out Hr _ IH]; [done|]. simpl.
  destruct Hr as [->|[Hm ->]].
  - destruct (active_line l); simpl; lia.
  - rewrite comment_out_inactive by done. destruct (active_line l); simpl; lia.
Qed.

Lemma pass_rewritten (input out : list str) (m : bool) :
  comment_out_lines input = Done (out, m) -> Forall2 rewritten input out.
Proof.
  intros Hrun.
  destruct (comment_out_lines_inv input)
    as (out' & i & m' & Hrun' & (_ & Hlen & _ & Hlt & _) & Hi).
  rewrite Hrun in Hrun'. injection Hrun' as <- <-.
  apply Forall2_same_length_lookup_2; [done|].
  intros k x y Hx Hy.
  destruct (Hlt k) as [Heq|(e & line & _ & Hl & Hm & Hout)].
  { apply lookup_lt_Some in Hx. unfold len in Hi. lia. }
  - left. congruence.
  - right. split; congruence.
Qed.

(** C6 as stated fails: on the one-line text [if (x) console.log(x);] the
    counter gives 1, although the stripped line does not begin with a call;
    the pass leaves the text as it is, and the counter still gives 1. *)
Lemma inner_call_is_counted :
  ~ (forall content,
       count_active_console_statements content
       = Done (Z.of_nat (length
           (List.filter (fun l => is_console_statement (lstrip l))
              (readlines content)))))
  /\ ~ (forall content content' b,
          comment_out_console_statements content = Done (content', b) ->
          count_active_console_statements content' = Done 0).
Proof.
  split; intros H.
  - specialize (H (lit "if (x) console.log(x);" ++ [NL])).
    vm_compute in H. discriminate.
  - specialize (H (lit "if (x) console.log(x);" ++ [NL])
                  (lit "if (x) console.log(x);" ++ [NL]) false eq_refl).
    vm_compute in H. discriminate.
Qed.

(** C6, amended: the counter gives the number of lines of the text that
    hold a call anywhere, not only at the start of the stripped line, and
    hold no [//] before a call.  A line rewritten by the pass is not
    counted.  On the text the pass leaves, the counter gives the number of
    active lines among the lines of the pass, which is the count before at
    most; every line still counted is a line of the input that starts no
    span. *)
Theorem counter_counts (content : str) :
  count_active_console_statements content
  = Done (Z.of_nat (length (List.filter active_line (readlines content)))) /\
  (forall line, is_console_statement (lstrip line) = true ->
     active_line (comment_out line) = false) /\
  exists content' b out,
    comment_out_console_statements content = Done (content', b) /\
    comment_out_lines (readlines content) = Done (out, b) /\
    readlines content' = out /\
    count_active_console_statements content'
    = Done (Z.of_nat (length (List.filter active_line out))) /\
    (length (List.filter active_line out)
     <= length (List.filter active_line (readlines content)))%nat /\
    forall (k : nat) l, out !! k = Some l -> active_line l = true ->
      readlines content !! k = Some l /\
      forall e, (Z.of_nat k, e) ∉ spans (readlines content).
Proof.
  split; [apply count_active_lines|]. split; [apply comment_out_inactive|].
  destruct (comment_out_lines_inv (readlines content))
    as (out & i & m & Hrun & (_ & _ & _ & _ & _ & Hmod & _) & _).
  pose proof (pass_rewritten _ _ _ Hrun) as Hrw.
  pose proof (rewritten_shaped _ _ (readlines_shaped content) Hrw) as Hsh.
  exists (if m then writelines out else content), m, out.
  assert (readlines (if m then writelines out else content) = out) as Hread.
  { destruct m; [|by rewrite Hmod].
    apply readlines_concat; [done|]. apply (rewritten_no_cr _ _ Hrw).
    rewrite concat_readlines. apply read_no_cr. }
  split; [|split; [done|split; [done|split; [|split]]]].
  - unfold comment_out_console_statements. rewrite Hrun. simpl. by destruct m.
  - by rewrite count_active_lines, Hread.
  - by apply rewritten_count.
  - intros k l Hl Ha.
    destruct (Forall2_lookup_r _ _ _ _ _ Hrw Hl) as (x & Hx & [->|[Hm ->]]).
    2:{ by rewrite comment_out_inactive in Ha. }
    split; [done|]. intros e Hin.
    destruct (span_facts _ _ _ Hin)
      as (line & out' & m' & _ & _ & Hm & _ & _ & Hrun' & Hout & _).
    rewrite Hrun in Hrun'. injection Hrun' as <- <-.
    rewrite Nat2Z.id, Hl in Hout. injection Hout as ->.
    by rewrite comment_out_inactive in Ha.
Qed.

Lemma counter_counts_witness :
  active_line (comment_out (lit "  console.warn(1);" ++ [NL])) = false /\
  (readlines (lit "if (x) console.log(x);" ++ [NL]) !! 0%nat
   = Some (lit "if (x) console.log(x);" ++ [NL]) /\
   forall e,
     (Z.of_nat 0, e) ∉ spans (readlines (lit "if (x) console.log(x);" ++ [NL]))).
Proof.
  split.
  - apply (proj1 (proj2 (counter_counts []))). reflexivity.
  - destruct (proj2 (proj2 (counter_counts (lit "if (x) console.log(x);" ++ [NL]))))
      as (content' & b & out & _ & Hrun & _ & _ & _ & H).
    apply H; [|reflexivity].
    vm_compute in Hrun. injection Hrun as <- _. reflexivity.
Defined.

(** * Further properties of the scanner *)

Lemma comment_out_length (line : str) :
  length (comment_out line) = (length line + 3)%nat.
Proof.
  destruct (indent_of_split line) as [Hsplit _].
  rewrite Hsplit at 2. unfold comment_out. rewrite !length_app. simpl. lia.
Qed.

Lemma comment_out_neq (line : str) : comment_out line <> line.
Proof.
  intros H. apply (f_equal length) in H. rewrite comment_out_length in H. lia.
Qed.

Lemma spans_apart (input : list str) (s1 e1 s2 e2 : Z) :
  (s1, e1) ∈ spans input -> (s2, e2) ∈ spans input -> s1 < s2 -> e1 < s2.
Proof.
  intros H1 H2 Hlt.
  destruct (Z.lt_ge_cases e1 s2) as [|Hge]; [done|exfalso].
  destruct (span_facts input s1 e1 H1)
    as (l1 & out & m & Hs1 & _ & _ & _ & _ & Hrun & _ & Hfr).
  destruct (span_facts input s2 e2 H2)
    as (l2 & out' & m' & Hs2 & Hl2 & _ & _ & _ & Hrun' & Hout & _).
  rewrite Hrun in Hrun'. injection Hrun' as <- <-.
  rewrite (Hfr (Z.to_nat s2)) in Hout by lia.
  rewrite Hl2 in Hout. injection Hout as Hout.
  by apply (comment_out_neq l2).
Qed.

Lemma spans_functional (input : list str) (s e1 e2 : Z) :
  (s, e1) ∈ spans input -> (s, e2) ∈ spans input -> e1 = e2.
Proof.
  intros H1 H2.
  destruct (span_facts input s e1 H1) as (l1 & _ & _ & _ & Hl1 & _ & He1 & _).
  destruct (span_facts input s e2 H2) as (l2 & _ & _ & _ & Hl2 & _ & He2 & _).
  assert (l2 = l1) as -> by congruence. congruence.
Qed.

(** The spans of a pass do not overlap: of two spans the later one starts
    after the earlier one ends, and a line starts one span at most. *)
Theorem spans_disjoint (input : list str) (s1 e1 s2 e2 : Z) :
  (s1, e1) ∈ spans input -> (s2, e2) ∈ spans input ->
  (s1 < s2 -> e1 < s2) /\ (s1 = s2 -> e1 = e2).
Proof.
  intros H1 H2. split.
  - by apply (spans_apart input s1 e1 s2 e2).
  - intros <-. by apply (spans_functional input s1 e1 e2).
Qed.

Lemma spans_disjoint_witness :
  (0 < 2 -> 1 < 2) /\ (0 = 2 -> 1 = 2).
Proof.
  apply (spans_disjoint
           (scenario_B ++ [lit "console.warn(1);" ++ [NL]]) 0 1 2 2).
  - vm_compute. left.
  - vm_compute. right. left.
Defined.

(** ** The single-line rule *)

Lemma covered_by_span (input : list str) (k : nat) (line : str) :
  input !! k = Some line -> is_console_statement (lstrip line) = true ->
  exists s e, (s, e) ∈ spans input /\ s <= Z.of_nat k <= e.
Proof.
  intros Hl Hm.
  destruct (comment_out_lines_inv input)
    as (out & i & m & _ & (_ & _ & _ & _ & Hcov & _) & Hi).
  apply (Hcov k line); [|done|done].
  apply lookup_lt_Some in Hl. unfold len in Hi. lia.
Qed.

(** Rule 3: a start line with an even number of backticks that ends, once
    stripped, with [;] or [)], or that does not open more parentheses than
    it closes, is a span of its own; the scan goes on with the next line,
    which starts a span when it matches. *)
Theorem single_line_span (input : list str) (s e : Z) (line : str) :
  (s, e) ∈ spans input -> input !! Z.to_nat s = Some line ->
  count (lstrip line) BACKTICK mod 2 = 0 ->
  endswith (rstrip (lstrip line)) [SEMI] = true \/
  endswith (rstrip (lstrip line)) [RPAREN] = true \/
  delta (lstrip line) <= 0 ->
  e = s /\
  forall next, input !! Z.to_nat (s + 1) = Some next ->
    is_console_statement (lstrip next) = true ->
    exists e', (s + 1, e') ∈ spans input.
Proof.
  intros Hin Hl Heven Hrule.
  destruct (span_cases input s e Hin) as (line' & Hs & Hl' & Hm & Hcase).
  assert (line' = line) as -> by congruence.
  assert (e = s) as ->.
  { destruct Hcase as [(Hodd & _)|[(_ & Hsemi & Hrp & Hop & _)|(_ & _ & ->)]];
      [rewrite Heven in Hodd; done| |done].
    destruct Hrule as [?|[?|?]]; [congruence|congruence|lia]. }
  split; [done|]. intros next Hnext Hm'.
  destruct (covered_by_span input (Z.to_nat (s + 1)) next Hnext Hm')
    as (s' & e' & Hin' & Hse).
  destruct (Z.lt_trichotomy s' s) as [Hlt|[->|Hgt]].
  - pose proof (spans_apart _ _ _ _ _ Hin' Hin Hlt). lia.
  - pose proof (spans_functional _ _ _ _ Hin' Hin). lia.
  - assert (s' = s + 1) as -> by lia. by exists e'.
Qed.

Lemma single_line_span_witness :
  0 = 0 /\
  forall next,
    [lit "console.log(a, (b)" ++ [NL]; lit "console.warn(c));" ++ [NL]]
      !! Z.to_nat (0 + 1) = Some next ->
    is_console_statement (lstrip next) = true ->
    exists e',
      (0 + 1, e')
      ∈ spans [lit "console.log(a, (b)" ++ [NL];
               lit "console.warn(c));" ++ [NL]].
Proof.
  apply (single_line_span
           [lit "console.log(a, (b)" ++ [NL]; lit "console.warn(c));" ++ [NL]]
           0 0 (lit "console.log(a, (b)" ++ [NL])).
  - vm_compute. left.
  - reflexivity.
  - reflexivity.
  - right. left. reflexivity.
Defined.

(** ** The test of a line *)

(** The test of a stripped line comes to: it starts with [console.] and
    one of the four method names.  The tests [startswith('console.')] and
    [not startswith('// console.')] never change the outcome; nor does
    the test for a backtick before the backticks are counted. *)
Theorem guards_redundant (stripped : str) :
  is_console_statement stripped = call_at stripped /\
  (contains stripped BACKTICK && (count stripped BACKTICK mod 2 =? 1)
   = (count stripped BACKTICK mod 2 =? 1)).
Proof.
  split; [|apply template_test].
  destruct (call_at stripped) eqn:Hc.
  - unfold call_at in Hc. apply existsb_exists in Hc as (method & Hin & Hs).
    apply statement_iff. apply startswith_inv in Hs as [rest ->].
    exists method, rest. split; [by apply list_elem_of_In|by rewrite app_assoc].
  - destruct (is_console_statement stripped) eqn:Hm; [|done].
    apply statement_call_at in Hm. congruence.
Qed.

(** ** Progress of a pass, and repeated passes *)

Lemma pass_result_rewritten (input out : list str) (m : bool) (k : nat) (line : str) :
  comment_out_lines input = Done (out, m) ->
  input !! k = Some line ->
  out !! k = Some line \/
  is_console_statement (lstrip line) = true /\ out !! k = Some (comment_out line).
Proof.
  intros Hrun Hl.
  destruct (Forall2_lookup_l _ _ _ _ _ (pass_rewritten _ _ _ Hrun) Hl)
    as (y & Hy & [->|[Hm ->]]); auto.
Qed.

Lemma first_match_starts_span (input : list str) (k : nat) (line : str) :
  input !! k = Some line -> is_console_statement (lstrip line) = true ->
  (forall (j : nat) l, (j < k)%nat -> input !! j = Some l ->
     is_console_statement (lstrip l) = false) ->
  exists e, (Z.of_nat k, e) ∈ spans input.
Proof.
  intros Hl Hm Hfirst.
  destruct (covered_by_span input k line Hl Hm) as (s & e & Hin & Hse).
  destruct (span_cases input s e Hin) as (l & Hs & Hls & Hms & _).
  destruct (decide (s = Z.of_nat k)) as [->|Hne]; [by exists e|].
  rewrite (Hfirst (Z.to_nat s) l) in Hms; [done|lia|done].
Qed.

Lemma rewritten_match_le (input out : list str) :
  Forall2 rewritten input out -> (match_count out <= match_count input)%nat.
Proof.
  unfold match_count. induction 1 as [|l l' input out Hr _ IH]; [done|]. simpl.
  destruct Hr as [->|[Hm ->]].
  - destruct (is_console_statement (lstrip l)); simpl; lia.
  - rewrite commented_not_statement, Hm. simpl. lia.
Qed.

Lemma rewritten_match_lt (input out : list str) (k : nat) (line : str) :
  Forall2 rewritten input out ->
  input !! k = Some line -> is_console_statement (lstrip line) = true ->
  out !! k = Some (comment_out line) ->
  (match_count out < match_count input)%nat.
Proof.
  intros Hrw. revert k.
  induction Hrw as [|l l' input out Hr Hrw IH]; intros k Hl Hm Hout; [done|].
  destruct k as [|k]; simpl in Hl, Hout.
  - injection Hl as ->. injection Hout as ->.
    pose proof (rewritten_match_le _ _ Hrw) as Hle.
    unfold match_count in *. simpl.
    rewrite commented_not_statement, Hm. simpl. lia.
  - specialize (IH k Hl Hm Hout). unfold match_count in *. simpl.
    destruct Hr as [->|[Hm' ->]].
    + destruct (is_console_statement (lstrip l)); simpl; lia.
    + rewrite commented_not_statement, Hm'. simpl. lia.
Qed.

Lemma match_count_zero (lines : list str) :
  match_count lines = 0%nat <->
  forall (k : nat) l, lines !! k = Some l ->
    is_console_statement (lstrip l) = false.
Proof.
  unfold match_count. induction lines as [|l lines IH]; simpl.
  - split; [|done]. intros _ k l Hl. by rewrite lookup_nil in Hl.
  - destruct (is_console_statement (lstrip l)) eqn:Hm; simpl.
    + split; [done|]. intros H. by rewrite (H 0%nat l) in Hm.
    + rewrite IH. split.
      * intros H [|k] l' Hl'; simpl in Hl'; [by injection Hl' as <-|by eapply H].
      * intros H k l' Hl'. by apply (H (S k)).
Qed.

Lemma first_match_exists (lines : list str) :
  match_count lines <> 0%nat ->
  exists (k : nat) line,
    lines !! k = Some line /\ is_console_statement (lstrip line) = true /\
    forall (j : nat) l, (j < k)%nat -> lines !! j = Some l ->
      is_console_statement (lstrip l) = false.
Proof.
  unfold match_count. induction lines as [|l lines IH]; simpl; [done|].
  destruct (is_console_statement (lstrip l)) eqn:Hm; simpl.
  - intros _. exists 0%nat, l. split; [done|]. split; [done|]. intros; lia.
  - intros Hne. destruct (IH Hne) as (k & line & Hl & Hml & Hfirst).
    exists (S k), line. split; [done|]. split; [done|].
    intros [|j] l' Hj Hl'; simpl in Hl'; [by injection Hl' as <-|].
    apply (Hfirst j); [lia|done].
Qed.

Lemma pass_progress (input out : list str) (m : bool) :
  comment_out_lines input = Done (out, m) -> match_count input <> 0%nat ->
  (match_count out < match_count input)%nat.
Proof.
  intros Hrun Hne.
  destruct (first_match_exists input Hne) as (k & line & Hl & Hm & Hfirst).
  destruct (first_match_starts_span input k line Hl Hm Hfirst) as (e & Hin).
  destruct (span_facts input _ e Hin)
    as (l & out' & m' & _ & Hl' & _ & _ & _ & Hrun' & Hout & _).
  rewrite Hrun in Hrun'. injection Hrun' as <- <-. rewrite Nat2Z.id in *.
  assert (l = line) as -> by congruence.
  by apply (rewritten_match_lt input out k line);
    [apply (pass_rewritten _ _ m)|..].
Qed.

Lemma passes_reach_fixpoint (n : nat) (input : list str) :
  (match_count input <= n)%nat ->
  exists out, passes n input = Done out /\ match_count out = 0%nat /\
    length out = length input.
Proof.
  revert input. induction n as [|n IH]; intros input Hn.
  - exists input. split; [done|]. split; [lia|done].
  - destruct (comment_out_lines_inv input) as (out1 & i & m & Hrun & _).
    simpl. rewrite Hrun. simpl.
    destruct (decide (match_count input = 0%nat)) as [Hz|Hnz].
    + destruct (no_match_identity input) as [Hid _];
        [by apply match_count_zero|].
      rewrite Hrun in Hid. injection Hid as -> ->.
      apply IH. lia.
    + pose proof (pass_progress _ _ _ Hrun Hnz).
      destruct (IH out1) as (out & Hp & Hz & Hlen); [lia|].
      exists out. split; [done|]. split; [done|].
      by rewrite Hlen, (comment_out_lines_length _ _ _ Hrun).
Qed.

(** The first matching line of the input starts a span, so a pass over
    lines of which one matches rewrites a line and leaves fewer matching
    lines than it found. *)
Theorem pass_makes_progress (input out : list str) (m : bool) (k : nat) (line : str) :
  comment_out_lines input = Done (out, m) ->
  input !! k = Some line -> is_console_statement (lstrip line) = true ->
  (forall (j : nat) l, (j < k)%nat -> input !! j = Some l ->
     is_console_statement (lstrip l) = false) ->
  out !! k = Some (comment_out line) /\
  (match_count out < match_count input)%nat.
Proof.
  intros Hrun Hl Hm Hfirst.
  destruct (first_match_starts_span input k line Hl Hm Hfirst) as (e & Hin).
  destruct (span_facts input _ e Hin)
    as (l & out' & m' & _ & Hl' & _ & _ & _ & Hrun' & Hout & _).
  rewrite Hrun in Hrun'. injection Hrun' as <- <-. rewrite Nat2Z.id in *.
  assert (l = line) as -> by congruence.
  split; [done|]. apply (pass_progress input out m Hrun).
  intros Hz. rewrite match_count_zero in Hz. by rewrite (Hz k line) in Hm.
Qed.

Lemma pass_makes_progress_witness :
  [lit "// console.log(`a" ++ [NL]; lit "console.log(1);" ++ [NL];
   lit "`);" ++ [NL]] !! 0%nat
  = Some (comment_out (lit "console.log(`a" ++ [NL])) /\
  (match_count
     [lit "// console.log(`a" ++ [NL]; lit "console.log(1);" ++ [NL];
      lit "`);" ++ [NL]]
   < match_count nested_call)%nat.
Proof.
  apply (pass_makes_progress nested_call _ true 0 (lit "console.log(`a" ++ [NL])).
  - reflexivity.
  - reflexivity.
  - reflexivity.
  - intros j l Hj. lia.
Defined.

(** Passes repeated as many times as the input has matching lines end with
    no matching line left: one more pass changes nothing and reports no
    change.  The number of lines stays the same. *)
Theorem repeated_passes_converge (input : list str) :
  exists out,
    passes (match_count input) input = Done out /\
    length out = length input /\
    match_count out = 0%nat /\
    comment_out_lines out = Done (out, false).
Proof.
  destruct (passes_reach_fixpoint (match_count input) input) as (out & Hp & Hz & Hlen);
    [lia|].
  exists out. split; [done|]. split; [done|]. split; [done|].
  apply no_match_identity. by apply match_count_zero.
Qed.

Example passes_on_nested_call :
  passes (match_count nested_call) nested_call
  = Done [lit "// console.log(`a" ++ [NL]; lit "// console.log(1);" ++ [NL];
          lit "`);" ++ [NL]].
Proof. reflexivity. Qed.

(** ** The value returned and the file written *)

Lemma pass_modified (input out : list str) (m : bool) :
  comment_out_lines input = Done (out, m) ->
  (m = true <-> match_count input <> 0%nat) /\ (m = true <-> out <> input).
Proof.
  intros Hrun.
  destruct (comment_out_lines_inv input)
    as (out' & i & m' & Hrun' & (_ & _ & _ & _ & _ & Hmod & Hmod') & _).
  rewrite Hrun in Hrun'. injection Hrun' as <- <-.
  assert (match_count input <> 0%nat -> out <> input) as Hneq.
  { intros Hnz Heq. pose proof (pass_progress _ _ _ Hrun Hnz). subst. lia. }
  assert (m = true -> match_count input <> 0%nat) as Hnz.
  { intros Hm Hz. destruct (Hmod' Hm) as (s & e & Hin).
    destruct (span_cases input s e Hin) as (l & _ & Hl & Hml & _).
    rewrite match_count_zero in Hz. by rewrite (Hz _ _ Hl) in Hml. }
  assert (out <> input -> m = true) as Hm.
  { intros Hne. destruct m; [done|]. by destruct Hne; apply Hmod. }
  split; split; auto.
Qed.

Lemma rewritten_size (input out : list str) :
  Forall2 rewritten input out ->
  (length (concat out) + 3 * match_count out
   = length (concat input) + 3 * match_count input)%nat.
Proof.
  unfold match_count. induction 1 as [|l l' input out Hr _ IH]; [done|]. simpl.
  rewrite !length_app. destruct Hr as [->|[Hm ->]].
  - destruct (is_console_statement (lstrip l)); simpl; lia.
  - rewrite commented_not_statement, Hm, comment_out_length. simpl. lia.
Qed.

Lemma file_pass (content content' : str) (modified : bool) :
  comment_out_console_statements content = Done (content', modified) ->
  comment_out_lines (readlines content) = Done (readlines content', modified) /\
  lines_shaped (readlines content') /\
  (if modified then (CR ∉ content') else content' = content).
Proof.
  intros Hrun. unfold comment_out_console_statements in Hrun.
  destruct (comment_out_lines_inv (readlines content))
    as (out & i & m & Hpass & (_ & _ & _ & _ & _ & Hmod & _) & _).
  rewrite Hpass in Hrun. simpl in Hrun.
  pose proof (pass_rewritten _ _ _ Hpass) as Hrw.
  pose proof (rewritten_shaped _ _ (readlines_shaped content) Hrw) as Hsh.
  assert (CR ∉ concat out) as Hcr.
  { apply (rewritten_no_cr _ _ Hrw). rewrite concat_readlines. apply read_no_cr. }
  destruct m; injection Hrun as <- <-.
  - unfold writelines. by rewrite (readlines_concat _ Hsh Hcr).
  - rewrite Hmod in * by done. split; [done|]. split; [apply readlines_shaped|done].
Qed.

Lemma file_modified (content content' : str) (modified : bool) :
  comment_out_console_statements content = Done (content', modified) ->
  (modified = true <-> match_count (readlines content) <> 0%nat) /\
  (modified = true <-> content' <> content).
Proof.
  intros Hrun. destruct (file_pass _ _ _ Hrun) as (Hpass & _ & Hfile).
  destruct (pass_modified _ _ _ Hpass) as [Hm Hne]. split; [done|].
  split.
  - intros H Heq. apply Hne in H. apply H. by rewrite Heq.
  - intros H. destruct modified; [done|]. by destruct H.
Qed.

(** The function returns [True] exactly when some line of the file
    matches, and exactly then the text of the file changes; when it
    returns [False] the file is as it was. *)
Theorem return_value (content content' : str) (modified : bool) :
  comment_out_console_statements content = Done (content', modified) ->
  (modified = true <-> match_count (readlines content) <> 0%nat) /\
  (modified = true <-> content' <> content).
Proof. apply file_modified. Qed.

Lemma return_value_witness :
  (true = true <-> match_count (readlines (concat scenario_B)) <> 0%nat) /\
  (true = true <->
   lit "// console.error(" ++ [NL]
     ++ lit "  " ++ [QUOTE] ++ lit "failure" ++ [QUOTE] ++ lit ", err);" ++ [NL]
   <> concat scenario_B).
Proof. apply (return_value (concat scenario_B) _ true). reflexivity. Defined.

(** The file written back has the lines of the text read, each as it was
    or, when it matches, rewritten; read again, its text is longer than
    the text read before by three characters for every line that no longer
    matches; and a file that was written holds no carriage return. *)
Theorem file_lines_rewritten (content content' : str) (modified : bool) :
  comment_out_console_statements content = Done (content', modified) ->
  length (readlines content') = length (readlines content) /\
  (forall (k : nat) line, readlines content !! k = Some line ->
     readlines content' !! k = Some line \/
     is_console_statement (lstrip line) = true /\
     readlines content' !! k = Some (comment_out line)) /\
  (length (read content') + 3 * match_count (readlines content')
   = length (read content) + 3 * match_count (readlines content))%nat /\
  (modified = true -> (CR ∉ content') /\ read content' = content').
Proof.
  intros Hrun. destruct (file_pass _ _ _ Hrun) as (Hpass & _ & Hfile).
  pose proof (pass_rewritten _ _ _ Hpass) as Hrw.
  split; [symmetry; by eapply Forall2_length|]. split; [|split].
  - intros k line Hl.
    destruct (Forall2_lookup_l _ _ _ _ _ Hrw Hl) as (y & Hy & [->|[Hm ->]]); auto.
  - pose proof (rewritten_size _ _ Hrw) as Hsz.
    by rewrite !concat_readlines in Hsz.
  - intros ->. split; [done|by apply read_id].
Qed.

Lemma file_lines_rewritten_witness :
  length (readlines
    (lit "// console.error(" ++ [NL]
     ++ lit "  " ++ [QUOTE] ++ lit "failure" ++ [QUOTE] ++ lit ", err);" ++ [NL]))
  = length (readlines (concat scenario_B)) /\
  (length
     (read (lit "// console.error(" ++ [NL]
      ++ lit "  " ++ [QUOTE] ++ lit "failure" ++ [QUOTE] ++ lit ", err);"
      ++ [NL]))
   + 3 * match_count (readlines
       (lit "// console.error(" ++ [NL]
        ++ lit "  " ++ [QUOTE] ++ lit "failure" ++ [QUOTE] ++ lit ", err);"
        ++ [NL]))
   = length (read (concat scenario_B))
     + 3 * match_count (readlines (concat scenario_B)))%nat.
Proof.
  destruct (file_lines_rewritten (concat scenario_B)
    (lit "// console.error(" ++ [NL]
     ++ lit "  " ++ [QUOTE] ++ lit "failure" ++ [QUOTE] ++ lit ", err);" ++ [NL])
    true) as (Hlen & _ & Hsize & _); [reflexivity|].
  split; [exact Hlen|exact Hsize].
Defined.

(** ** More on the counter *)

Lemma call_at_head (a : char) (t : str) :
  call_at (a :: t) = true -> a = 99%N.
Proof.
  rewrite call_at_split. intros [H _]%andb_true_iff.
  simpl in H. apply andb_true_iff in H as [H _]. by apply N.eqb_eq in H.
Qed.

Lemma has_call_cons (a : char) (t : str) :
  has_call (a :: t) = call_at (a :: t) || has_call t.
Proof. reflexivity. Qed.

Lemma has_call_skip (pre t : str) :
  Forall (fun c => c <> 99%N) pre -> has_call (pre ++ t) = has_call t.
Proof.
  intros H. induction pre as [|a pre IH]; [done|].
  apply Forall_cons in H as [Ha H].
  rewrite <- app_comm_cons, has_call_cons, IH by done.
  destruct (call_at (a :: pre ++ t)) eqn:Hc; [|done].
  by apply call_at_head in Hc.
Qed.

Lemma spaces_not_c (pre : str) :
  Forall (fun c => isspace c = true) pre -> Forall (fun c => c <> 99%N) pre.
Proof. intros H. eapply Forall_impl; [exact H|]. by intros c Hc ->. Qed.

Lemma commented_line_inactive (line : str) :
  startswith (lstrip line) COMMENT_MARKER = true -> active_line line = false.
Proof.
  intros Hs. destruct (indent_of_split line) as [Hsplit Hsp].
  apply startswith_drop in Hs. set (rest := drop (length COMMENT_MARKER) (lstrip line)) in *.
  unfold active_line. destruct (has_call line) eqn:Hc; [|done].
  assert (has_call rest = true) as Hrest.
  { rewrite <- Hc, Hsplit, Hs.
    rewrite has_call_skip by (by apply spaces_not_c).
    symmetry. apply (has_call_skip COMMENT_MARKER).
    repeat constructor; discriminate. }
  assert (commented_call line = true) as ->; [|done].
  rewrite Hsplit. unfold commented_call. apply any_suffix_app, any_suffix_head.
  rewrite Hs. by rewrite startswith_app.
Qed.

Lemma active_count_zero (lines : list str) :
  (forall line, line ∈ lines -> active_line line = false) ->
  length (List.filter active_line lines) = 0%nat.
Proof.
  induction lines as [|l lines IH]; intros H; [done|]. simpl.
  rewrite (H l) by left. apply IH. intros line Hin. apply H. by right.
Qed.

(** A line whose stripped content begins with [//] is not counted, whatever
    follows; on a text in which every line that holds a call begins so,
    the counter gives 0. *)
Theorem commented_lines_not_counted (content : str) :
  (forall line, line ∈ readlines content ->
     startswith (lstrip line) COMMENT_MARKER = true \/ has_call line = false) ->
  count_active_console_statements content = Done 0.
Proof.
  intros H. rewrite count_active_lines, active_count_zero; [done|].
  intros line Hin. destruct (H line Hin) as [Hc|Hc].
  - by apply commented_line_inactive.
  - unfold active_line. by rewrite Hc.
Qed.

Lemma commented_lines_not_counted_witness :
  count_active_console_statements
    (lit "  // console.warn(x); console.log(y)" ++ [NL] ++ lit "let z = 1;" ++ [NL])
  = Done 0.
Proof.
  apply commented_lines_not_counted. intros line Hin.
  change (readlines _) with
    [lit "  // console.warn(x); console.log(y)" ++ [NL]; lit "let z = 1;" ++ [NL]]
    in Hin.
  apply elem_of_cons in Hin as [->|Hin]; [left; reflexivity|].
  apply list_elem_of_singleton in Hin as ->. right. reflexivity.
Defined.

Lemma text_lines_joined (ls : list str) (c2 : str) :
  lines_shaped ls ->
  exists ls', text_lines (concat ls ++ NL :: c2) = ls' ++ text_lines c2 /\
    length (List.filter active_line ls') = length (List.filter active_line ls).
Proof.
  induction 1 as [|u Hu Hne|u ls Hu Hls (ls' & IH & Hcount)].
  - exists [[NL]]. split; reflexivity.
  - exists [u ++ [NL]]. simpl. rewrite app_nil_r, text_lines_line by done.
    split; [done|]. rewrite active_line_nl. by destruct (active_line u).
  - exists ((u ++ [NL]) :: ls'). simpl. rewrite <- !app_assoc. simpl.
    rewrite text_lines_line by done. rewrite IH. split; [done|].
    destruct (active_line (u ++ [NL])); simpl; by rewrite Hcount.
Qed.

Lemma filter_app_length {A} (f : A -> bool) (l1 l2 : list A) :
  length (List.filter f (l1 ++ l2))
  = (length (List.filter f l1) + length (List.filter f l2))%nat.
Proof. by rewrite List.filter_app, length_app. Qed.

Lemma filter_length_le {A} (f : A -> bool) (l : list A) :
  (length (List.filter f l) <= length l)%nat.
Proof. induction l as [|a l IH]; simpl; [done|]. destruct (f a); simpl; lia. Qed.

Lemma count_matches_joined (c1 c2 : str) :
  count_matches (c1 ++ NL :: c2)
  = Done (Z.of_nat (length (List.filter active_line (text_lines c1))
                    + length (List.filter active_line (text_lines c2)))).
Proof.
  rewrite count_matches_lines.
  destruct (text_lines_joined (text_lines c1) c2 (text_lines_shaped c1))
    as (ls' & Hr & Hcount).
  rewrite concat_text_lines in Hr. by rewrite Hr, filter_app_length, Hcount.
Qed.

Lemma active_lines_nl (content : str) :
  length (List.filter active_line (text_lines (content ++ [NL])))
  = length (List.filter active_line (text_lines content)).
Proof.
  pose proof (count_matches_joined content []) as H.
  rewrite count_matches_lines in H. injection H as H.
  apply Nat2Z.inj in H. simpl in H. lia.
Qed.

(** The text read from two files joined by a newline. *)
Lemma translate_joined (c2 : str) (c1 : str) (after_cr : bool) :
  after_cr = false \/ c1 <> [] ->
  exists c1',
    translate after_cr (c1 ++ NL :: c2) = c1' ++ NL :: translate false c2 /\
    (translate after_cr c1 = c1' \/ translate after_cr c1 = c1' ++ [NL]).
Proof.
  revert after_cr. induction c1 as [|c r IH]; intros after_cr Hb.
  - destruct Hb as [->|Hb]; [|done]. exists []. split; [done|by left].
  - cbn [app translate].
    destruct (after_cr && (c =? NL)%N); [apply IH; by left|].
    destruct (N.eqb_spec c CR) as [->|Hc].
    + destruct r as [|c' r'].
      * exists []. split; [done|by right].
      * destruct (IH true) as (c1' & H1 & H2); [by right|].
        exists (NL :: c1'). rewrite H1. split; [done|].
        destruct H2 as [H2|H2]; rewrite H2; [by left|by right].
    + destruct (IH false) as (c1' & H1 & H2); [by left|].
      exists (c :: c1'). rewrite H1. split; [done|].
      destruct H2 as [H2|H2]; rewrite H2; [by left|by right].
Qed.

(** The counter works line by line: on two files joined by a newline it
    gives the sum of what it gives on each, and on any file it gives a
    number between 0 and the number of lines. *)
Theorem counter_additive (c1 c2 : str) :
  exists n1 n2,
    count_active_console_statements c1 = Done n1 /\
    count_active_console_statements c2 = Done n2 /\
    count_active_console_statements (c1 ++ [NL] ++ c2) = Done (n1 + n2) /\
    0 <= n1 <= len (readlines c1).
Proof.
  eexists _, _. split; [apply count_active_lines|].
  split; [apply count_active_lines|]. split.
  - unfold count_active_console_statements, readlines, read.
    destruct (translate_joined c2 c1 false) as (c1' & Ht & Hc1); [by left|].
    change (c1 ++ [NL] ++ c2) with (c1 ++ NL :: c2). rewrite Ht.
    rewrite count_matches_joined. f_equal.
    destruct Hc1 as [Hc1|Hc1]; rewrite Hc1; [lia|]. rewrite active_lines_nl. lia.
  - pose proof (filter_length_le active_line (readlines c1)). unfold len. lia.
Qed.

(** * The driver *)

Lemma files_to_process_NoDup : NoDup files_to_process.
Proof. by apply (bool_decide_unpack (NoDup files_to_process)). Qed.

Lemma file_returns (content : str) :
  exists content' modified,
    comment_out_console_statements content = Done (content', modified).
Proof.
  destruct (comment_out_lines_inv (readlines content))
    as (out & i & m & Hrun & _).
  unfold comment_out_console_statements. rewrite Hrun. simpl.
  destruct m; eauto.
Qed.

Lemma file_rewritten_lines (content content' : str) (modified : bool) :
  comment_out_console_statements content = Done (content', modified) ->
  Forall2 rewritten (readlines content) (readlines content').
Proof.
  intros Hrun. destruct (file_pass _ _ _ Hrun) as [Hpass _].
  by apply (pass_rewritten _ _ modified).
Qed.

Lemma process_file_spec (dir : gmap string str) (total : Z)
    (printed : list message) (name : string) :
  exists dir' msg,
    process_file (dir, total, printed) name
    = Done (dir', total + (if is_commented msg then 1 else 0), printed ++ [msg])
    /\ message_name msg = Some name
    /\ (forall other, other <> name -> dir' !! other = dir !! other)
    /\ file_report name (dir !! name) (dir' !! name) msg.
Proof.
  unfold process_file, file_report.
  destruct (dir !! name) as [content|] eqn:Hd.
  2:{ exists dir, (FileNotFound name). simpl. rewrite Z.add_0_r, Hd. done. }
  rewrite (count_active_lines content). simpl.
  destruct (file_returns content) as (content' & modified & Hrun).
  set (n := Z.of_nat (length (List.filter active_line (readlines content)))).
  destruct (0 <? n) eqn:Hn.
  2:{ exists dir, (NoActive name). simpl. rewrite Z.add_0_r, Hd.
      split; [done|]. split; [done|]. split; [done|].
      exists n, content', modified. by rewrite Hn. }
  rewrite Hrun. simpl. destruct modified.
  - rewrite (count_active_lines content'). simpl.
    eexists (<[name := content']> dir), (Commented name _). simpl.
    split; [done|]. split; [done|].
    split; [intros other Hne; by apply lookup_insert_ne|].
    exists n, content', true. rewrite Hn, lookup_insert_eq.
    split; [done|]. split; [done|]. split; [done|].
    eexists. split; [apply count_active_lines|done].
  - exists dir, (NoChanges name). simpl. rewrite Z.add_0_r, Hd.
    split; [done|]. split; [done|]. split; [done|].
    exists n, content', false. by rewrite Hn.
Qed.

Lemma bind_Done {A B} (a : A) (f : A -> outcome B) : Done a ≫= f = f a.
Proof. reflexivity. Qed.

Lemma for_each_files (names : list string) (dir : gmap string str)
    (total : Z) (printed : list message) :
  NoDup names ->
  exists dir' msgs,
    for_each process_file names (dir, total, printed)
    = Done (dir', total + Z.of_nat (length (List.filter is_commented msgs)),
            printed ++ msgs)
    /\ message_name <$> msgs = Some <$> names
    /\ (forall other, other ∉ names -> dir' !! other = dir !! other)
    /\ (forall name, name ∈ names ->
          exists msg, msg ∈ msgs /\ message_name msg = Some name /\
            file_report name (dir !! name) (dir' !! name) msg).
Proof.
  intros Hnd. revert dir total printed.
  induction Hnd as [|x rest Hx Hnd IH]; intros dir total printed.
  - exists dir, []. simpl. rewrite Z.add_0_r, app_nil_r.
    split; [done|]. split; [done|]. split; [done|].
    intros name Hin. by apply elem_of_nil in Hin.
  - destruct (process_file_spec dir total printed x)
      as (dir1 & msg & Hrun & Hname & Hother & Hrep).
    destruct (IH dir1 (total + (if is_commented msg then 1 else 0))
                (printed ++ [msg]))
      as (dir' & msgs & Hloop & Hnames & Hrest & Hin).
    exists dir', (msg :: msgs). cbn [for_each].
    rewrite Hrun, bind_Done, Hloop.
    split.
    { do 2 f_equal; [f_equal|by rewrite <- app_assoc].
      cbn [List.filter]. destruct (is_commented msg); simpl; lia. }
    split; [rewrite !fmap_cons; by rewrite Hname, Hnames|]. split.
    + intros other Hnot. apply not_elem_of_cons in Hnot as [Hne Hnot].
      rewrite Hrest by done. by apply Hother.
    + intros name [->|Hname']%elem_of_cons.
      * exists msg. split; [left|]. split; [done|]. by rewrite Hrest.
      * destruct (Hin name Hname') as (msg' & Hm & Hn & Hr).
        exists msg'. split; [by right|]. split; [done|].
        rewrite <- Hother; [done|]. by intros ->.
Qed.

Lemma main_spec (dir : gmap string str) :
  exists dir' msgs,
    main (Some dir)
    = Done (Returned, Some dir',
            [Banner] ++ msgs
            ++ [ModifiedFiles (Z.of_nat (length (List.filter is_commented msgs)));
                NoteCli])
    /\ message_name <$> msgs = Some <$> files_to_process
    /\ (forall other, other ∉ files_to_process -> dir' !! other = dir !! other)
    /\ (forall name, name ∈ files_to_process ->
          exists msg, msg ∈ msgs /\ message_name msg = Some name /\
            file_report name (dir !! name) (dir' !! name) msg).
Proof.
  destruct (for_each_files files_to_process dir 0 [Banner] files_to_process_NoDup)
    as (dir' & msgs & Hloop & H).
  exists dir', msgs. split; [|done].
  unfold main. rewrite Hloop. reflexivity.
Qed.





Lemma count_after_pass (content content' : str) (modified : bool) (n n' : Z) :
  comment_out_console_statements content = Done (content', modified) ->
  count_active_console_statements content = Done n ->
  count_active_console_statements content' = Done n' ->
  0 <= n' <= n.
Proof.
  intros Hrun Hn Hn'. rewrite count_active_lines in Hn, Hn'.
  injection Hn as <-. injection Hn' as <-.
  pose proof (rewritten_count _ _ (file_rewritten_lines _ _ _ Hrun)). lia.
Qed.

(** What [main] does with a listed file turns on the counter, not on the
    scanner: when the counter gives 0 the file is left as it is and
    reported as holding no active statement, whatever the scanner would
    match in it; when the counter gives more, the file becomes what the
    scanner makes of it, and is reported as changed, with the difference
    of the two counts, which is never negative, or as unchanged. *)
Theorem main_gate (dir : gmap string str) (name : string) (content : str) :
  name ∈ files_to_process -> dir !! name = Some content ->
  exists dir' printed n content' modified,
    main (Some dir) = Done (Returned, Some dir', printed) /\
    count_active_console_statements content = Done n /\
    comment_out_console_statements content = Done (content', modified) /\
    (n = 0 -> dir' !! name = Some content /\ NoActive name ∈ printed) /\
    (0 < n -> modified = true ->
       dir' !! name = Some content' /\
       exists n', count_active_console_statements content' = Done n' /\
         0 <= n - n' /\ Commented name (n - n') ∈ printed) /\
    (0 < n -> modified = false ->
       dir' !! name = Some content /\ NoChanges name ∈ printed).
Proof.
  intros Hin Hd.
  destruct (main_spec dir) as (dir' & msgs & Hmain & _ & _ & Hfiles).
  destruct (Hfiles name Hin) as (msg & Hmsg & _ & Hrep).
  unfold file_report in Hrep. rewrite Hd in Hrep.
  destruct Hrep as (n & content' & modified & Hcount & Hrun & H).
  exists dir'. eexists. exists n, content', modified.
  split; [exact Hmain|]. split; [done|]. split; [done|].
  assert (forall m, m ∈ msgs ->
    m ∈ [Banner] ++ msgs
        ++ [ModifiedFiles (Z.of_nat (length (List.filter is_commented msgs)));
            NoteCli]) as Hprinted.
  { intros m Hm. apply elem_of_app. right. apply elem_of_app. by left. }
  destruct (Z.ltb_spec 0 n) as [Hpos|Hle]; [destruct modified|].
  - destruct H as (Hd' & n' & Hn' & ->).
    split; [lia|]. split; [|done]. intros _ _. split; [done|].
    exists n'. split; [done|].
    pose proof (count_after_pass _ _ _ _ _ Hrun Hcount Hn').
    split; [lia|by apply Hprinted].
  - destruct H as [Hd' ->]. split; [lia|]. split; [done|].
    intros _ _. split; [done|by apply Hprinted].
  - destruct H as [Hd' ->]. split; [|split; intros; lia].
    intros _. split; [done|by apply Hprinted].
Qed.

Lemma main_gate_witness :
  (match_count (readlines (lit "console.log(a); // console.log(b)" ++ [NL]))
   <> 0%nat /\
   exists dir' printed,
     main (Some {["index.ts"%string
                    := lit "console.log(a); // console.log(b)" ++ [NL]]})
     = Done (Returned, Some dir', printed) /\
     dir' !! "index.ts"%string
     = Some (lit "console.log(a); // console.log(b)" ++ [NL]) /\
     NoActive "index.ts" ∈ printed) /\
  (exists dir' printed,
     main (Some {["index.ts"%string
                    := lit "if (x) console.log(1);" ++ [NL]
                       ++ lit "console.log(a); // console.log(b)" ++ [NL]]})
     = Done (Returned, Some dir', printed) /\
     dir' !! "index.ts"%string
     = Some (lit "if (x) console.log(1);" ++ [NL]
             ++ lit "// console.log(a); // console.log(b)" ++ [NL]) /\
     Commented "index.ts" 0 ∈ printed) /\
  (exists dir' printed,
     main (Some {["index.ts"%string := lit "if (x) console.log(1);" ++ [NL]]})
     = Done (Returned, Some dir', printed) /\
     dir' !! "index.ts"%string = Some (lit "if (x) console.log(1);" ++ [NL]) /\
     NoChanges "index.ts" ∈ printed).
Proof.
  split; [split; [vm_compute; discriminate|]|split].
  - destruct (main_gate
      {["index.ts"%string := lit "console.log(a); // console.log(b)" ++ [NL]]}
      "index.ts" (lit "console.log(a); // console.log(b)" ++ [NL]))
      as (dir' & printed & n & content' & modified & Hmain & Hn & _ & Hzero & _);
      [left|apply lookup_singleton_eq|].
    vm_compute in Hn. injection Hn as <-.
    exists dir', printed. split; [exact Hmain|]. by apply Hzero.
  - destruct (main_gate
      {["index.ts"%string
          := lit "if (x) console.log(1);" ++ [NL]
             ++ lit "console.log(a); // console.log(b)" ++ [NL]]}
      "index.ts"
      (lit "if (x) console.log(1);" ++ [NL]
       ++ lit "console.log(a); // console.log(b)" ++ [NL]))
      as (dir' & printed & n & content' & modified & Hmain & Hn & Hrun & _ & Hpos & _);
      [left|apply lookup_singleton_eq|].
    vm_compute in Hn. injection Hn as <-.
    vm_compute in Hrun. injection Hrun as <- <-.
    destruct Hpos as (Hd & n' & Hn' & _ & Hmsg); [lia|reflexivity|].
    vm_compute in Hn'. injection Hn' as <-.
    exists dir', printed. split; [exact Hmain|]. split; [exact Hd|exact Hmsg].
  - destruct (main_gate
      {["index.ts"%string := lit "if (x) console.log(1);" ++ [NL]]}
      "index.ts" (lit "if (x) console.log(1);" ++ [NL]))
      as (dir' & printed & n & content' & modified & Hmain & Hn & Hrun & _ & _ & Hsame);
      [left|apply lookup_singleton_eq|].
    vm_compute in Hn. injection Hn as <-.
    vm_compute in Hrun. injection Hrun as <- <-.
    exists dir', printed. split; [exact Hmain|]. apply Hsame; [lia|reflexivity].
Defined.

Lemma fmap_NoDup_eq {A B} (f : A -> B) (l : list A) (x y : A) :
  NoDup (f <$> l) -> x ∈ l -> y ∈ l -> f x = f y -> x = y.
Proof.
  induction l as [|a l IH]; intros Hnd Hx Hy Hf; [by apply elem_of_nil in Hx|].
  rewrite fmap_cons in Hnd. apply NoDup_cons in Hnd as [Ha Hnd].
  apply elem_of_cons in Hx as [->|Hx]; apply elem_of_cons in Hy as [->|Hy].
  - done.
  - destruct Ha. rewrite Hf. by apply list_elem_of_fmap_2.
  - destruct Ha. rewrite <- Hf. by apply list_elem_of_fmap_2.
  - by apply IH.
Qed.

(** [main] prints, between its first line and its last two, one line for
    each listed file, in the order of the list.  The files reported as
    changed are exactly the files whose text differs afterwards, the
    number reported for each is never negative, and the number of files
    in the closing line is the number of those reports. *)
Theorem main_report (dir : gmap string str) :
  exists dir' msgs,
    main (Some dir)
    = Done (Returned, Some dir',
            [Banner] ++ msgs
            ++ [ModifiedFiles (Z.of_nat (length (List.filter is_commented msgs)));
                NoteCli]) /\
    message_name <$> msgs = Some <$> files_to_process /\
    (forall name n, Commented name n ∈ msgs ->
       0 <= n /\ dir' !! name <> dir !! name) /\
    (forall name, dir' !! name <> dir !! name ->
       exists n, Commented name n ∈ msgs).
Proof.
  destruct (main_spec dir) as (dir' & msgs & Hmain & Hnames & Hother & Hfiles).
  exists dir', msgs. split; [done|]. split; [done|].
  assert (NoDup (message_name <$> msgs)) as Hnd.
  { rewrite Hnames. apply (NoDup_fmap_2 Some), files_to_process_NoDup. }
  split.
  - intros name n Hin.
    assert (name ∈ files_to_process) as Hname.
    { apply (list_elem_of_fmap_2 message_name) in Hin. simpl in Hin.
      rewrite Hnames in Hin.
      apply list_elem_of_fmap in Hin as (x & [= ->] & Hx). done. }
    destruct (Hfiles name Hname) as (msg & Hmsg & Hmn & Hrep).
    assert (msg = Commented name n) as ->
      by (by apply (fmap_NoDup_eq message_name msgs)).
    unfold file_report in Hrep.
    destruct (dir !! name) as [content|]; [|by destruct Hrep].
    destruct Hrep as (n0 & content' & modified & Hcount & Hrun & H).
    destruct (0 <? n0); [destruct modified|]; try by destruct H.
    destruct H as (-> & n' & Hn' & [= ->]).
    pose proof (count_after_pass _ _ _ _ _ Hrun Hcount Hn').
    split; [lia|]. intros [= Heq].
    by apply (proj2 (file_modified _ _ _ Hrun)) in Heq.
  - intros name Hne.
    destruct (decide (name ∈ files_to_process)) as [Hname|Hnot];
      [|by destruct Hne; apply Hother].
    destruct (Hfiles name Hname) as (msg & Hmsg & Hmn & Hrep).
    unfold file_report in Hrep.
    destruct (dir !! name) as [content|]; [|by destruct Hrep as [? _]].
    destruct Hrep as (n0 & content' & modified & Hcount & Hrun & H).
    destruct (0 <? n0); [destruct modified|]; try by destruct H as [? _].
    destruct H as (_ & n' & _ & ->). by exists (n0 - n').
Qed.

Lemma main_report_witness :
  exists dir' msgs,
    main (Some {["index.ts"%string := lit "console.log(1);" ++ [NL]]})
    = Done (Returned, Some dir',
            [Banner] ++ msgs
            ++ [ModifiedFiles (Z.of_nat (length (List.filter is_commented msgs)));
                NoteCli]) /\
    (exists n, Commented "index.ts" n ∈ msgs /\ 0 <= n) /\
    dir' !! "index.ts"%string <> Some (lit "console.log(1);" ++ [NL]).
Proof.
  destruct (main_report {["index.ts"%string := lit "console.log(1);" ++ [NL]]})
    as (dir' & msgs & Hmain & _ & Hcommented & Hchanged).
  destruct (main_spec {["index.ts"%string := lit "console.log(1);" ++ [NL]]})
    as (dir2 & msgs2 & Hmain2 & _ & _ & Hfiles).
  rewrite Hmain in Hmain2. injection Hmain2 as <- _.
  destruct (Hfiles "index.ts"%string) as (msg & _ & _ & Hrep); [left|].
  unfold file_report in Hrep. rewrite lookup_singleton_eq in Hrep.
  destruct Hrep as (n0 & content' & modified & Hn & Hrun & H).
  vm_compute in Hn. injection Hn as <-.
  vm_compute in Hrun. injection Hrun as <- <-.
  destruct H as (Hd & _).
  assert (dir' !! "index.ts"%string
          <> ({["index.ts"%string := lit "console.log(1);" ++ [NL]]}
               : gmap string str) !! "index.ts"%string) as Hne.
  { rewrite Hd, lookup_singleton_eq. discriminate. }
  destruct (Hchanged _ Hne) as (n & Hin).
  exists dir', msgs. split; [exact Hmain|]. split.
  - exists n. split; [exact Hin|]. by apply (Hcommented "index.ts"%string n).
  - rewrite Hd. discriminate.
Defined.

(** * The first version of the script *)

Lemma v1_eat_spec (l : str) (b s : str) :
  V1.eat l (b, s)
  = if startswith s l then Some (rev l ++ b, drop (length l) s) else None.
Proof.
  revert b s. induction l as [|a l IH]; intros b s; [done|].
  destruct s as [|c s]; [done|]. simpl.
  destruct (N.eqb_spec c a) as [->|]; [|done]. rewrite IH. simpl.
  destruct (startswith s l); [|done]. by rewrite <- app_assoc.
Qed.

Lemma v1_spaces_inv {R} (b s : str) (k : V1.pos -> option R) (x : R) :
  V1.spaces b s k = Some x ->
  exists ws s', s = ws ++ s' /\ Forall (fun c => isspace c = true) ws /\
    k (rev ws ++ b, s') = Some x.
Proof.
  revert b. induction s as [|c s IH]; intros b; simpl.
  - intros H. by exists [], [].
  - destruct (isspace c) eqn:Hc; [|intros H; by exists [], (c :: s)].
    destruct (V1.spaces (c :: b) s k) as [y|] eqn:Hs.
    + intros [= <-]. destruct (IH _ Hs) as (ws & s' & -> & Hws & Hk).
      exists (c :: ws), s'. split; [done|]. split; [by constructor|].
      simpl. by rewrite <- app_assoc.
    + intros H. by exists [], (c :: s).
Qed.

Lemma v1_spaces_max {R} (b ws rest : str) (k : V1.pos -> option R) (x : R) :
  Forall (fun c => isspace c = true) ws ->
  (forall c rest', rest = c :: rest' -> isspace c = false) ->
  k (rev ws ++ b, rest) = Some x ->
  V1.spaces b (ws ++ rest) k = Some x.
Proof.
  intros Hws Hrest. revert b. induction ws as [|c ws IH]; intros b Hk.
  - simpl in *. destruct rest as [|c rest]; simpl; [done|].
    by rewrite (Hrest c rest).
  - apply Forall_cons in Hws as [Hc Hws]. simpl. rewrite Hc.
    rewrite (IH Hws (c :: b)); [done|]. simpl in Hk. by rewrite <- app_assoc in Hk.
Qed.

Lemma take_front {A} (ws x : list A) :
  take (length (ws ++ x) - length x) (ws ++ x) = ws.
Proof.
  rewrite length_app. replace (length ws + length x - length x)%nat with (length ws) by lia.
  by rewrite take_app_length.
Qed.

Lemma v1_behind_ok (b ws : str) :
  V1.at_bol b = true -> Forall (fun c => isspace c = true) ws ->
  startswith (rev ws ++ b) (rev COMMENT_MARKER) = false.
Proof.
  intros Hb Hws. apply Forall_rev in Hws.
  destruct (rev ws) as [|c l]; simpl.
  - destruct b as [|c b]; [done|]. simpl in Hb. apply N.eqb_eq in Hb as ->. done.
  - apply Forall_cons in Hws as [Hc _].
    destruct (N.eqb_spec c 47) as [->|]; [done|]. done.
Qed.

Lemma v1_method (b method rest : str) (caps : V1.captures)
    (k : V1.pos -> V1.captures -> option (V1.pos * V1.captures)) :
  In method METHODS ->
  V1.rmatch V1.METHOD (b, method ++ rest) caps k
  = k (rev method ++ b, rest) ((2%nat, method) :: caps).
Proof.
  intros Hm. unfold V1.METHOD. cbn [V1.rmatch fst snd]. rewrite !v1_eat_spec.
  destruct Hm as [<-|[<-|[<-|[<-|[]]]]]; simpl startswith;
    rewrite drop_app_length, take_front;
    by destruct (k _ _).
Qed.

Lemma v1_match_call (b t ws method ws2 r : str) :
  V1.at_bol b = true -> V1.call_shape t ws method ws2 r ->
  V1.rmatch V1.PATTERN_1 (b, t) [] (fun q' caps => Some (q', caps))
  = Some ((rev (ws ++ CONSOLE ++ method ++ ws2 ++ [LPAREN]) ++ b, r),
          [(2%nat, method); (1%nat, ws)]).
Proof.
  intros Hb (-> & Hws & Hws2 & Hm).
  unfold V1.PATTERN_1. cbn [V1.rmatch fst snd]. rewrite Hb.
  apply v1_spaces_max; [done|by intros c rest' [= <- _]|].
  cbn [fst snd]. rewrite v1_behind_ok by done.
  rewrite v1_eat_spec, startswith_app, drop_app_length.
  rewrite take_front. rewrite v1_method by done. cbn [fst snd].
  apply v1_spaces_max; [done|by intros c rest' [= <- _]|].
  rewrite v1_eat_spec. simpl startswith. simpl drop.
  rewrite !rev_app_distr. simpl rev. rewrite <- !app_assoc. done.
Qed.

Lemma v1_method_inv (b s : str) (caps : V1.captures)
    (k : V1.pos -> V1.captures -> option (V1.pos * V1.captures)) x :
  V1.rmatch V1.METHOD (b, s) caps k = Some x ->
  exists method rest, In method METHODS /\ s = method ++ rest.
Proof.
  unfold V1.METHOD. cbn [V1.rmatch fst snd]. rewrite !v1_eat_spec. intros H.
  assert (exists method, In method METHODS /\ startswith s method = true)
    as (method & Hm & Hs).
  { destruct (startswith s LOG) eqn:H1; [exists LOG; split; [|done]; simpl; tauto|].
    destruct (startswith s ERROR) eqn:H2; [exists ERROR; split; [|done]; simpl; tauto|].
    destruct (startswith s WARN) eqn:H3; [exists WARN; split; [|done]; simpl; tauto|].
    destruct (startswith s INFO) eqn:H4; [exists INFO; split; [|done]; simpl; tauto|].
    done. }
  apply startswith_inv in Hs as [rest ->]. by exists method, rest.
Qed.

(** A match of a pattern that begins like the two of the script starts a
    line and a call. *)
Lemma v1_prefix_inv (tl : V1.regex) (b t : str) (caps : V1.captures)
    (k : V1.pos -> V1.captures -> option (V1.pos * V1.captures)) x :
  (forall q c k' y, V1.rmatch tl q c k' = Some y -> exists r, q.2 = LPAREN :: r) ->
  V1.rmatch
    (V1.Cat V1.Bol (V1.Cat (V1.Group 1 V1.Spaces)
       (V1.Cat (V1.NotBehind COMMENT_MARKER)
          (V1.Cat (V1.Str CONSOLE) (V1.Cat V1.METHOD (V1.Cat V1.Spaces tl))))))
    (b, t) caps k = Some x ->
  V1.at_bol b = true /\ V1.starts_call t.
Proof.
  intros Htl. cbn [V1.rmatch fst snd].
  destruct (V1.at_bol b); [|done]. intros H. split; [done|].
  apply v1_spaces_inv in H as (ws & s1 & -> & Hws & H). cbn [fst snd] in H.
  destruct (startswith (rev ws ++ b) (rev COMMENT_MARKER)); [done|].
  rewrite v1_eat_spec in H. destruct (startswith s1 CONSOLE) eqn:Hc; [|done].
  apply startswith_drop in Hc. set (s2 := drop (length CONSOLE) s1) in *.
  apply v1_method_inv in H as Hm. destruct Hm as (method & s3 & Hm & Hs2).
  rewrite Hs2 in H. rewrite v1_method in H by done. cbn [fst snd] in H.
  apply v1_spaces_inv in H as (ws2 & s4 & -> & Hws2 & H).
  apply Htl in H as [r Hr]. cbn [snd] in Hr. subst s4.
  exists ws, method, ws2, r. split; [|done]. by rewrite Hc, Hs2.
Qed.

Lemma v1_pattern_1_inv (b t : str) x :
  V1.rmatch V1.PATTERN_1 (b, t) [] (fun q' caps => Some (q', caps)) = Some x ->
  V1.at_bol b = true /\ V1.starts_call t.
Proof.
  apply v1_prefix_inv. intros [b' s] c k' y. cbn [V1.rmatch snd].
  rewrite v1_eat_spec. destruct (startswith s [LPAREN]) eqn:Hs; [|done].
  intros _. apply startswith_inv in Hs as [r ->]. by exists r.
Qed.

Lemma v1_pattern_2_inv (b t : str) x :
  V1.rmatch V1.PATTERN_2 (b, t) [] (fun q' caps => Some (q', caps)) = Some x ->
  V1.at_bol b = true /\ V1.starts_call t.
Proof.
  apply v1_prefix_inv. intros [b' s] c k' y. cbn [V1.rmatch snd].
  rewrite v1_eat_spec. destruct (startswith s [LPAREN]) eqn:Hs; [|done].
  intros _. apply startswith_inv in Hs as [r ->]. by exists r.
Qed.

Lemma v1_call_shorter (t ws method ws2 r : str) :
  V1.call_shape t ws method ws2 r -> (length r < length t)%nat.
Proof. intros (-> & _). rewrite !length_app. simpl. lia. Qed.

(** One step of the substitution at a call and elsewhere. *)
Lemma v1_sub_hit (fuel : nat) (b t ws method ws2 r : str) :
  V1.at_bol b = true -> V1.call_shape t ws method ws2 r ->
  V1.sub (S fuel) V1.PATTERN_1 V1.TEMPLATE_1 (b, t)
  = rest ← V1.sub fuel V1.PATTERN_1 V1.TEMPLATE_1
             (rev (ws ++ CONSOLE ++ method ++ ws2 ++ [LPAREN]) ++ b, r);
    Done (ws ++ COMMENTED_CONSOLE ++ method ++ LPAREN :: rest).
Proof.
  intros Hb Ht. cbn [V1.sub]. rewrite (v1_match_call _ _ _ _ _ _ Hb Ht).
  cbn [fst snd]. apply v1_call_shorter in Ht. apply Nat.ltb_lt in Ht as ->.
  destruct (V1.sub fuel _ _ _) as [rest| |]; [|done|done]. rewrite !bind_Done.
  change (V1.expand V1.TEMPLATE_1 [(2%nat, method); (1%nat, ws)])
    with (ws ++ COMMENTED_CONSOLE ++ method ++ [LPAREN]).
  by rewrite <- !app_assoc.
Qed.

Lemma v1_sub_miss (fuel : nat) (r : V1.regex) (template : list V1.piece)
    (b t : str) :
  V1.rmatch r (b, t) [] (fun q' caps => Some (q', caps)) = None ->
  V1.sub (S fuel) r template (b, t)
  = match t with
    | [] => Done []
    | c :: t' => rest ← V1.sub fuel r template (c :: b, t'); Done (c :: rest)
    end.
Proof. intros H. cbn [V1.sub]. by rewrite H. Qed.

Lemma v1_quiet_sub (r : V1.regex) (template : list V1.piece) :
  (forall b t x,
     V1.rmatch r (b, t) [] (fun q' caps => Some (q', caps)) = Some x ->
     V1.at_bol b = true /\ V1.starts_call t) ->
  forall (fuel : nat) (t b : str),
    (length t < fuel)%nat -> V1.quiet (V1.at_bol b) t ->
    V1.sub fuel r template (b, t) = Done t.
Proof.
  intros Hr. induction fuel as [|fuel IH]; intros t b Hlen Hq; [lia|].
  rewrite v1_sub_miss.
  - destruct t as [|c t]; [done|]. simpl in Hq. destruct Hq as [_ Hq].
    rewrite IH; [done|simpl in Hlen; lia|done].
  - destruct (V1.rmatch r (b, t) [] _) eqn:Hm; [|done].
    apply Hr in Hm as [Hb Hc]. destruct t; simpl in Hq; by destruct Hq as [Hq _]; destruct (Hq Hb).
Qed.

Lemma v1_quiet_mono (bol : bool) (t : str) : V1.quiet true t -> V1.quiet bol t.
Proof. destruct t; simpl; intros [H1 H2]; (split; [intros _; by apply H1|done]). Qed.

Lemma v1_no_call_before_slash (ws y : str) :
  Forall (fun c => isspace c = true) ws -> ~ V1.starts_call (ws ++ SLASH :: y).
Proof.
  intros Hws (ws' & method & ws2 & r & Ht & Hws' & _).
  revert ws' Ht Hws'. induction ws as [|c ws IH]; intros ws' Ht Hws'.
  - destruct ws' as [|c' ws']; [done|]. simpl in Ht. injection Ht as <- _.
    by apply Forall_cons in Hws' as [? _].
  - apply Forall_cons in Hws as [Hc Hws].
    destruct ws' as [|c' ws']; simpl in Ht.
    + injection Ht as -> _. done.
    + injection Ht as _ Ht. apply Forall_cons in Hws' as [_ Hws'].
      by apply (IH Hws ws').
Qed.

Lemma v1_quiet_literal (l t : str) :
  NL ∉ l -> V1.quiet false t -> V1.quiet false (l ++ t).
Proof.
  intros Hl Ht. induction l as [|c l IH]; [done|].
  apply not_elem_of_cons in Hl as [Hc Hl]. simpl. split; [done|].
  destruct (N.eqb_spec c NL) as [->|]; [done|]. by apply IH.
Qed.

Lemma v1_quiet_ws (bol : bool) (ws y : str) :
  Forall (fun c => isspace c = true) ws ->
  V1.quiet false y -> V1.quiet bol (ws ++ SLASH :: y).
Proof.
  intros Hws Hy. revert bol. induction Hws as [|c ws Hc Hws IH]; intros bol.
  - simpl. split; [|done]. intros _. by apply (v1_no_call_before_slash []).
  - simpl. split; [|apply IH]. intros _.
    apply (v1_no_call_before_slash (c :: ws)). by constructor.
Qed.

Lemma v1_prefix_without {A} (a : A) (l y d r : list A) :
  l ++ a :: y = d ++ r -> a ∉ d -> exists z, l = d ++ z.
Proof.
  revert l. induction d as [|x d IH]; intros l H Ha; [by exists l|].
  apply not_elem_of_cons in Ha as [Hx Ha].
  destruct l as [|x' l]; simpl in H.
  - injection H as -> _. done.
  - injection H as -> H. destruct (IH l H Ha) as [z ->]. by exists z.
Qed.

Lemma v1_space_not_slash (ws : str) :
  Forall (fun c => isspace c = true) ws -> SLASH ∉ ws.
Proof.
  intros Hws Hin. rewrite Forall_forall in Hws. by apply Hws in Hin.
Qed.

Lemma v1_agree_call (c : char) (t out : str) :
  V1.agree t out -> V1.starts_call (c :: out) -> V1.starts_call (c :: t).
Proof.
  intros [->|(common & x & y & -> & ->)]; [done|].
  intros (ws & method & ws2 & r & Ht & Hws & Hws2 & Hm).
  assert (SLASH ∉ ws ++ CONSOLE ++ method ++ ws2 ++ [LPAREN]) as Hd.
  { rewrite !not_elem_of_app. split; [by apply v1_space_not_slash|].
    split; [by apply (bool_decide_unpack (SLASH ∉ CONSOLE))|].
    split.
    - simpl in Hm.
      destruct Hm as [<-|[<-|[<-|[<-|[]]]]];
        by apply (bool_decide_unpack (SLASH ∉ _)).
    - split; [by apply v1_space_not_slash|].
      by apply (bool_decide_unpack (SLASH ∉ [LPAREN])). }
  destruct (v1_prefix_without SLASH (c :: common)
              (drop 1 COMMENTED_CONSOLE ++ y)
              (ws ++ CONSOLE ++ method ++ ws2 ++ [LPAREN]) r) as [z Hz];
    [|done|].
  { rewrite <- !app_assoc. exact Ht. }
  exists ws, method, ws2, (z ++ CONSOLE ++ x). split; [|done].
  rewrite app_comm_cons, Hz. by rewrite <- !app_assoc.
Qed.

Lemma v1_agree_cons (c : char) (t out : str) :
  V1.agree t out -> V1.agree (c :: t) (c :: out).
Proof.
  intros [->|(common & x & y & -> & ->)]; [by left|].
  right. by exists (c :: common), x, y.
Qed.

Lemma v1_method_no_newline (method : str) :
  In method METHODS -> NL ∉ drop 1 COMMENTED_CONSOLE ++ method ++ [LPAREN].
Proof.
  intros Hm. simpl in Hm.
  destruct Hm as [<-|[<-|[<-|[<-|[]]]]];
    by apply (bool_decide_unpack (NL ∉ _)).
Qed.

(** The first substitution returns; what it returns has no call left at
    the start of a line. *)
Lemma v1_sub_spec (fuel : nat) :
  forall (t b : str), (length t < fuel)%nat ->
    exists out,
      V1.sub fuel V1.PATTERN_1 V1.TEMPLATE_1 (b, t) = Done out /\
      V1.quiet (V1.at_bol b) out /\ V1.agree t out.
Proof.
  induction fuel as [|fuel IH]; intros t b Hlen; [lia|].
  destruct (V1.rmatch V1.PATTERN_1 (b, t) [] (fun q' caps => Some (q', caps)))
    as [x|] eqn:Hm.
  - apply v1_pattern_1_inv in Hm as [Hb (ws & method & ws2 & r & Ht)].
    rewrite (v1_sub_hit _ _ _ _ _ _ _ Hb Ht).
    pose proof (v1_call_shorter _ _ _ _ _ Ht) as Hr.
    destruct (IH r (rev (ws ++ CONSOLE ++ method ++ ws2 ++ [LPAREN]) ++ b))
      as (out & -> & Hq & Ha); [lia|].
    rewrite bind_Done. eexists. split; [done|].
    destruct Ht as (-> & Hws & Hws2 & Hmeth). split.
    + change (ws ++ COMMENTED_CONSOLE ++ method ++ LPAREN :: out)
        with (ws ++ SLASH :: drop 1 COMMENTED_CONSOLE ++ method ++ [LPAREN] ++ out).
      apply v1_quiet_ws; [done|].
      rewrite !app_assoc. rewrite <- (app_assoc _ method).
      apply v1_quiet_literal; [by apply v1_method_no_newline|].
      rewrite !rev_app_distr in Hq. exact Hq.
    + right. exists ws, (method ++ ws2 ++ LPAREN :: r), (method ++ LPAREN :: out).
      done.
  - rewrite (v1_sub_miss _ _ _ _ _ Hm).
    assert (V1.at_bol b = true -> ~ V1.starts_call t) as Hno.
    { intros Hb (ws & method & ws2 & r & Ht).
      by rewrite (v1_match_call _ _ _ _ _ _ Hb Ht) in Hm. }
    destruct t as [|c t].
    + exists []. split; [done|]. split; [by split|by left].
    + destruct (IH t (c :: b)) as (out & -> & Hq & Ha); [simpl in Hlen; lia|].
      rewrite bind_Done. exists (c :: out). split; [done|]. split.
      * simpl. split; [|exact Hq]. intros Hb Hc.
        apply (Hno Hb). by apply (v1_agree_call c t out).
      * by apply v1_agree_cons.
Qed.

Lemma v1_substitute_spec (content : str) :
  exists out,
    V1.re_sub V1.PATTERN_1 V1.TEMPLATE_1 content = Done out /\
    V1.substitute content = Done out /\
    V1.quiet true out /\ V1.agree content out.
Proof.
  unfold V1.substitute, V1.re_sub.
  destruct (v1_sub_spec (S (length content)) content []) as (out & H & Hq & Ha);
    [lia|].
  exists out. rewrite H, bind_Done. split; [done|]. split; [|done].
  apply v1_quiet_sub; [apply v1_pattern_2_inv|lia|done].
Qed.

Lemma v1_substitute_quiet (content : str) :
  V1.quiet true content -> V1.substitute content = Done content.
Proof.
  intros Hq. unfold V1.substitute, V1.re_sub.
  rewrite v1_quiet_sub; [|apply v1_pattern_1_inv|lia|done].
  rewrite bind_Done. apply v1_quiet_sub; [apply v1_pattern_2_inv|lia|done].
Qed.

Lemma v1_differing_same (xs : list str) : V1.differing xs xs = 0.
Proof.
  induction xs as [|a xs IH]; [done|]. simpl. rewrite IH.
  by destruct (decide (a = a)).
Qed.

Lemma v1_differing_nonneg (xs ys : list str) : 0 <= V1.differing xs ys.
Proof.
  revert ys. induction xs as [|a xs IH]; intros [|b ys]; simpl; try lia.
  specialize (IH ys). destruct (decide (a = b)); lia.
Qed.

Lemma v1_first_line (s line : str) :
  line <> [] ->
  exists more tail, V1.splitlines_from false line s = (rev line ++ more) :: tail.
Proof.
  revert line. induction s as [|c s IH]; intros line Hline.
  - destruct line; [done|]. exists [], []. simpl. by rewrite app_nil_r.
  - cbn [V1.splitlines_from andb]. destruct (V1.is_linebreak c).
    + eexists [], _. by rewrite app_nil_r.
    + destruct (IH (c :: line)) as (more & tail & ->); [done|].
      exists (c :: more), tail. simpl. by rewrite <- app_assoc.
Qed.

Lemma v1_differing_heads (s1 s2 line : str) (c1 c2 : char) :
  c1 <> c2 ->
  0 < V1.differing (V1.splitlines_from false (c1 :: line) s1)
                   (V1.splitlines_from false (c2 :: line) s2).
Proof.
  intros Hc.
  destruct (v1_first_line s1 (c1 :: line)) as (more1 & tail1 & ->); [done|].
  destruct (v1_first_line s2 (c2 :: line)) as (more2 & tail2 & ->); [done|].
  cbn [V1.differing]. pose proof (v1_differing_nonneg tail1 tail2).
  destruct (decide _) as [Heq|]; [|lia].
  simpl in Heq. rewrite <- !app_assoc in Heq. apply app_inv_head in Heq.
  by injection Heq.
Qed.

(** Where one text goes on with [console.] and the other with
    [// console.], a line differs. *)
Lemma v1_changed_line (common x y : str) (after_cr : bool) (line : str) :
  0 < V1.differing
        (V1.splitlines_from after_cr line (common ++ CONSOLE ++ x))
        (V1.splitlines_from after_cr line (common ++ COMMENTED_CONSOLE ++ y)).
Proof.
  revert after_cr line. induction common as [|c common IH]; intros after_cr line.
  - change ([] ++ CONSOLE ++ x) with (99%N :: drop 1 CONSOLE ++ x).
    change ([] ++ COMMENTED_CONSOLE ++ y)
      with (SLASH :: drop 1 COMMENTED_CONSOLE ++ y).
    cbn [V1.splitlines_from].
    replace (after_cr && (99 =? NL)%N) with false by by destruct after_cr.
    replace (after_cr && (SLASH =? NL)%N) with false by by destruct after_cr.
    change (V1.is_linebreak 99%N) with false. change (V1.is_linebreak SLASH) with false.
    cbn match. by apply v1_differing_heads.
  - rewrite <- !app_comm_cons. cbn [V1.splitlines_from].
    destruct (after_cr && (c =? NL)%N); [apply IH|].
    destruct (V1.is_linebreak c); [|apply IH].
    cbn [V1.differing]. destruct (decide _); [|done].
    rewrite Z.add_0_l. apply IH.
Qed.

Lemma v1_agree_lines (t out : str) :
  V1.agree t out ->
  (out = t /\ V1.differing (V1.splitlines t) (V1.splitlines out) = 0) \/
  (out <> t /\ 0 < V1.differing (V1.splitlines t) (V1.splitlines out)).
Proof.
  intros [->|(common & x & y & -> & ->)].
  - left. by rewrite v1_differing_same.
  - right. split; [|apply v1_changed_line].
    intros H. by apply app_inv_head in H.
Qed.

Lemma v1_spaces_ext {R} (s b : str) (k k' : V1.pos -> option R) :
  (forall ws s', Forall (fun c => isspace c = true) ws ->
     k (rev ws ++ b, s') = k' (rev ws ++ b, s')) ->
  V1.spaces b s k = V1.spaces b s k'.
Proof.
  revert b. induction s as [|c s IH]; intros b H; simpl.
  - apply (H [] []). constructor.
  - pose proof (H [] (c :: s) (List.Forall_nil _)) as H0. simpl in H0. rewrite H0.
    destruct (isspace c) eqn:Hc; [|done].
    rewrite (IH (c :: b)); [done|]. intros ws s' Hws.
    specialize (H (c :: ws) s'). simpl in H. rewrite <- !app_assoc in H.
    apply H. by constructor.
Qed.

Lemma v1_sub_ext (r1 r2 : V1.regex) (template : list V1.piece) :
  (forall q, V1.rmatch r1 q [] (fun q' caps => Some (q', caps))
             = V1.rmatch r2 q [] (fun q' caps => Some (q', caps))) ->
  forall fuel q, V1.sub fuel r1 template q = V1.sub fuel r2 template q.
Proof.
  intros H. induction fuel as [|fuel IH]; intros q; [done|].
  cbn [V1.sub]. rewrite H.
  destruct (V1.rmatch r2 q [] _) as [[q' caps]|].
  - destruct (_ <? _)%nat; [by rewrite IH|]. destruct q.2; [done|]. by rewrite IH.
  - destruct q.2; [done|]. by rewrite IH.
Qed.

Lemma v1_pattern_1_plain (q : V1.pos) (caps : V1.captures)
    (k : V1.pos -> V1.captures -> option (V1.pos * V1.captures)) :
  V1.rmatch V1.PATTERN_1 q caps k = V1.rmatch V1.PATTERN_1_PLAIN q caps k.
Proof.
  destruct q as [b t]. unfold V1.PATTERN_1, V1.PATTERN_1_PLAIN.
  cbn [V1.rmatch fst snd]. destruct (V1.at_bol b) eqn:Hb; [|done].
  apply v1_spaces_ext. intros ws s' Hws. cbn [fst snd].
  by rewrite v1_behind_ok.
Qed.

Lemma v1_pattern_2_plain (q : V1.pos) (caps : V1.captures)
    (k : V1.pos -> V1.captures -> option (V1.pos * V1.captures)) :
  V1.rmatch V1.PATTERN_2 q caps k = V1.rmatch V1.PATTERN_2_PLAIN q caps k.
Proof.
  destruct q as [b t]. unfold V1.PATTERN_2, V1.PATTERN_2_PLAIN.
  cbn [V1.rmatch fst snd]. destruct (V1.at_bol b) eqn:Hb; [|done].
  apply v1_spaces_ext. intros ws s' Hws. cbn [fst snd].
  by rewrite v1_behind_ok.
Qed.

Lemma v1_quiet_no_console (bol : bool) (t : str) :
  any_suffix (fun u => startswith u CONSOLE) t = false -> V1.quiet bol t.
Proof.
  revert bol. induction t as [|c t IH]; intros bol H.
  - split; [|done]. intros _ (ws & method & ws2 & r & Ht & _).
    by destruct ws.
  - simpl. split.
    + intros _ (ws & method & ws2 & r & Ht & _). rewrite Ht in H.
      rewrite any_suffix_app in H; [done|].
      apply any_suffix_head, startswith_app.
    + apply IH. simpl in H. by apply orb_false_iff in H as [_ H].
Qed.

(** In the first version ([remove_console_logs.py]) the second pattern of
    [patterns] never applies.  The first substitution
    always returns, the second one returns its input unchanged, so the two
    substitutions together are the first one alone. *)
Theorem v1_second_pattern_idle (content : str) :
  exists out,
    V1.re_sub V1.PATTERN_1 V1.TEMPLATE_1 content = Done out /\
    V1.re_sub V1.PATTERN_2 V1.TEMPLATE_2 out = Done out /\
    V1.substitute content = Done out.
Proof.
  destruct (v1_substitute_spec content) as (out & H1 & Hs & Hq & _).
  exists out. split; [done|]. split; [|done].
  unfold V1.re_sub. apply v1_quiet_sub; [apply v1_pattern_2_inv|lia|done].
Qed.

(** The text the substitution returns holds no carriage return when the
    text it is given holds none. *)
Lemma v1_sub_no_cr (fuel : nat) :
  forall (t b out : str),
    V1.sub fuel V1.PATTERN_1 V1.TEMPLATE_1 (b, t) = Done out ->
    (CR ∉ t) -> CR ∉ out.
Proof.
  induction fuel as [|fuel IH]; intros t b out Hsub Ht; [done|].
  destruct (V1.rmatch V1.PATTERN_1 (b, t) [] (fun q' caps => Some (q', caps)))
    as [x|] eqn:Hm.
  - apply v1_pattern_1_inv in Hm as [Hb (ws & method & ws2 & r & Hc)].
    rewrite (v1_sub_hit _ _ _ _ _ _ _ Hb Hc) in Hsub.
    destruct (V1.sub fuel _ _ _) as [rest| |] eqn:Hrest; [|done|done].
    rewrite bind_Done in Hsub. injection Hsub as <-.
    destruct Hc as (-> & _ & _ & Hmeth).
    rewrite !not_elem_of_app in Ht.
    destruct Ht as (Hws & _ & Hmd & _ & Hr%not_elem_of_cons).
    change (CR ∉ ws ++ COMMENTED_CONSOLE ++ method ++ LPAREN :: rest).
    rewrite !not_elem_of_app. split; [done|].
    split; [by apply (bool_decide_unpack (CR ∉ COMMENTED_CONSOLE))|].
    split; [done|]. apply not_elem_of_cons. split; [done|].
    apply (IH _ _ _ Hrest). by destruct Hr.
  - rewrite (v1_sub_miss _ _ _ _ _ Hm) in Hsub.
    destruct t as [|c t]; [injection Hsub as <-; apply not_elem_of_nil|].
    destruct (V1.sub fuel _ _ _) as [rest| |] eqn:Hrest; [|done|done].
    rewrite bind_Done in Hsub. injection Hsub as <-.
    apply not_elem_of_cons in Ht as [Hc Ht]. apply not_elem_of_cons.
    split; [done|]. by apply (IH _ _ _ Hrest).
Qed.

Lemma v1_substitute_no_cr (content out : str) :
  V1.substitute content = Done out -> (CR ∉ content) -> CR ∉ out.
Proof.
  intros Hs Hcr. destruct (v1_substitute_spec content) as (out' & H1 & Hs' & _).
  rewrite Hs in Hs'. injection Hs' as <-. by apply (v1_sub_no_cr _ _ _ _ H1).
Qed.

Lemma v1_substitute_fixed (content out : str) :
  V1.substitute content = Done out -> V1.substitute out = Done out.
Proof.
  intros H. destruct (v1_substitute_spec content) as (out' & _ & Hs & Hq & _).
  rewrite H in Hs. injection Hs as <-. by apply v1_substitute_quiet.
Qed.

(** The call on a file: the text read is substituted; the file is written,
    with the substituted text, exactly when that text differs, and then the
    value returned is positive. *)
Lemma v1_file_spec (file : str) :
  exists out changes,
    V1.substitute (read file) = Done out /\
    V1.comment_out_console_statements file
    = Done (if decide (out = read file) then file else out, changes) /\
    changes = V1.differing (V1.splitlines (read file)) (V1.splitlines out) /\
    0 <= changes /\ (0 < changes <-> out <> read file) /\
    (CR ∉ out) /\ (out <> read file -> out <> file).
Proof.
  destruct (v1_substitute_spec (read file)) as (out & _ & Hs & _ & Ha).
  pose proof (v1_substitute_no_cr _ _ Hs (read_no_cr file)) as Hcr.
  exists out, (V1.differing (V1.splitlines (read file)) (V1.splitlines out)).
  split; [done|]. unfold V1.comment_out_console_statements. cbn zeta.
  rewrite Hs, bind_Done.
  assert (out <> read file -> out <> file) as Hfile.
  { intros Hne Heq. apply Hne. subst out. symmetry. by apply read_id. }
  destruct (v1_agree_lines _ _ Ha) as [[Heq H0]|[Hne Hpos]].
  - rewrite H0. cbn [Z.ltb Z.compare]. rewrite decide_True by done.
    split; [done|]. split; [done|]. split; [done|]. split; [|done].
    split; [lia|done].
  - apply Z.ltb_lt in Hpos as Hlt. rewrite Hlt. rewrite decide_False by done.
    split; [done|]. split; [done|]. split; [lia|]. split; [|done].
    split; done.
Qed.


(** The lookbehind of the two patterns of the first version never rejects
    anything.  It is tested after the whitespace at
    the start of a line, where the text before is empty or ends with a
    newline or another whitespace character; the substitutions with the
    patterns as written and with the lookbehind left out give the same
    result on every text. *)
Theorem v1_lookbehind_idle (content : str) :
  V1.substitute content
  = (content1 ← V1.re_sub V1.PATTERN_1_PLAIN V1.TEMPLATE_1 content;
     V1.re_sub V1.PATTERN_2_PLAIN V1.TEMPLATE_2 content1).
Proof.
  unfold V1.substitute, V1.re_sub.
  rewrite (v1_sub_ext V1.PATTERN_1 V1.PATTERN_1_PLAIN)
    by (intros q; apply v1_pattern_1_plain).
  destruct (V1.sub _ V1.PATTERN_1_PLAIN _ _) as [content1| |]; [|done|done].
  rewrite !bind_Done. apply v1_sub_ext. intros q. apply v1_pattern_2_plain.
Qed.

(** In the first version a text that begins with whitespace, [console.], a method name, whitespace and
    an opening parenthesis is rewritten to the same leading whitespace,
    [// console.], the method name and the parenthesis; the whitespace
    between the method name and the parenthesis, line breaks included, is
    dropped, and the rest of the text goes through the same
    substitution. *)
Theorem v1_call_rewritten (t ws method ws2 r : str) :
  V1.call_shape t ws method ws2 r ->
  exists rest,
    V1.substitute t
    = Done (ws ++ COMMENTED_CONSOLE ++ method ++ LPAREN :: rest) /\
    V1.agree r rest.
Proof.
  intros Ht. destruct (v1_substitute_spec t) as (out & H1 & Hs & _).
  unfold V1.re_sub in H1.
  rewrite (v1_sub_hit (length t) [] _ _ _ _ _ eq_refl Ht) in H1.
  pose proof (v1_call_shorter _ _ _ _ _ Ht) as Hlen.
  destruct (v1_sub_spec (length t) r
              (rev (ws ++ CONSOLE ++ method ++ ws2 ++ [LPAREN]) ++ []))
    as (rest & Hr & _ & Ha); [lia|].
  rewrite Hr, bind_Done in H1. injection H1 as <-.
  by exists rest.
Qed.

Lemma v1_call_rewritten_witness :
  V1.call_shape split_call [] WARN [NL] (lit "z)" ++ [NL]) /\
  exists rest,
    V1.substitute split_call
    = Done ([] ++ COMMENTED_CONSOLE ++ WARN ++ LPAREN :: rest) /\
    V1.agree (lit "z)" ++ [NL]) rest.
Proof.
  assert (V1.call_shape split_call [] WARN [NL] (lit "z)" ++ [NL])) as H.
  { split; [reflexivity|]. split; [constructor|].
    split; [by repeat constructor|]. simpl. tauto. }
  split; [exact H|]. exact (v1_call_rewritten _ _ _ _ _ H).
Defined.

(** In the first version the guard [changes > 0] never holds back a
    change.  The value returned is the number of differing lines between
    the text read and the substituted text, and it is 0 exactly when the
    substitution left the text read as it was; then the file is not
    written and stays as it is, otherwise it holds the substituted text,
    which differs from what it held. *)
Theorem v1_return_value (content : str) :
  exists out,
    V1.substitute (read content) = Done out /\
    V1.comment_out_console_statements content
    = Done (if decide (out = read content) then content else out,
            V1.differing (V1.splitlines (read content)) (V1.splitlines out)) /\
    (V1.differing (V1.splitlines (read content)) (V1.splitlines out) = 0
     <-> out = read content) /\
    (out <> read content -> out <> content).
Proof.
  destruct (v1_file_spec content)
    as (out & n & Hs & Hrun & -> & Hge & Hpos & _ & Hfile).
  exists out. split; [done|]. split; [done|]. split; [|done].
  split.
  - intros H0. destruct (decide (out = read content)) as [|Hne]; [done|].
    apply Hpos in Hne. lia.
  - intros Heq. destruct (Z.eq_dec (V1.differing (V1.splitlines (read content))
                                      (V1.splitlines out)) 0) as [|Hn]; [done|].
    by destruct (proj1 Hpos); [lia|].
Qed.

Lemma startswith_translate (p rest : str) :
  (NL ∉ p) -> startswith (translate false rest) p = true ->
  startswith rest p = true.
Proof.
  revert rest. induction p as [|x p IH]; intros rest Hp H; [done|].
  apply not_elem_of_cons in Hp as [Hx Hp].
  destruct rest as [|c r]; [done|]. cbn [translate andb] in H.
  destruct (N.eqb_spec c CR) as [->|Hc]; cbn [startswith] in H.
  - apply andb_true_iff in H as [H _]. apply N.eqb_eq in H. by destruct Hx.
  - apply andb_true_iff in H as [Hcx H]. cbn [startswith]. rewrite Hcx.
    by apply IH.
Qed.

(** A text that [console.] does not occur in is read as such a text. *)
Lemma translate_no_console (s : str) (after_cr : bool) :
  any_suffix (fun u => startswith u CONSOLE) s = false ->
  any_suffix (fun u => startswith u CONSOLE) (translate after_cr s) = false.
Proof.
  revert after_cr. induction s as [|c rest IH]; intros after_cr H; [done|].
  cbn [any_suffix] in H. apply orb_false_iff in H as [Hhead Hrest].
  cbn [translate]. destruct (after_cr && (c =? NL)%N); [by apply IH|].
  destruct (N.eqb_spec c CR) as [->|Hc].
  - cbn [any_suffix]. rewrite (IH true Hrest). done.
  - cbn [any_suffix]. rewrite (IH false Hrest), orb_false_r.
    destruct (startswith (c :: translate false rest) CONSOLE) eqn:Hs; [|done].
    rewrite <- Hhead. symmetry.
    change CONSOLE with (99%N :: drop 1 CONSOLE) in *. simpl in Hs |- *.
    apply andb_true_iff in Hs as [Hcx Hs]. rewrite Hcx. simpl.
    apply (startswith_translate (drop 1 CONSOLE)); [|done].
    by apply (bool_decide_unpack (NL ∉ _)).
Qed.

(** In the first version a text in which [console.] does not occur is left
    as it is, and 0 is returned. *)
Theorem v1_no_console_unchanged (content : str) :
  any_suffix (fun u => startswith u CONSOLE) content = false ->
  V1.comment_out_console_statements content = Done (content, 0).
Proof.
  intros H. unfold V1.comment_out_console_statements. cbn zeta.
  rewrite (v1_substitute_quiet (read content)
             (v1_quiet_no_console true _ (translate_no_console _ false H))).
  rewrite bind_Done. by rewrite v1_differing_same.
Qed.

Lemma v1_no_console_unchanged_witness :
  V1.comment_out_console_statements plain_text = Done (plain_text, 0).
Proof. apply v1_no_console_unchanged. reflexivity. Defined.

Lemma v1_files_to_process_NoDup : NoDup V1.files_to_process.
Proof. by apply (bool_decide_unpack (NoDup V1.files_to_process)). Qed.

Lemma v1_process_file_spec (dir : gmap string str) (total : Z)
    (printed : list V1.message) (name : string) :
  exists dir' msg,
    V1.process_file (dir, total, printed) name
    = Done (dir', total + V1.message_changes msg, printed ++ [msg])
    /\ V1.message_name msg = Some name
    /\ 0 <= V1.message_changes msg
    /\ (forall other, other <> name -> dir' !! other = dir !! other)
    /\ V1.file_report name (dir !! name) (dir' !! name) msg
    /\ (V1.message_changes msg = 0 <-> dir' = dir).
Proof.
  unfold V1.process_file, V1.file_report.
  destruct (dir !! name) as [content|] eqn:Hd.
  2:{ exists dir, (V1.FileNotFound name). simpl. rewrite Z.add_0_r, Hd. done. }
  destruct (v1_file_spec content)
    as (out & changes & Hs & -> & _ & Hge & Hpos & _ & Hfile).
  rewrite bind_Done. cbn beta iota.
  destruct (decide (out = read content)) as [Heq|Hne].
  - assert (changes = 0) as ->.
    { destruct (Z.eq_dec changes 0) as [|Hn]; [done|].
      by destruct (proj1 Hpos); [lia|]. }
    exists dir, (V1.NoChangesNeeded name). simpl.
    rewrite insert_id by done. rewrite Z.add_0_r, Hd.
    split; [done|]. split; [done|]. split; [done|]. split; [done|].
    split; [|done]. exists out. by rewrite decide_True.
  - assert (0 < changes) as Hc by by apply Hpos.
    apply Z.ltb_lt in Hc as Hlt. rewrite Hlt.
    exists (<[name := out]> dir), (V1.Commented name changes). simpl.
    split; [done|]. split; [done|]. split; [lia|].
    split; [intros other Ho; by apply lookup_insert_ne|].
    rewrite lookup_insert_eq. split.
    + exists out. rewrite decide_False by done. split; [done|]. split; [done|].
      by exists changes.
    + split; [lia|]. intros Heq.
      assert (<[name := out]> dir !! name = dir !! name) as H by by rewrite Heq.
      rewrite lookup_insert_eq, Hd in H. injection H as H.
      by destruct (Hfile Hne).
Qed.

Lemma v1_reported_nonneg (msgs : list V1.message) :
  Forall (fun msg => 0 <= V1.message_changes msg) msgs -> 0 <= V1.reported msgs.
Proof. induction 1 as [|msg msgs H _ IH]; simpl; lia. Qed.

Lemma v1_for_each_files (names : list string) (dir : gmap string str)
    (total : Z) (printed : list V1.message) :
  NoDup names ->
  exists dir' msgs,
    for_each V1.process_file names (dir, total, printed)
    = Done (dir', total + V1.reported msgs, printed ++ msgs)
    /\ V1.message_name <$> msgs = Some <$> names
    /\ Forall (fun msg => 0 <= V1.message_changes msg) msgs
    /\ (forall other, other ∉ names -> dir' !! other = dir !! other)
    /\ (forall name, name ∈ names ->
          exists msg, msg ∈ msgs /\ V1.message_name msg = Some name /\
            V1.file_report name (dir !! name) (dir' !! name) msg)
    /\ (V1.reported msgs = 0 <-> dir' = dir).
Proof.
  intros Hnd. revert dir total printed.
  induction Hnd as [|x rest Hx Hnd IH]; intros dir total printed.
  - exists dir, []. simpl. rewrite Z.add_0_r, app_nil_r.
    split; [done|]. split; [done|]. split; [done|]. split; [done|].
    split; [|done]. intros name Hin. by apply elem_of_nil in Hin.
  - destruct (v1_process_file_spec dir total printed x)
      as (dir1 & msg & Hrun & Hname & Hge & Hother & Hrep & Hsame).
    destruct (IH dir1 (total + V1.message_changes msg) (printed ++ [msg]))
      as (dir' & msgs & Hloop & Hnames & Hall & Hrest & Hin & Hzero).
    exists dir', (msg :: msgs). cbn [for_each].
    rewrite Hrun, bind_Done, Hloop.
    split.
    { do 2 f_equal; [f_equal|by rewrite <- app_assoc].
      cbn [V1.reported foldr]. fold (V1.reported msgs). lia. }
    split; [rewrite !fmap_cons; by rewrite Hname, Hnames|].
    split; [by constructor|]. split; [|split].
    + intros other Hnot. apply not_elem_of_cons in Hnot as [Hne Hnot].
      rewrite Hrest by done. by apply Hother.
    + intros name [->|Hname']%elem_of_cons.
      * exists msg. split; [left|]. split; [done|]. by rewrite Hrest.
      * destruct (Hin name Hname') as (msg' & Hm & Hn & Hr).
        exists msg'. split; [by right|]. split; [done|].
        rewrite <- Hother; [done|]. by intros ->.
    + pose proof (v1_reported_nonneg msgs Hall) as Hsum.
      cbn [V1.reported foldr]. fold (V1.reported msgs). split.
      * intros H0. assert (V1.message_changes msg = 0) as Hm by lia.
        assert (V1.reported msgs = 0) as Hr by lia.
        apply Hsame in Hm. apply Hzero in Hr. congruence.
      * intros Heq. subst dir'.
        assert (dir1 = dir) as Hd.
        { apply Hsame. destruct (Z.eq_dec (V1.message_changes msg) 0) as [|Hn];
            [done|].
          assert (dir1 <> dir) as Hne by (intros H; by apply Hsame in H).
          destruct Hne. apply map_eq. intros k.
          destruct (decide (k = x)) as [->|Hk]; [|by apply Hother].
          by rewrite <- Hrest. }
        assert (V1.message_changes msg = 0) as Hm by by apply Hsame.
        assert (V1.reported msgs = 0) as Hr by by apply Hzero.
        lia.
Qed.

Lemma v1_main_spec (dir : gmap string str) :
  exists dir' msgs,
    V1.main (Some dir)
    = Done (Returned, Some dir',
            [V1.Banner] ++ msgs ++ [V1.TotalLines (V1.reported msgs)])
    /\ V1.message_name <$> msgs = Some <$> V1.files_to_process
    /\ Forall (fun msg => 0 <= V1.message_changes msg) msgs
    /\ (forall other, other ∉ V1.files_to_process -> dir' !! other = dir !! other)
    /\ (forall name, name ∈ V1.files_to_process ->
          exists msg, msg ∈ msgs /\ V1.message_name msg = Some name /\
            V1.file_report name (dir !! name) (dir' !! name) msg)
    /\ (V1.reported msgs = 0 <-> dir' = dir).
Proof.
  destruct (v1_for_each_files V1.files_to_process dir 0 [V1.Banner]
              v1_files_to_process_NoDup)
    as (dir' & msgs & Hloop & H).
  exists dir', msgs. split; [|exact H].
  unfold V1.main. rewrite Hloop, bind_Done. rewrite Z.add_0_l.
  by rewrite <- app_assoc.
Qed.


(** A second run of the first version's [main] finds nothing to do: on the
    directory the first run left it reports a total of 0 and leaves every
    file as it is. *)
Theorem v1_main_rerun (dir : gmap string str) :
  exists dir' msgs,
    V1.main (Some dir) = Done (Returned, Some dir', msgs) /\
    exists msgs',
      V1.main (Some dir')
      = Done (Returned, Some dir', [V1.Banner] ++ msgs' ++ [V1.TotalLines 0]).
Proof.
  destruct (v1_main_spec dir)
    as (dir1 & msgs & Hmain & _ & _ & Hother & Hfiles & _).
  exists dir1, ([V1.Banner] ++ msgs ++ [V1.TotalLines (V1.reported msgs)]).
  split; [done|].
  destruct (v1_main_spec dir1)
    as (dir2 & msgs' & Hmain2 & _ & _ & Hother2 & Hfiles2 & Hzero2).
  assert (dir2 = dir1) as ->.
  { apply map_eq. intros name.
    destruct (decide (name ∈ V1.files_to_process)) as [Hname|Hnot];
      [|by apply Hother2].
    destruct (Hfiles name Hname) as (msg & _ & _ & Hrep).
    destruct (Hfiles2 name Hname) as (msg2 & _ & _ & Hrep2).
    unfold V1.file_report in Hrep, Hrep2.
    destruct (dir !! name) as [content|].
    - destruct Hrep as (out & Hs & H).
      destruct (decide (out = read content)) as [Heq|Hne].
      + destruct H as [Hafter _]. rewrite Hafter in Hrep2.
        destruct Hrep2 as (out2 & Hs2 & H2). rewrite Hs in Hs2.
        injection Hs2 as <-. rewrite decide_True in H2 by done.
        destruct H2 as [-> _]. done.
      + destruct H as [Hafter _]. rewrite Hafter in Hrep2.
        destruct Hrep2 as (out2 & Hs2 & H2).
        pose proof (v1_substitute_no_cr _ _ Hs (read_no_cr content)) as Hcr.
        rewrite (read_id out Hcr) in Hs2, H2.
        rewrite (v1_substitute_fixed _ _ Hs) in Hs2. injection Hs2 as <-.
        rewrite decide_True in H2 by done. destruct H2 as [-> _]. done.
    - destruct Hrep as [Hafter _]. rewrite Hafter in Hrep2.
      destruct Hrep2 as [-> _]. by rewrite Hafter. }
  exists msgs'. rewrite Hmain2. by rewrite (proj2 Hzero2 eq_refl).
Qed.

(** The first version's [main] prints, between its first line and its
    last, one line for each listed file, in the order of the list.  The
    files reported as changed are exactly the files whose text differs
    afterwards, the number reported for each is positive, and the total in
    the closing line is the sum of those numbers. *)
Theorem v1_main_report (dir : gmap string str) :
  exists dir' msgs,
    V1.main (Some dir)
    = Done (Returned, Some dir',
            [V1.Banner] ++ msgs ++ [V1.TotalLines (V1.reported msgs)]) /\
    V1.message_name <$> msgs = Some <$> V1.files_to_process /\
    (forall name n, V1.Commented name n ∈ msgs ->
       0 < n /\ dir' !! name <> dir !! name) /\
    (forall name, dir' !! name <> dir !! name ->
       exists n, V1.Commented name n ∈ msgs).
Proof.
  destruct (v1_main_spec dir)
    as (dir' & msgs & Hmain & Hnames & _ & Hother & Hfiles & _).
  exists dir', msgs. split; [done|]. split; [done|].
  assert (NoDup (V1.message_name <$> msgs)) as Hnd.
  { rewrite Hnames. apply (NoDup_fmap_2 Some), v1_files_to_process_NoDup. }
  split.
  - intros name n Hin.
    assert (name ∈ V1.files_to_process) as Hname.
    { apply (list_elem_of_fmap_2 V1.message_name) in Hin. simpl in Hin.
      rewrite Hnames in Hin.
      apply list_elem_of_fmap in Hin as (x & [= ->] & Hx). done. }
    destruct (Hfiles name Hname) as (msg & Hmsg & Hmn & Hrep).
    assert (msg = V1.Commented name n) as ->
      by (by apply (fmap_NoDup_eq V1.message_name msgs)).
    unfold V1.file_report in Hrep.
    destruct (dir !! name) as [content|]; [|by destruct Hrep].
    destruct Hrep as (out & Hs & H).
    destruct (decide (out = read content)) as [|Hne]; [by destruct H|].
    destruct H as (-> & n' & Hpos & [= ->]). split; [done|]. intros [= ->].
    pose proof (v1_substitute_no_cr _ _ Hs (read_no_cr content)) as Hcr.
    apply Hne. symmetry. by apply read_id.
  - intros name Hne.
    destruct (decide (name ∈ V1.files_to_process)) as [Hname|Hnot];
      [|by destruct Hne; apply Hother].
    destruct (Hfiles name Hname) as (msg & Hmsg & Hmn & Hrep).
    unfold V1.file_report in Hrep.
    destruct (dir !! name) as [content|]; [|by destruct Hrep as [? _]].
    destruct Hrep as (out & _ & H).
    destruct (decide (out = read content)) as [Heq|Hneq].
    { destruct H as [Hafter _]. by rewrite Hafter in Hne. }
    destruct H as (_ & n & _ & ->). by exists n.
Qed.
